(** * YouTube explainer evaluator: prompt construction and reply normalization

    A shallow embedding of the evaluation pipeline of the repository:
    - [constructPrompt] and [tryParseJSON] (server/server.js and
      amplify/functions/evaluator/index.js),
    - the Express routes and the Lambda handler around them,
    - the client-side extraction in public/script.js
      ([renderMetricResult], [renderAllResults]).

    JavaScript values are an inductive type, exceptions are an explicit
    completion type, and the asynchronous handlers are written in a small
    state-and-exception monad over the file system and the generation
    backend. *)

From Stdlib Require Import String Ascii List ZArith NArith Bool Lia.
From Stdlib Require Import DecimalString DecimalFacts DecimalPos DecimalN.
Import ListNotations.
Set Warnings "-register-all".
Local Open Scope list_scope.
Local Open Scope string_scope.

(* ===================================================================== *)
(** ** Strings *)
(* ===================================================================== *)

(** JavaScript strings are modelled as [string], read as the UTF-8 bytes of
    the text.  The delimiters the code searches for are ASCII, so positions
    found by [indexOf] and cut by [slice] agree with the source.  The
    model is one of well-formed text: what the built-ins do only for a
    lone surrogate (an escape written by [JSON.stringify], a [URIError]
    of [encodeURIComponent]) is not modelled. *)
Module Str.

Definition len (s : string) : Z := Z.of_nat (String.length s).

Fixpoint startsWith (p s : string) : bool :=
  match p, s with
  | EmptyString, _ => true
  | String a p', String b s' => Ascii.eqb a b && startsWith p' s'
  | String _ _, EmptyString => false
  end.

(** [String.prototype.includes(sub)]: [sub] occurs at some position. *)
Fixpoint includes (s sub : string) : bool :=
  startsWith sub s ||
  match s with
  | EmptyString => false
  | String _ s' => includes s' sub
  end.

(** [String.prototype.indexOf(c)] for a one-character search string:
    position of the first occurrence, [-1] when there is none. *)
Fixpoint indexOf (s : string) (c : ascii) : Z :=
  match s with
  | EmptyString => -1
  | String a s' =>
      if Ascii.eqb a c then 0
      else let i := indexOf s' c in if (i <? 0)%Z then -1 else (i + 1)%Z
  end.

(** [String.prototype.lastIndexOf(c)]: position of the last occurrence. *)
Fixpoint lastIndexOf (s : string) (c : ascii) : Z :=
  match s with
  | EmptyString => -1
  | String a s' =>
      let i := lastIndexOf s' c in
      if (0 <=? i)%Z then (i + 1)%Z
      else if Ascii.eqb a c then 0 else -1
  end.

(** [String.prototype.slice(from, to)], negative arguments counting from
    the end as in ECMAScript. *)
Definition slice (s : string) (from to : Z) : string :=
  let n := len s in
  let lo := if (from <? 0)%Z then Z.max (n + from) 0 else Z.min from n in
  let hi := if (to <? 0)%Z then Z.max (n + to) 0 else Z.min to n in
  String.substring (Z.to_nat lo) (Z.to_nat (hi - lo)) s.

(** [Array.prototype.join(sep)] on strings. *)
Definition join (sep : string) (l : list string) : string :=
  String.concat sep l.

Definition decimal (n : N) : string :=
  NilEmpty.string_of_uint (N.to_uint n).

Fixpoint repeat0 (n : nat) : string :=
  match n with O => "" | S k => String "0" (repeat0 k) end.

End Str.

Definition LF : string := String (ascii_of_nat 10) EmptyString.

(* ===================================================================== *)
(** ** Values, exceptions, completions *)
(* ===================================================================== *)

(** A JSON number is kept as its decimal literal [mant * 10 ^ exp10], which
    stands for the IEEE double nearest to it.  The rounding of the mantissa
    is not modelled; what the code can observe of it here is modelled:
    underflow to zero (falsy in a truthiness test) and overflow to
    infinity.  Two literals of the same double are told apart, and a
    literal is printed digit for digit: this agrees with the source for
    literals of at most 15 significant digits, which a double holds
    exactly enough to print them back, and the statements that print a
    number read from a reply are made for those. *)
Record number : Set := mkNum { mant : Z; exp10 : Z }.

Definition num_of_Z (z : Z) : number := mkNum z 0.

(** Values the code handles: the JSON values, [undefined], and the built-in
    members an object inherits from the runtime's prototypes (opaque,
    truthy), reachable through a computed property access. *)
Inductive value : Type :=
| JUndefined
| JNull
| JBool (b : bool)
| JNum (n : number)
| JStr (s : string)
| JArr (elems : list value)
| JObj (fields : list (string * value))
| JNative (name : string).

(** Thrown errors.  [SystemError] is a failed file operation; it carries
    the [code] the code tests.  The message texts of the engine's own errors
    are the engine's choice; nothing below depends on them. *)
Inductive exn : Type :=
| TypeError (msg : string)
| SyntaxError (msg : string)
| RangeError (msg : string)
| SystemError (code : string) (msg : string)
| Error (msg : string).

Definition exn_message (e : exn) : string :=
  match e with
  | TypeError m | SyntaxError m | RangeError m | SystemError _ m | Error m => m
  end.

Definition exn_code (e : exn) : option string :=
  match e with
  | SystemError c _ => Some c
  | _ => None
  end.

(** The result of evaluating an expression or a call: a value, or a thrown
    exception. *)
Inductive completion (A : Type) : Type :=
| Ok (a : A)
| Throw (e : exn).
Arguments Ok {A} a.
Arguments Throw {A} e.

Definition bind {A B} (c : completion A) (k : A -> completion B) : completion B :=
  match c with
  | Ok a => k a
  | Throw e => Throw e
  end.

(** [try { c } catch (err) { h err }] *)
Definition try_catch {A} (c : completion A) (h : exn -> completion A) : completion A :=
  match c with
  | Ok a => Ok a
  | Throw e => h e
  end.

Declare Scope js_scope.
Delimit Scope js_scope with js.
Notation "x <- c ;; k" := (bind c (fun x => k))
  (at level 61, c at next level, right associativity) : js_scope.
Local Open Scope js_scope.

Fixpoint mapM {A B} (f : A -> completion B) (l : list A) : completion (list B) :=
  match l with
  | [] => Ok []
  | x :: r => y <- f x ;; ys <- mapM f r ;; Ok (y :: ys)
  end.

(** [Array.prototype.map] with the index passed to the callback. *)
Fixpoint mapi_from {A B} (i : N) (f : A -> N -> completion B) (l : list A)
  : completion (list B) :=
  match l with
  | [] => Ok []
  | x :: r => y <- f x i ;; ys <- mapi_from (N.succ i) f r ;; Ok (y :: ys)
  end.

Definition mapi {A B} := @mapi_from A B 0%N.

(* ===================================================================== *)
(** ** Numbers *)
(* ===================================================================== *)

Module Num.

(** The double nearest to [m * 10 ^ e] is zero: [|m * 10^e| <= 2^-1075]
    (round to nearest, ties to even, below the least subnormal). *)
Definition rounds_to_zero (n : number) : bool :=
  (mant n =? 0)%Z ||
  ((exp10 n <? 0)%Z && (Z.abs (mant n) * 2 ^ 1075 <=? 10 ^ (- exp10 n))%Z).

(** The double nearest to [m * 10 ^ e] is an infinity:
    [|m * 10^e| >= 2^1024 - 2^970]. *)
Definition overflows (n : number) : bool :=
  let bound := (2 ^ 1024 - 2 ^ 970)%Z in
  if (0 <=? exp10 n)%Z
  then (bound <=? Z.abs (mant n) * 10 ^ exp10 n)%Z
  else (bound * 10 ^ (- exp10 n) <=? Z.abs (mant n))%Z.

(** [lo <= m * 10 ^ e <= hi], on the decimal. *)
Definition between (lo hi : Z) (n : number) : bool :=
  if (0 <=? exp10 n)%Z
  then (lo <=? mant n * 10 ^ exp10 n)%Z && (mant n * 10 ^ exp10 n <=? hi)%Z
  else (lo * 10 ^ (- exp10 n) <=? mant n)%Z && (mant n <=? hi * 10 ^ (- exp10 n))%Z.

Fixpoint strip_zeros (fuel : nat) (m : N) (e : Z) : N * Z :=
  match fuel with
  | O => (m, e)
  | S f =>
      if ((m mod 10 =? 0) && negb (m =? 0))%N
      then strip_zeros f (m / 10)%N (e + 1)%Z
      else (m, e)
  end.

(** [Number::toString] (radix 10) on the decimal: digits [s] with no
    trailing zero, [k] their count, [n] the position of the decimal
    point, laid out as ECMAScript prescribes. *)
Definition toString (x : number) : string :=
  if rounds_to_zero x then "0"
  else if overflows x then (if (mant x <? 0)%Z then "-Infinity" else "Infinity")
  else
    let sign := if (mant x <? 0)%Z then "-" else "" in
    let m0 := Z.to_N (Z.abs (mant x)) in
    let '(m, e) := strip_zeros (String.length (Str.decimal m0)) m0 (exp10 x) in
    let digits := Str.decimal m in
    let k := Z.of_nat (String.length digits) in
    let n := (k + e)%Z in
    sign ++
    (if ((k <=? n) && (n <=? 21))%Z then
       digits ++ Str.repeat0 (Z.to_nat (n - k))
     else if ((0 <? n) && (n <=? 21))%Z then
       String.substring 0 (Z.to_nat n) digits ++ "." ++
       String.substring (Z.to_nat n) (Z.to_nat (k - n)) digits
     else if ((-6 <? n) && (n <=? 0))%Z then
       "0." ++ Str.repeat0 (Z.to_nat (- n)) ++ digits
     else
       let ex := (n - 1)%Z in
       let exs := (if (ex <? 0)%Z then "-" else "+") ++ Str.decimal (Z.to_N (Z.abs ex)) in
       if (k =? 1)%Z then digits ++ "e" ++ exs
       else String.substring 0 1 digits ++ "." ++
            String.substring 1 (Z.to_nat (k - 1)) digits ++ "e" ++ exs).

End Num.

(* ===================================================================== *)
(** ** Conversions and property access *)
(* ===================================================================== *)

(** [ToBoolean]: the truthiness test of [if (x)], [!x], [a || b], [a && b]. *)
Definition ToBoolean (v : value) : bool :=
  match v with
  | JUndefined | JNull => false
  | JBool b => b
  | JNum n => negb (Num.rounds_to_zero n)
  | JStr s => negb (String.eqb s "")
  | JArr _ | JObj _ | JNative _ => true
  end.

(** [a || b] on values. *)
Definition js_or (a b : value) : value := if ToBoolean a then a else b.

Fixpoint lookup (key : string) (fields : list (string * value)) : option value :=
  match fields with
  | [] => None
  | (k, v) :: r => if String.eqb k key then Some v else lookup key r
  end.

Definition has_key (key : string) (fields : list (string * value)) : bool :=
  match lookup key fields with Some _ => true | None => false end.

(** The names every object inherits from [Object.prototype]. *)
Definition object_prototype_names : list string :=
  [ "constructor"; "__defineGetter__"; "__defineSetter__"; "hasOwnProperty";
    "__lookupGetter__"; "__lookupSetter__"; "isPrototypeOf";
    "propertyIsEnumerable"; "toString"; "valueOf"; "__proto__";
    "toLocaleString" ].

Definition inherited (key : string) : value :=
  if existsb (String.eqb key) object_prototype_names then JNative key
  else JUndefined.

(** How the engine prints a built-in member: [Object.prototype] itself for
    [__proto__], a native function otherwise. *)
Definition native_text (name : string) : string :=
  if String.eqb name "__proto__" then "[object Object]"
  else "function " ++ (if String.eqb name "constructor" then "Object" else name)
       ++ "() { [native code] }".

(** [ToString], as applied by a template literal [`${v}`].  An array joins
    its elements with a comma, [null] and [undefined] elements printing as
    nothing; a plain object prints as [[object Object]] unless it carries a
    [toString] entry of its own, which no JSON value can make callable. *)
Fixpoint ToString (v : value) : completion string :=
  match v with
  | JUndefined => Ok "undefined"
  | JNull => Ok "null"
  | JBool true => Ok "true"
  | JBool false => Ok "false"
  | JNum n => Ok (Num.toString n)
  | JStr s => Ok s
  | JArr l =>
      parts <- (fix elems (l : list value) : completion (list string) :=
                  match l with
                  | [] => Ok []
                  | x :: r =>
                      s <- match x with
                           | JUndefined | JNull => Ok ""
                           | _ => ToString x
                           end ;;
                      ss <- elems r ;;
                      Ok (s :: ss)
                  end) l ;;
      Ok (Str.join "," parts)
  | JObj fields =>
      if has_key "toString" fields
      then Throw (TypeError "Cannot convert object to primitive value")
      else Ok "[object Object]"
  | JNative name => Ok (native_text name)
  end.

(** A canonical array index: the decimal numeral of an integer below
    [2^32 - 1]. *)
Definition is_digit (c : ascii) : bool :=
  (48 <=? nat_of_ascii c)%nat && (nat_of_ascii c <=? 57)%nat.

Definition digit_val (c : ascii) : N := N.of_nat (nat_of_ascii c - 48).

Definition digits_value (ds : list ascii) : N :=
  fold_left (fun a d => (a * 10 + digit_val d)%N) ds 0%N.

Definition array_index (key : string) : option N :=
  let cs := list_ascii_of_string key in
  if forallb is_digit cs && negb (String.eqb key "") then
    let n := digits_value cs in
    if String.eqb (Str.decimal n) key && (n <? 2 ^ 32 - 1)%N then Some n else None
  else None.

(** Property read [v.key] / [v[key]].  Reading from [null] or [undefined]
    throws.  Own entries first, then [Object.prototype].  Members of
    [Array.prototype] and [String.prototype] are not modelled: no name the
    code reads from an array or a string is one of them. *)
Definition Get (v : value) (key : string) : completion value :=
  match v with
  | JUndefined => Throw (TypeError ("Cannot read properties of undefined (reading '" ++ key ++ "')"))
  | JNull => Throw (TypeError ("Cannot read properties of null (reading '" ++ key ++ "')"))
  | JObj fields =>
      Ok (match lookup key fields with Some x => x | None => inherited key end)
  | JArr l =>
      if String.eqb key "length" then Ok (JNum (num_of_Z (Z.of_nat (List.length l))))
      else match array_index key with
           | Some i => Ok (nth (N.to_nat i) l JUndefined)
           | None => Ok (inherited key)
           end
  | JStr s =>
      if String.eqb key "length" then Ok (JNum (num_of_Z (Str.len s)))
      else match array_index key with
           | Some i => Ok (match String.get (N.to_nat i) s with
                           | Some c => JStr (String c "")
                           | None => JUndefined
                           end)
           | None => Ok (inherited key)
           end
  | JBool _ | JNum _ | JNative _ => Ok (inherited key)
  end.

Definition isArray (v : value) : bool :=
  match v with JArr _ => true | _ => false end.

(** Defining an own property the way [JSON.parse] and an assignment
    [o[k] = v] do: an existing key keeps its place, a new array-index key is
    placed among the index keys in ascending order, any other new key goes
    last.  Objects built this way list their entries in the order
    [Object.values] and [JSON.stringify] enumerate them. *)
Fixpoint replace_field (k : string) (v : value) (fields : list (string * value))
  : list (string * value) :=
  match fields with
  | [] => []
  | (k', v') :: r =>
      if String.eqb k' k then (k, v) :: r else (k', v') :: replace_field k v r
  end.

Fixpoint insert_index (i : N) (k : string) (v : value) (fields : list (string * value))
  : list (string * value) :=
  match fields with
  | [] => [(k, v)]
  | (k', v') :: r =>
      match array_index k' with
      | Some j => if (j <? i)%N then (k', v') :: insert_index i k v r
                  else (k, v) :: (k', v') :: r
      | None => (k, v) :: (k', v') :: r
      end
  end.

Definition obj_set (fields : list (string * value)) (k : string) (v : value)
  : list (string * value) :=
  if has_key k fields then replace_field k v fields
  else match array_index k with
       | Some i => insert_index i k v fields
       | None => fields ++ [(k, v)]
       end.

(** [Object.values(v)] for a value that is neither [null] nor [undefined]. *)
Definition Object_values (v : value) : completion (list value) :=
  match v with
  | JUndefined | JNull => Throw (TypeError "Cannot convert undefined or null to object")
  | JObj fields => Ok (map snd fields)
  | JArr l => Ok l
  | JStr s => Ok (map (fun c => JStr (String c "")) (list_ascii_of_string s))
  | JBool _ | JNum _ | JNative _ => Ok []
  end.

(* ===================================================================== *)
(** ** JSON.parse *)
(* ===================================================================== *)

(** The built-in [JSON.parse] on the JSON grammar (ECMA-404): white space is
    space, tab, line feed and carriage return; a text is one value between
    optional white space; duplicate object keys keep the last value.  It
    throws a [SyntaxError] on any other text. *)
Module JSON.

Local Open Scope char_scope.

Definition dquote : ascii := ascii_of_nat 34.
Definition backslash : ascii := ascii_of_nat 92.

Definition is_ws (c : ascii) : bool :=
  match nat_of_ascii c with
  | 32%nat | 9%nat | 10%nat | 13%nat => true
  | _ => false
  end.

Fixpoint skip_ws (s : list ascii) : list ascii :=
  match s with
  | c :: r => if is_ws c then skip_ws r else s
  | [] => []
  end.

Fixpoint take_digits (s : list ascii) : list ascii * list ascii :=
  match s with
  | c :: r =>
      if is_digit c then let '(ds, rest) := take_digits r in (c :: ds, rest)
      else ([], s)
  | [] => ([], [])
  end.

(** [strip_prefix p s]: what follows [p] at the head of [s]. *)
Fixpoint strip_prefix (p s : list ascii) : option (list ascii) :=
  match p, s with
  | [], _ => Some s
  | a :: p', b :: s' => if Ascii.eqb a b then strip_prefix p' s' else None
  | _ :: _, [] => None
  end.

(** [next_is c s]: what follows the token [c], after white space. *)
Definition next_is (c : ascii) (s : list ascii) : option (list ascii) :=
  match skip_ws s with
  | x :: r => if Ascii.eqb x c then Some r else None
  | [] => None
  end.

(** number = [ - ] int [ frac ] [ exp ] *)
Definition parse_fraction (s : list ascii) : option (list ascii * list ascii) :=
  match strip_prefix ["."] s with
  | Some r =>
      match take_digits r with
      | ([], _) => None
      | (fp, rest) => Some (fp, rest)
      end
  | None => Some ([], s)
  end.

Definition exponent_digits (neg : bool) (r : list ascii) : option (Z * list ascii) :=
  match take_digits r with
  | ([], _) => None
  | (ep, rest) =>
      let e := Z.of_N (digits_value ep) in
      Some (if neg then (- e)%Z else e, rest)
  end.

Definition parse_exponent (s : list ascii) : option (Z * list ascii) :=
  match s with
  | c :: r =>
      if Ascii.eqb c "e" || Ascii.eqb c "E" then
        match strip_prefix ["+"] r with
        | Some t => exponent_digits false t
        | None =>
            match strip_prefix ["-"] r with
            | Some t => exponent_digits true t
            | None => exponent_digits false r
            end
        end
      else Some (0%Z, s)
  | [] => Some (0%Z, s)
  end.

Definition parse_number (s : list ascii) : option (number * list ascii) :=
  let '(neg, s1) := match strip_prefix ["-"] s with
                    | Some r => (true, r)
                    | None => (false, s)
                    end in
  match s1 with
  | d :: r =>
      if is_digit d then
        let '(ip, s2) := if Ascii.eqb d "0" then ([d], r) else take_digits s1 in
        match parse_fraction s2 with
        | None => None
        | Some (fp, s3) =>
            match parse_exponent s3 with
            | None => None
            | Some (ex, s4) =>
                let m := Z.of_N (digits_value (ip ++ fp)) in
                Some (mkNum (if neg then (- m)%Z else m)
                            (ex - Z.of_nat (List.length fp)), s4)
            end
        end
      else None
  | [] => None
  end.

Definition hex_val (c : ascii) : option N :=
  let n := nat_of_ascii c in
  if is_digit c then Some (N.of_nat (n - 48))
  else if ((65 <=? n) && (n <=? 70))%nat then Some (N.of_nat (n - 55))
  else if ((97 <=? n) && (n <=? 102))%nat then Some (N.of_nat (n - 87))
  else None.

Definition hex4 (a b c d : ascii) : option N :=
  match hex_val a, hex_val b, hex_val c, hex_val d with
  | Some x, Some y, Some z, Some w => Some (((x * 16 + y) * 16 + z) * 16 + w)%N
  | _, _, _, _ => None
  end.

Definition byte (n : N) : ascii := ascii_of_N n.

(** The UTF-8 bytes of a code point (a lone surrogate is written in the
    same three-byte form). *)
Definition utf8 (cp : N) : list ascii :=
  if (cp <? 128)%N then [byte cp]
  else if (cp <? 2048)%N then
    [byte (192 + cp / 64); byte (128 + cp mod 64)]
  else if (cp <? 65536)%N then
    [byte (224 + cp / 4096); byte (128 + (cp / 64) mod 64); byte (128 + cp mod 64)]
  else
    [byte (240 + cp / 262144); byte (128 + (cp / 4096) mod 64);
     byte (128 + (cp / 64) mod 64); byte (128 + cp mod 64)].

Definition is_high (cp : N) : bool := (55296 <=? cp)%N && (cp <=? 56319)%N.
Definition is_low (cp : N) : bool := (56320 <=? cp)%N && (cp <=? 57343)%N.

Definition simple_escape (e : ascii) : option ascii :=
  match e with
  | "b" => Some (ascii_of_nat 8)
  | "f" => Some (ascii_of_nat 12)
  | "n" => Some (ascii_of_nat 10)
  | "r" => Some (ascii_of_nat 13)
  | "t" => Some (ascii_of_nat 9)
  | "/" => Some "/"
  | _ => if Ascii.eqb e dquote then Some dquote
         else if Ascii.eqb e backslash then Some backslash
         else None
  end.

(** The characters of a string after its opening quote, up to and
    including the closing quote; [acc] holds the decoded characters in
    reverse. *)
Fixpoint parse_chars (s : list ascii) (acc : list ascii)
  : option (string * list ascii) :=
  match s with
  | [] => None
  | c :: r =>
      if Ascii.eqb c dquote then Some (string_of_list_ascii (rev acc), r)
      else if Ascii.eqb c backslash then
        match r with
        | [] => None
        | e :: r1 =>
            match simple_escape e with
            | Some ch => parse_chars r1 (ch :: acc)
            | None =>
                if Ascii.eqb e "u" then
                  match r1 with
                  | h1 :: h2 :: h3 :: h4 :: r2 =>
                      match hex4 h1 h2 h3 h4 with
                      | None => None
                      | Some hi =>
                          let single := parse_chars r2 (rev (utf8 hi) ++ acc) in
                          if is_high hi then
                            match r2 with
                            | b :: u :: g1 :: g2 :: g3 :: g4 :: r3 =>
                                if Ascii.eqb b backslash && Ascii.eqb u "u" then
                                  match hex4 g1 g2 g3 g4 with
                                  | Some lo =>
                                      if is_low lo then
                                        parse_chars r3
                                          (rev (utf8 (65536 + (hi - 55296) * 1024 + (lo - 56320))%N)
                                           ++ acc)
                                      else single
                                  | None => single
                                  end
                                else single
                            | _ => single
                            end
                          else single
                      end
                  | _ => None
                  end
                else None
            end
        end
      else if (nat_of_ascii c <? 32)%nat then None
      else parse_chars r (c :: acc)
  end.

Inductive presult (A : Type) : Type :=
| POk (a : A) (rest : list ascii)
| PFail
| PFuel.
Arguments POk {A} a rest.
Arguments PFail {A}.
Arguments PFuel {A}.

Definition chars (name : string) : list ascii := list_ascii_of_string name.

(** [null], [true], [false] or a number, at the head of [s]. *)
Definition parse_scalar (s : list ascii) : presult value :=
  match strip_prefix (chars "null") s with
  | Some r => POk JNull r
  | None =>
  match strip_prefix (chars "true") s with
  | Some r => POk (JBool true) r
  | None =>
  match strip_prefix (chars "false") s with
  | Some r => POk (JBool false) r
  | None =>
  match parse_number s with
  | Some (n, rest) => POk (JNum n) rest
  | None => PFail
  end end end end.

(** Recursive descent.  [parse_value] skips leading white space and reads
    one value; [parse_elements] and [parse_members] read the rest of a
    non-empty array or object after its opening bracket.  The fuel bounds
    the nesting of calls; [parse] supplies enough of it (lemma
    [parse_value_fuel]). *)
Fixpoint parse_value (fuel : nat) (s : list ascii) : presult value :=
  match fuel with
  | O => PFuel
  | S f =>
      match skip_ws s with
      | [] => PFail
      | c :: r =>
          if Ascii.eqb c "[" then
            match next_is "]" r with
            | Some r' => POk (JArr []) r'
            | None => parse_elements f r []
            end
          else if Ascii.eqb c "{" then
            match next_is "}" r with
            | Some r' => POk (JObj []) r'
            | None => parse_members f r []
            end
          else if Ascii.eqb c dquote then
            match parse_chars r [] with
            | Some (str, rest) => POk (JStr str) rest
            | None => PFail
            end
          else parse_scalar (c :: r)
      end
  end

with parse_elements (fuel : nat) (s : list ascii) (acc : list value)
  : presult value :=
  match fuel with
  | O => PFuel
  | S f =>
      match parse_value f s with
      | POk v r =>
          match next_is "," r with
          | Some r' => parse_elements f r' (v :: acc)
          | None =>
              match next_is "]" r with
              | Some r' => POk (JArr (rev (v :: acc))) r'
              | None => PFail
              end
          end
      | PFail => PFail
      | PFuel => PFuel
      end
  end

with parse_members (fuel : nat) (s : list ascii) (acc : list (string * value))
  : presult value :=
  match fuel with
  | O => PFuel
  | S f =>
      match next_is dquote s with
      | None => PFail
      | Some r =>
          match parse_chars r [] with
          | None => PFail
          | Some (key, r1) =>
              match next_is ":" r1 with
              | None => PFail
              | Some r2 =>
                  match parse_value f r2 with
                  | POk v r3 =>
                      match next_is "," r3 with
                      | Some r4 => parse_members f r4 (obj_set acc key v)
                      | None =>
                          match next_is "}" r3 with
                          | Some r4 => POk (JObj (obj_set acc key v)) r4
                          | None => PFail
                          end
                      end
                  | PFail => PFail
                  | PFuel => PFuel
                  end
              end
          end
      end
  end.

Definition syntax_error : exn := SyntaxError "Unexpected token in JSON".

Definition parse (text : string) : completion value :=
  let s := list_ascii_of_string text in
  match parse_value (2 * List.length s + 2) s with
  | POk v rest =>
      match skip_ws rest with
      | [] => Ok v
      | _ :: _ => Throw syntax_error
      end
  | PFail | PFuel => Throw syntax_error
  end.

End JSON.

(* ===================================================================== *)
(** ** JSON.stringify *)
(* ===================================================================== *)

(** The text [s] with every apostrophe standing for a double quote: the
    way texts that contain double quotes are written in this file. *)
Fixpoint dq (s : string) : string :=
  match s with
  | EmptyString => EmptyString
  | String c r => String (if Ascii.eqb c "'" then JSON.dquote else c) (dq r)
  end.

Definition DQ : string := String JSON.dquote "".

Module Stringify.

Definition hex_digit (n : nat) : ascii :=
  if (n <? 10)%nat then ascii_of_nat (48 + n) else ascii_of_nat (87 + n).

Definition escape (c : ascii) : string :=
  let n := nat_of_ascii c in
  if Ascii.eqb c JSON.dquote then String JSON.backslash DQ
  else if Ascii.eqb c JSON.backslash then String JSON.backslash (String JSON.backslash "")
  else match n with
       | 8%nat => String JSON.backslash "b"
       | 9%nat => String JSON.backslash "t"
       | 10%nat => String JSON.backslash "n"
       | 12%nat => String JSON.backslash "f"
       | 13%nat => String JSON.backslash "r"
       | _ =>
           if (n <? 32)%nat
           then String JSON.backslash
                  ("u00" ++ String (hex_digit (n / 16)) (String (hex_digit (n mod 16)) ""))
           else String c ""
       end.

(** [QuoteJSONString], for well-formed text. *)
Fixpoint quote_chars (s : string) : string :=
  match s with
  | EmptyString => EmptyString
  | String c r => escape c ++ quote_chars r
  end.

Definition quote (s : string) : string := DQ ++ quote_chars s ++ DQ.

Definition wrap (gap indent inner : string) (opening closing : string)
           (parts : list string) : string :=
  match parts with
  | [] => opening ++ closing
  | _ =>
      if String.eqb gap "" then opening ++ Str.join "," parts ++ closing
      else opening ++ LF ++ inner ++ Str.join ("," ++ LF ++ inner) parts
           ++ LF ++ indent ++ closing
  end.

(** [SerializeJSONProperty]: [None] is the "no text" result of
    [undefined] and of functions, dropped from objects and written
    [null] in arrays; [Object.prototype], the one built-in member that is
    no function, is an object without entries of its own. *)
Fixpoint serialize (gap indent : string) (v : value) : option string :=
  match v with
  | JUndefined => None
  | JNative name => if String.eqb name "__proto__" then Some "{}" else None
  | JNull => Some "null"
  | JBool true => Some "true"
  | JBool false => Some "false"
  | JNum n => Some (if Num.overflows n && negb (Num.rounds_to_zero n)
                    then "null" else Num.toString n)
  | JStr s => Some (quote s)
  | JArr l =>
      let inner := indent ++ gap in
      let parts :=
        (fix elems (l : list value) : list string :=
           match l with
           | [] => []
           | x :: r =>
               match serialize gap inner x with
               | Some t => t
               | None => "null"
               end :: elems r
           end) l in
      Some (wrap gap indent inner "[" "]" parts)
  | JObj fields =>
      let inner := indent ++ gap in
      let parts :=
        (fix members (l : list (string * value)) : list string :=
           match l with
           | [] => []
           | (k, x) :: r =>
               match serialize gap inner x with
               | Some t =>
                   (quote k ++ ":" ++ (if String.eqb gap "" then "" else " ") ++ t)
                     :: members r
               | None => members r
               end
           end) fields in
      Some (wrap gap indent inner "{" "}" parts)
  end.

End Stringify.

(** [JSON.stringify(v)] and [JSON.stringify(v, null, 2)]; the result is
    [undefined] when [v] has no JSON text. *)
Definition JSON_stringify (v : value) (gap : string) : value :=
  match Stringify.serialize gap "" v with
  | Some t => JStr t
  | None => JUndefined
  end.

(* ===================================================================== *)
(** ** The server: prompt construction and reply parsing *)
(* ===================================================================== *)

(** List of metrics (same labels used on frontend). *)
Definition METRICS : list string :=
  [ "Clarity of problem articulation";
    "Purpose statement strength";
    "Logical flow of explanation";
    "Audience understanding level";
    "Concept simplification quality";
    "Technical accuracy of explanations";
    "Confidence in voice delivery";
    "Degree of passion conveyed";
    "Pacing and speed of narration";
    "Structural clarity of content";
    "Visual organization without styling";
    "Completeness of topic coverage";
    "Engagement level of the explanation";
    "Reasoning transparency";
    "Justification of technical decisions";
    "Clarity of transitions between topics";
    "Interview-readiness of communication";
    "Problem-solving mindset demonstration";
    "Career-oriented presentation quality" ].

Definition header : string :=
  "You are an expert reviewer for YouTube educational videos. Evaluate the following video and provide for each requested metric a numeric score from 1 (poor) to 10 (excellent) and a concise actionable feedback section with suggestions.".

Definition instruction : string :=
  dq "Return a JSON object. For each metric include: { 'metric': '<name>', 'score': <1-10>, 'feedback': '<actionable feedback>' } and at the end add a field 'common_improvements' with an array of top 5 cross-metric suggestions. Output only valid JSON.".

(** [`${o.key}`]: a property read, printed in a template literal. *)
Definition field (o : value) (key : string) : completion string :=
  v <- Get o key ;; ToString v.

(** [`${i + 1}. ${m}`] *)
Definition metric_line (m : value) (i : N) : completion string :=
  let n := Num.toString (num_of_Z (Z.of_N i + 1)) in
  s <- ToString m ;;
  Ok (n ++ ". " ++ s).

(** [constructPrompt(details, metricList)], identical in server.js and in
    the Lambda's index.js.
    details: { url, videoType, purpose, keyConcepts, justifications, goal,
    title }; metricList: array of metric strings to evaluate. *)
Definition constructPrompt (details : value) (metricList : list value)
  : completion string :=
  url <- field details "url" ;;
  t <- Get details "title" ;;
  title <- ToString (js_or t (JStr "Unknown Title")) ;;
  videoType <- field details "videoType" ;;
  purpose <- field details "purpose" ;;
  keyConcepts <- field details "keyConcepts" ;;
  justifications <- field details "justifications" ;;
  goal <- field details "goal" ;;
  let videoInfo :=
    "Video URL: " ++ url ++ LF ++
    "Title: " ++ title ++ LF ++
    "Video Type: " ++ videoType ++ LF ++
    "Purpose: " ++ purpose ++ LF ++
    "Key Concepts: " ++ keyConcepts ++ LF ++
    "Justifications: " ++ justifications ++ LF ++
    "Evaluation Goal: " ++ goal in
  lines <- mapi metric_line metricList ;;
  let metricsText := Str.join LF lines in
  Ok (Str.join (LF ++ LF)
        [header; videoInfo; "Metrics to evaluate:"; metricsText; instruction]).

(** Helper: parse response that is JSON or JSON-like.  [tryParseJSON(text)],
    identical in server.js and in index.js. *)
Definition tryParseJSON (text : string) : completion value :=
  try_catch (JSON.parse text) (fun _err =>
    (* Attempt to extract JSON substring *)
    let start := Str.indexOf text "{" in
    let end_ := Str.lastIndexOf text "}" in
    if negb (start =? -1)%Z && negb (end_ =? -1)%Z && (start <? end_)%Z then
      let substr := Str.slice text start (end_ + 1) in
      try_catch (JSON.parse substr) (fun _e => Ok JNull)
    else Ok JNull).

(* ===================================================================== *)
(** ** The world of a request handler *)
(* ===================================================================== *)

(** What reading a file finds: it is absent, unreadable for another
    reason, or holds a text.  Whether it can be written is a separate
    matter ([write_error] below). *)
Inductive file : Type :=
| NoEntry
| Denied
| Text (content : string).

(** What a handler can touch: the files, the failure a write to a path
    meets (none when it can be written), the generation backend (the reply
    or failure of [callGemini] for a prompt; the reply is a text as a
    rule, but the adapters can return any value they find in the
    backend's answer, or [undefined]), and the log of the prompts handed
    to the backend so far. *)
Record World : Type := mkWorld {
  fs : string -> file;
  write_error : string -> option exn;
  gemini : string -> completion value;
  calls : list string
}.

(** An [async] function: it reads and changes the world and fulfils with a
    value or rejects with an exception. *)
Definition M (A : Type) : Type := World -> completion A * World.

Definition mret {A} (a : A) : M A := fun w => (Ok a, w).

Definition mthrow {A} (e : exn) : M A := fun w => (Throw e, w).

Definition mbind {A B} (m : M A) (k : A -> M B) : M B :=
  fun w =>
    match m w with
    | (Ok a, w') => k a w'
    | (Throw e, w') => (Throw e, w')
    end.

Definition mtry {A} (m : M A) (h : exn -> M A) : M A :=
  fun w =>
    match m w with
    | (Ok a, w') => (Ok a, w')
    | (Throw e, w') => h e w'
    end.

Definition lift {A} (c : completion A) : M A := fun w => (c, w).

Notation "x <~ c ;; k" := (mbind c (fun x => k))
  (at level 61, c at next level, right associativity) : js_scope.

(** [await fs.readFile(path, 'utf-8')] *)
Definition readFile (path : string) : M string :=
  fun w =>
    match fs w path with
    | Text content => (Ok content, w)
    | NoEntry => (Throw (SystemError "ENOENT" "no such file or directory"), w)
    | Denied => (Throw (SystemError "EACCES" "permission denied"), w)
    end.

(** [await fs.writeFile(path, content, 'utf-8')] *)
Definition writeFile (path content : string) : M unit :=
  fun w =>
    match write_error w path with
    | Some err => (Throw err, w)
    | None =>
        (Ok tt,
         mkWorld (fun p => if String.eqb p path then Text content else fs w p)
                 (write_error w) (gemini w) (calls w))
    end.

(** [await callGemini(prompt)]: one call of the backend adapter. *)
Definition callGemini (prompt : string) : M value :=
  fun w =>
    (gemini w prompt,
     mkWorld (fs w) (write_error w) (gemini w) (calls w ++ [prompt])).

(** [db[url]]: the key is [ToPropertyKey(url)]. *)
Definition Get_computed (o key : value) : completion value :=
  match o with
  | JUndefined | JNull => Get o ""
  | _ => k <- ToString key ;; Get o k
  end.

Fixpoint set_nth (i : nat) (v : value) (l : list value) : list value :=
  match i, l with
  | O, [] => [v]
  | O, _ :: r => v :: r
  | S k, [] => JUndefined :: set_nth k v []
  | S k, x :: r => x :: set_nth k v r
  end.

(** [db[url] = title] in module (strict) code, as far as a later
    [JSON.stringify(db)] can see it.  Assigning to [__proto__] and giving
    an array a named member leave the own entries as they were; assigning
    to the [length] of an array is not modelled and is reported as the
    [RangeError] it raises for a title that is no length. *)
Definition Set_computed (o key v : value) : completion value :=
  match o with
  | JUndefined | JNull => Throw (TypeError "Cannot set properties of undefined or null")
  | JBool _ | JNum _ | JStr _ | JNative _ =>
      Throw (TypeError "Cannot create property on a primitive value")
  | JObj fields =>
      k <- ToString key ;;
      Ok (if String.eqb k "__proto__" then o else JObj (obj_set fields k v))
  | JArr l =>
      k <- ToString key ;;
      if String.eqb k "length" then Throw (RangeError "Invalid array length")
      else match array_index k with
           | Some i => Ok (JArr (set_nth (N.to_nat i) v l))
           | None => Ok o
           end
  end.

(** [err.message || fallback] *)
Definition message_or (e : exn) (fallback : string) : value :=
  js_or (JStr (exn_message e)) (JStr fallback).

(** [a?.key] *)
Definition Get_optional (o : value) (key : string) : completion value :=
  match o with
  | JUndefined | JNull => Ok JUndefined
  | _ => Get o key
  end.

(** [v === 'text'] *)
Definition is_string (v : value) (text : string) : bool :=
  match v with
  | JStr s => String.eqb s text
  | _ => false
  end.

(** [Array.prototype.indexOf(c)], [lastIndexOf(c)] and [slice(from, to)]:
    the search compares with [===]. *)
Fixpoint array_indexOf (l : list value) (c : string) : Z :=
  match l with
  | [] => -1
  | x :: r =>
      if is_string x c then 0
      else let i := array_indexOf r c in if (i <? 0)%Z then -1 else (i + 1)%Z
  end.

Fixpoint array_lastIndexOf (l : list value) (c : string) : Z :=
  match l with
  | [] => -1
  | x :: r =>
      let i := array_lastIndexOf r c in
      if (0 <=? i)%Z then (i + 1)%Z
      else if is_string x c then 0 else -1
  end.

Definition array_slice (l : list value) (from to : Z) : list value :=
  let n := Z.of_nat (List.length l) in
  let lo := if (from <? 0)%Z then Z.max (n + from) 0 else Z.min from n in
  let hi := if (to <? 0)%Z then Z.max (n + to) 0 else Z.min to n in
  firstn (Z.to_nat (hi - lo)) (skipn (Z.to_nat lo) l).

(** [text.indexOf(c)], [text.lastIndexOf(c)] and [text.slice(from, to)] for
    a [text] that need not be a string: strings and arrays have the three
    methods, no other value has them. *)
Definition no_method (text : value) (name : string) : exn :=
  match text with
  | JUndefined =>
      TypeError ("Cannot read properties of undefined (reading '" ++ name ++ "')")
  | JNull =>
      TypeError ("Cannot read properties of null (reading '" ++ name ++ "')")
  | _ => TypeError ("text." ++ name ++ " is not a function")
  end.

Definition call_indexOf (text : value) (c : ascii) : completion Z :=
  match text with
  | JStr s => Ok (Str.indexOf s c)
  | JArr l => Ok (array_indexOf l (String c ""))
  | _ => Throw (no_method text "indexOf")
  end.

Definition call_lastIndexOf (text : value) (c : ascii) : completion Z :=
  match text with
  | JStr s => Ok (Str.lastIndexOf s c)
  | JArr l => Ok (array_lastIndexOf l (String c ""))
  | _ => Throw (no_method text "lastIndexOf")
  end.

Definition call_slice (text : value) (from to : Z) : completion value :=
  match text with
  | JStr s => Ok (JStr (Str.slice s from to))
  | JArr l => Ok (JArr (array_slice l from to))
  | _ => Throw (no_method text "slice")
  end.

(** [JSON.parse(text)]: the argument is converted to a string first. *)
Definition JSON_parse (text : value) : completion value :=
  s <- ToString text ;; JSON.parse s.

(** [tryParseJSON(text)] as the routes call it, on the reply of the
    backend, which need not be a string.  On a string it is
    [tryParseJSON]; on [undefined] or an object the search in the [catch]
    throws. *)
Definition tryParseJSON_any (text : value) : completion value :=
  try_catch (JSON_parse text) (fun _err =>
    start <- call_indexOf text "{" ;;
    end_ <- call_lastIndexOf text "}" ;;
    if negb (start =? -1)%Z && negb (end_ =? -1)%Z && (start <? end_)%Z then
      substr <- call_slice text start (end_ + 1) ;;
      try_catch (JSON_parse substr) (fun _e => Ok JNull)
    else Ok JNull).

(* ===================================================================== *)
(** ** server/server.js: the Express routes *)
(* ===================================================================== *)

Module Express.

Definition VIDEO_DB : string := "server/videoDetails.json".

(** [res.status(code).json(body)]; [res.json(body)] answers 200. *)
Record response : Type := mkResponse { status : Z; json : value }.

Definition readVideoDB : M value :=
  mtry (raw <~ readFile VIDEO_DB ;; lift (JSON.parse raw))
       (fun err =>
          match exn_code err with
          | Some code => if String.eqb code "ENOENT" then mret (JObj []) else mthrow err
          | None => mthrow err
          end).

Definition writeVideoDB (db : value) : M unit :=
  match JSON_stringify db "  " with
  | JStr text => writeFile VIDEO_DB text
  | _ => mthrow (TypeError "The data argument must be of type string")
  end.

(** [app.get('/api/video-title')], on [req.query.url]. *)
Definition get_video_title (url : value) : M response :=
  if negb (ToBoolean url)
  then mret (mkResponse 400 (JObj [("error", JStr "Missing url parameter")]))
  else
    mtry (db <~ readVideoDB ;;
          t <~ lift (Get_computed db url) ;;
          let title := js_or t JNull in
          mret (mkResponse 200 (JObj [("url", url); ("title", title)])))
         (fun _err =>
            mret (mkResponse 500 (JObj [("error", JStr "Failed to read video DB")]))).

(** [app.post('/api/video-title')], on [req.body]. *)
Definition post_video_title (body : value) : M response :=
  url <~ lift (Get body "url") ;;
  title <~ lift (Get body "title") ;;
  if negb (ToBoolean url) || negb (ToBoolean title)
  then mret (mkResponse 400 (JObj [("error", JStr "url and title required")]))
  else
    mtry (db <~ readVideoDB ;;
          db' <~ lift (Set_computed db url title) ;;
          _ <~ writeVideoDB db' ;;
          mret (mkResponse 200 (JObj [("ok", JBool true); ("url", url); ("title", title)])))
         (fun _err =>
            mret (mkResponse 500 (JObj [("error", JStr "Failed to write video DB")]))).

Definition evaluation_failed (err : exn) : M response :=
  mret (mkResponse 500 (JObj [("error", message_or err "Evaluation failed")])).

(** What both evaluation routes do with the reply [raw] of the backend
    (lines 150-158 and 177-182): attempt to parse JSON; if we couldn't
    parse, return the raw text alone. *)
Definition relay (raw : value) : M response :=
  parsed <~ lift (tryParseJSON_any raw) ;;
  if ToBoolean parsed
  then mret (mkResponse 200
               (JObj [("ok", JBool true); ("raw", raw); ("parsed", parsed)]))
  else mret (mkResponse 200 (JObj [("ok", JBool true); ("raw", raw)])).

(** The same for a reply that is a text. *)
Definition respond (raw : string) : M response := relay (JStr raw).

(** [app.post('/api/evaluate-metric')], on [req.body]. *)
Definition evaluate_metric (body : value) : M response :=
  mtry (url <~ lift (Get body "url") ;;
        videoType <~ lift (Get body "videoType") ;;
        purpose <~ lift (Get body "purpose") ;;
        keyConcepts <~ lift (Get body "keyConcepts") ;;
        justifications <~ lift (Get body "justifications") ;;
        goal <~ lift (Get body "goal") ;;
        metric <~ lift (Get body "metric") ;;
        if negb (ToBoolean url) || negb (ToBoolean metric)
        then mret (mkResponse 400 (JObj [("error", JStr "Missing url or metric")]))
        else
          db <~ readVideoDB ;;
          t <~ lift (Get_computed db url) ;;
          let title := js_or t (JStr "Unknown Title") in
          let details :=
            JObj [("url", url); ("videoType", videoType); ("purpose", purpose);
                  ("keyConcepts", keyConcepts); ("justifications", justifications);
                  ("goal", goal); ("title", title)] in
          prompt <~ lift (constructPrompt details [metric]) ;;
          raw <~ callGemini prompt ;;
          relay raw)
       evaluation_failed.

(** [app.post('/api/evaluate-all')], on [req.body]. *)
Definition evaluate_all (body : value) : M response :=
  mtry (url <~ lift (Get body "url") ;;
        videoType <~ lift (Get body "videoType") ;;
        purpose <~ lift (Get body "purpose") ;;
        keyConcepts <~ lift (Get body "keyConcepts") ;;
        justifications <~ lift (Get body "justifications") ;;
        goal <~ lift (Get body "goal") ;;
        if negb (ToBoolean url)
        then mret (mkResponse 400 (JObj [("error", JStr "Missing url")]))
        else
          db <~ readVideoDB ;;
          t <~ lift (Get_computed db url) ;;
          let title := js_or t (JStr "Unknown Title") in
          let details :=
            JObj [("url", url); ("videoType", videoType); ("purpose", purpose);
                  ("keyConcepts", keyConcepts); ("justifications", justifications);
                  ("goal", goal); ("title", title)] in
          prompt <~ lift (constructPrompt details (map JStr METRICS)) ;;
          raw <~ callGemini prompt ;;
          relay raw)
       evaluation_failed.

End Express.

(* ===================================================================== *)
(** ** amplify/functions/evaluator/index.js: the Lambda handler *)
(* ===================================================================== *)

Module Lambda.

Definition VIDEO_DB_BUNDLED : string := "amplify/functions/evaluator/videoDetails.json".
Definition VIDEO_DB_TMP : string := "/tmp/videoDetails.json".

(** Prefer ephemeral tmp write if exists (written during runtime),
    fallback to bundled file. *)
Definition readVideoDB : M value :=
  mtry (tmp <~ readFile VIDEO_DB_TMP ;; lift (JSON.parse tmp))
       (fun _e =>
          mtry (raw <~ readFile VIDEO_DB_BUNDLED ;; lift (JSON.parse raw))
               (fun _err => mret (JObj []))).

Definition writeVideoDB (db : value) : M unit :=
  match JSON_stringify db "  " with
  | JStr text => writeFile VIDEO_DB_TMP text
  | _ => mthrow (TypeError "The data argument must be of type string")
  end.

Definition buildResponse (statusCode : Z) (body : value) : value :=
  JObj [("statusCode", JNum (num_of_Z statusCode));
        ("headers", JObj [("Content-Type", JStr "application/json")]);
        ("body", JSON_stringify body "")].

(** [path.startsWith(prefix)] *)
Definition startsWith (path : value) (prefix : string) : completion bool :=
  match path with
  | JStr p => Ok (Str.startsWith prefix p)
  | _ => Throw (TypeError "path.startsWith is not a function")
  end.

(** [JSON.parse(event.body || '{}')] *)
Definition parse_body (event : value) : completion value :=
  b <- Get event "body" ;;
  text <- ToString (js_or b (JStr "{}")) ;;
  JSON.parse text.

Definition video_title_get (event : value) : M value :=
  q <~ lift (Get event "queryStringParameters") ;;
  url <~ lift (Get_optional q "url") ;;
  if negb (ToBoolean url)
  then mret (buildResponse 400 (JObj [("error", JStr "Missing url param")]))
  else
    db <~ readVideoDB ;;
    t <~ lift (Get_computed db url) ;;
    mret (buildResponse 200 (JObj [("url", url); ("title", js_or t JNull)])).

Definition video_title_post (event : value) : M value :=
  body <~ lift (parse_body event) ;;
  url <~ lift (Get body "url") ;;
  title <~ lift (Get body "title") ;;
  if negb (ToBoolean url) || negb (ToBoolean title)
  then mret (buildResponse 400 (JObj [("error", JStr "url and title required")]))
  else
    db <~ readVideoDB ;;
    db' <~ lift (Set_computed db url title) ;;
    _ <~ writeVideoDB db' ;;
    mret (buildResponse 200 (JObj [("ok", JBool true); ("url", url); ("title", title)])).

(** What both evaluation branches do with the reply [raw] of the
    backend (lines 127-128 and 140-141). *)
Definition relay (raw : value) : M value :=
  parsed <~ lift (tryParseJSON_any raw) ;;
  mret (buildResponse 200
          (JObj [("ok", JBool true); ("raw", raw); ("parsed", parsed)])).

(** The same for a reply that is a text. *)
Definition respond (raw : string) : M value := relay (JStr raw).

Definition evaluate_metric (event : value) : M value :=
  body <~ lift (parse_body event) ;;
  url <~ lift (Get body "url") ;;
  videoType <~ lift (Get body "videoType") ;;
  purpose <~ lift (Get body "purpose") ;;
  keyConcepts <~ lift (Get body "keyConcepts") ;;
  justifications <~ lift (Get body "justifications") ;;
  goal <~ lift (Get body "goal") ;;
  metric <~ lift (Get body "metric") ;;
  if negb (ToBoolean url) || negb (ToBoolean metric)
  then mret (buildResponse 400 (JObj [("error", JStr "Missing url or metric")]))
  else
    db <~ readVideoDB ;;
    t <~ lift (Get_computed db url) ;;
    let title := js_or t (JStr "Unknown Title") in
    let details :=
      JObj [("url", url); ("videoType", videoType); ("purpose", purpose);
            ("keyConcepts", keyConcepts); ("justifications", justifications);
            ("goal", goal); ("title", title)] in
    prompt <~ lift (constructPrompt details [metric]) ;;
    raw <~ callGemini prompt ;;
    relay raw.

Definition evaluate_all (event : value) : M value :=
  body <~ lift (parse_body event) ;;
  url <~ lift (Get body "url") ;;
  videoType <~ lift (Get body "videoType") ;;
  purpose <~ lift (Get body "purpose") ;;
  keyConcepts <~ lift (Get body "keyConcepts") ;;
  justifications <~ lift (Get body "justifications") ;;
  goal <~ lift (Get body "goal") ;;
  if negb (ToBoolean url)
  then mret (buildResponse 400 (JObj [("error", JStr "Missing url")]))
  else
    db <~ readVideoDB ;;
    t <~ lift (Get_computed db url) ;;
    let title := js_or t (JStr "Unknown Title") in
    let details :=
      JObj [("url", url); ("videoType", videoType); ("purpose", purpose);
            ("keyConcepts", keyConcepts); ("justifications", justifications);
            ("goal", goal); ("title", title)] in
    prompt <~ lift (constructPrompt details (map JStr METRICS)) ;;
    raw <~ callGemini prompt ;;
    relay raw.

(** The [catch] of the handler (lines 145-148). *)
Definition internal_error (err : exn) : M value :=
  mret (buildResponse 500 (JObj [("error", message_or err "Internal error")])).

(** [handler(event)]: the four routes are tried in the order of the
    source; an exception inside the [try] answers 500. *)
Definition handler (event : value) : M value :=
  p <~ lift (Get event "path") ;;
  let path := js_or p (JStr "/") in
  m <~ lift (Get event "httpMethod") ;;
  method <~ (if ToBoolean m then mret m
             else rc <~ lift (Get event "requestContext") ;;
                  http <~ lift (Get_optional rc "http") ;;
                  m2 <~ lift (Get_optional http "method") ;;
                  mret (js_or m2 (JStr "GET"))) ;;
  mtry (b1 <~ lift (startsWith path "/video-title") ;;
        if b1 && is_string method "GET" then video_title_get event else
        b2 <~ lift (startsWith path "/video-title") ;;
        if b2 && is_string method "POST" then video_title_post event else
        b3 <~ lift (startsWith path "/evaluate-metric") ;;
        if b3 && is_string method "POST" then evaluate_metric event else
        b4 <~ lift (startsWith path "/evaluate-all") ;;
        if b4 && is_string method "POST" then evaluate_all event else
        mret (buildResponse 404 (JObj [("error", JStr "Not found")])))
       internal_error.

End Lambda.

(* ===================================================================== *)
(** ** public/script.js: what the page shows for a reply *)
(* ===================================================================== *)

Module Client.

(** The assignment a render function ends with: [el.textContent = v] or
    [el.innerHTML = v]. *)
Inductive shown : Type :=
| TextContent (v : value)
| InnerHTML (v : value).

(** [recv.includes(metric)]: a substring test on a string, a membership
    test on an array; nothing else has the method. *)
Definition includes (recv : value) (metric : string) : completion value :=
  match recv with
  | JStr s => Ok (JBool (Str.includes s metric))
  | JArr l => Ok (JBool (existsb (fun x => is_string x metric) l))
  | _ => Throw (TypeError "includes is not a function")
  end.

(** [x => x.metric && x.metric.includes(metric)] *)
Definition matches (metric : string) (x : value) : completion value :=
  xm <- Get x "metric" ;;
  if ToBoolean xm then includes xm metric else Ok xm.

(** [Array.prototype.find]: the first element the callback accepts, or
    [undefined]. *)
Fixpoint find (pred : value -> completion value) (l : list value) : completion value :=
  match l with
  | [] => Ok JUndefined
  | x :: r =>
      b <- pred x ;;
      if ToBoolean b then Ok x else find pred r
  end.

(** [recv.find(pred)] on a value that need not be an array. *)
Definition call_find (recv : value) (pred : value -> completion value)
  : completion value :=
  match recv with
  | JArr l => find pred l
  | _ => Throw (TypeError "find is not a function")
  end.

(** [payload.raw || JSON.stringify(v, null, 2)] *)
Definition raw_or_text (payload v : value) : completion value :=
  raw <- Get payload "raw" ;;
  Ok (js_or raw (JSON_stringify v "  ")).

(** The entry [renderMetricResult] looks for in [payload.parsed]. *)
Definition find_metric (metric : string) (p : value) : completion value :=
  if isArray p then call_find p (matches metric)
  else
    m <- matches metric p ;;
    if ToBoolean m then Ok p
    else
      results <- Get p "results" ;;
      if ToBoolean results then call_find results (matches metric)
      else
        metrics <- Get p "metrics" ;;
        if isArray metrics then call_find metrics (matches metric)
        else Ok JNull.

Definition renderMetricResult (metric : string) (payload : value) : completion shown :=
  if negb (ToBoolean payload) then Ok (TextContent (JStr "No response"))
  else
    p <- Get payload "parsed" ;;
    found <- (if ToBoolean p then find_metric metric p else Ok JNull) ;;
    if ToBoolean p && ToBoolean found then
      score <- field found "score" ;;
      feedback <- field found "feedback" ;;
      Ok (InnerHTML (JStr ("<h3>" ++ metric ++ "</h3>Score: <strong>" ++ score
                           ++ "</strong>" ++ LF ++ LF ++ "Feedback:" ++ LF ++ feedback)))
    else
      (* Fallback: show raw *)
      v <- raw_or_text payload payload ;;
      Ok (TextContent v).

(** [v => v && v.metric && v.score] *)
Definition metric_like (v : value) : completion value :=
  if negb (ToBoolean v) then Ok v
  else
    m <- Get v "metric" ;;
    if negb (ToBoolean m) then Ok m else Get v "score".

(** [Array.prototype.filter] *)
Fixpoint filter (pred : value -> completion value) (l : list value)
  : completion (list value) :=
  match l with
  | [] => Ok []
  | x :: r =>
      b <- pred x ;;
      rest <- filter pred r ;;
      Ok (if ToBoolean b then x :: rest else rest)
  end.

(** The [metricsArr] of [renderAllResults]. *)
Definition metricsArr (parsed : value) : completion value :=
  if isArray parsed then Ok parsed
  else
    metrics <- Get parsed "metrics" ;;
    if ToBoolean metrics then Ok metrics
    else
      results <- Get parsed "results" ;;
      if ToBoolean results then Ok results
      else
        (* try to find metric-like props *)
        vals <- Object_values parsed ;;
        kept <- filter metric_like vals ;;
        Ok (JArr kept).

(** [`<h3>${m.metric}</h3><strong>Score: ${m.score}</strong><div>${m.feedback}</div><hr>`] *)
Definition score_block (m : value) : completion string :=
  metric <- field m "metric" ;;
  score <- field m "score" ;;
  feedback <- field m "feedback" ;;
  Ok ("<h3>" ++ metric ++ "</h3><strong>Score: " ++ score ++ "</strong><div>"
      ++ feedback ++ "</div><hr>").

(** [arr.forEach(m => { html += ... })], with [html] empty before. *)
Definition score_blocks (arr : value) : completion string :=
  match arr with
  | JArr l => blocks <- mapM score_block l ;; Ok (String.concat "" blocks)
  | _ => Throw (TypeError "metricsArr.forEach is not a function")
  end.

(** [`<li>${s}</li>`] *)
Definition list_item (s : value) : completion string :=
  t <- ToString s ;; Ok ("<li>" ++ t ++ "</li>").

(** [parsed.common_improvements.map(s => `<li>${s}</li>`).join('')] *)
Definition list_items (ci : value) : completion string :=
  match ci with
  | JArr l => items <- mapM list_item l ;; Ok (Str.join "" items)
  | _ => Throw (TypeError "parsed.common_improvements.map is not a function")
  end.

Definition renderAllResults (payload : value) : completion shown :=
  if negb (ToBoolean payload) then Ok (TextContent (JStr "No response"))
  else
    parsed <- Get payload "parsed" ;;
    if ToBoolean parsed then
      arr <- metricsArr parsed ;;
      len <- Get arr "length" ;;
      html1 <- (if ToBoolean len then
                  blocks <- score_blocks arr ;;
                  Ok (dq "<div class='all-scores'>" ++ blocks ++ "</div>")
                else Ok "") ;;
      ci <- Get parsed "common_improvements" ;;
      html2 <- (if ToBoolean ci then
                  items <- list_items ci ;;
                  Ok (html1 ++ "<h3>Common Improvement Suggestions</h3><ul>"
                      ++ items ++ "</ul>")
                else Ok html1) ;;
      if String.eqb html2 "" then
        v <- raw_or_text payload parsed ;;
        Ok (InnerHTML v)
      else Ok (InnerHTML (JStr html2))
    else
      v <- raw_or_text payload payload ;;
      Ok (TextContent v).

End Client.

(* ===================================================================== *)
(** ** Vocabulary of the specification *)
(* ===================================================================== *)

(** [lacks c s]: the character [c] does not occur in [s]. *)
Fixpoint lacks (c : ascii) (s : string) : bool :=
  match s with
  | EmptyString => true
  | String a r => negb (Ascii.eqb a c) && lacks c r
  end.

(** An evaluation request: [url] is required, the other fields are
    free-form text and optional, the title is resolved separately. *)
Record request : Type := mkRequest {
  r_url : string;
  r_title : option string;
  r_videoType : option string;
  r_purpose : option string;
  r_keyConcepts : option string;
  r_justifications : option string;
  r_goal : option string
}.

Definition optional (o : option string) : value :=
  match o with
  | Some s => JStr s
  | None => JUndefined
  end.

(** The [details] object the routes build for a request. *)
Definition details_of (r : request) : value :=
  JObj [("url", JStr (r_url r)); ("videoType", optional (r_videoType r));
        ("purpose", optional (r_purpose r)); ("keyConcepts", optional (r_keyConcepts r));
        ("justifications", optional (r_justifications r)); ("goal", optional (r_goal r));
        ("title", optional (r_title r))].

(** How an optional text shows in the prompt: an absent one as the word
    [undefined]. *)
Definition shown_text (o : option string) : string :=
  match o with
  | Some s => s
  | None => "undefined"
  end.

Definition shown_title (o : option string) : string :=
  match o with
  | Some s => if String.eqb s "" then "Unknown Title" else s
  | None => "Unknown Title"
  end.

Definition labeled (label text : string) : string := label ++ ": " ++ text.

(** The block of labeled lines, in the order url, title, videoType,
    purpose, keyConcepts, justifications, goal. *)
Definition labeled_lines (r : request) : list string :=
  [ labeled "Video URL" (r_url r);
    labeled "Title" (shown_title (r_title r));
    labeled "Video Type" (shown_text (r_videoType r));
    labeled "Purpose" (shown_text (r_purpose r));
    labeled "Key Concepts" (shown_text (r_keyConcepts r));
    labeled "Justifications" (shown_text (r_justifications r));
    labeled "Evaluation Goal" (shown_text (r_goal r)) ].

(** The numeral a list position is printed with. *)
Definition numeral (n : N) : string := Num.toString (num_of_Z (Z.of_N n)).

(** The names numbered consecutively from [start], one line each. *)
Fixpoint numbered (start : N) (names : list string) : list string :=
  match names with
  | [] => []
  | m :: rest => (numeral start ++ ". " ++ m) :: numbered (N.succ start) rest
  end.

(** [line] stands on a line of its own in the text [p]. *)
Definition own_line (line p : string) : Prop :=
  exists pre post, p = pre ++ LF ++ line ++ LF ++ post.

(** A field of the request body is missing when reading it gives a falsy
    value ([undefined] for an absent key). *)
Definition missing (body : value) (key : string) : Prop :=
  exists v, Get body key = Ok v /\ ToBoolean v = false.

(** One entry of the documented reply: a metric name, a score, a feedback
    text. *)
Record entry : Type := mkEntry {
  e_metric : string;
  e_score : number;
  e_feedback : string
}.

Definition entry_value (e : entry) : value :=
  JObj [("metric", JStr (e_metric e)); ("score", JNum (e_score e));
        ("feedback", JStr (e_feedback e))].

(** The test a reply entry passes for a requested metric name: it has a
    name, and the requested name occurs in it. *)
Definition names_metric (requested : string) (e : entry) : bool :=
  negb (String.eqb (e_metric e) "") && Str.includes (e_metric e) requested.

(** Where the documented reply keeps its entries: the reply is the list
    itself, or an object with the list under [metrics], with the list
    under [results], or with one entry per key. *)
Inductive placement : Type :=
| Bare
| UnderMetrics
| UnderResults
| Keyed (keys : list string).

(** The documented reply: the list of entries, or a JSON object with the
    entries and, last, the field [common_improvements] with a list of
    suggestions. *)
Record document : Type := mkDocument {
  d_placement : placement;
  d_entries : list entry;
  d_improvements : option (list string)
}.

Definition entries_fields (d : document) : list (string * value) :=
  match d_placement d with
  | Bare => []
  | UnderMetrics => [("metrics", JArr (map entry_value (d_entries d)))]
  | UnderResults => [("results", JArr (map entry_value (d_entries d)))]
  | Keyed keys => combine keys (map entry_value (d_entries d))
  end.

Definition improvements_fields (d : document) : list (string * value) :=
  match d_improvements d with
  | Some l => [("common_improvements", JArr (map JStr l))]
  | None => []
  end.

Definition doc_value (d : document) : value :=
  match d_placement d with
  | Bare => JArr (map entry_value (d_entries d))
  | _ => JObj (entries_fields d ++ improvements_fields d)
  end.

Definition reserved_key (k : string) : bool :=
  String.eqb k "metrics" || String.eqb k "results" || String.eqb k "common_improvements".

(** An entry as the prompt documents it: a name, and a score from 1 to
    10. *)
Definition well_formed (e : entry) : Prop :=
  e_metric e <> "" /\ Num.between 1 10 (e_score e) = true.

(** The documented reply: every entry is well formed; a bare list has no
    place for suggestions; in the keyed placement there are as many keys
    as entries and no key is one of the conventional field names. *)
Definition documented (d : document) : Prop :=
  Forall well_formed (d_entries d) /\
  match d_placement d with
  | Bare => d_improvements d = None
  | Keyed keys =>
      List.length keys = List.length (d_entries d) /\
      Forall (fun k => reserved_key k = false) keys
  | _ => True
  end.

(** A score written with at most 15 significant digits: the double it is
    read as prints back as the same digits. *)
Definition short_score (e : entry) : Prop :=
  (Z.abs (mant (e_score e)) < 10 ^ 15)%Z.

(** The page for a list of entries and suggestions. *)
Definition entry_html (e : entry) : string :=
  "<h3>" ++ e_metric e ++ "</h3><strong>Score: " ++ Num.toString (e_score e)
  ++ "</strong><div>" ++ e_feedback e ++ "</div><hr>".

Definition entries_html (es : list entry) : string :=
  match es with
  | [] => ""
  | _ => dq "<div class='all-scores'>" ++ String.concat "" (map entry_html es) ++ "</div>"
  end.

Definition improvements_html (o : option (list string)) : string :=
  match o with
  | Some l =>
      "<h3>Common Improvement Suggestions</h3><ul>"
      ++ String.concat "" (map (fun s => "<li>" ++ s ++ "</li>") l) ++ "</ul>"
  | None => ""
  end.

(** The reply object a route hands to the client for the reply [raw]. *)
Definition payload_of (raw : string) (parsed : value) : value :=
  JObj [("ok", JBool true); ("raw", JStr raw); ("parsed", parsed)].

(** The reply and the entry of the single-metric example. *)
Definition example_reply : string :=
  dq "{'metric':'Clarity of problem articulation (partial)','score':7,'feedback':'Good but rushed.'}".

Definition example_entry : entry :=
  mkEntry "Clarity of problem articulation (partial)" (mkNum 7 0) "Good but rushed.".

(** A handler leaves every file as it found it. *)
Definition preserves_files {A} (m : M A) : Prop :=
  forall w, fs (snd (m w)) = fs w.

(** A world with no stored titles whose backend answers every prompt with
    [raw]. *)
Definition backend_replying (raw : string) : World :=
  mkWorld (fun _ => NoEntry) (fun _ => None) (fun _ => Ok (JStr raw)) [].

(** A reply in the documented shape, and the document it is the text of. *)
Definition sample_reply : string :=
  dq "{'metrics':[{'metric':'Pacing and speed of narration','score':8,'feedback':'Slow down a little.'},{'metric':'Reasoning transparency','score':6.5,'feedback':'Explain why.'}],'common_improvements':['Add a summary','Shorter sentences']}".

Definition sample_document : document :=
  mkDocument UnderMetrics
    [ mkEntry "Pacing and speed of narration" (mkNum 8 0) "Slow down a little.";
      mkEntry "Reasoning transparency" (mkNum 65 (-1)) "Explain why." ]
    (Some ["Add a summary"; "Shorter sentences"]).

(** The same entries, one per key. *)
Definition keyed_reply : string :=
  dq "{'pacing':{'metric':'Pacing and speed of narration','score':8,'feedback':'Slow down a little.'},'reasoning':{'metric':'Reasoning transparency','score':6.5,'feedback':'Explain why.'}}".

Definition keyed_document : document :=
  mkDocument (Keyed ["pacing"; "reasoning"]) (d_entries sample_document) None.

(** The same entries as a bare list. *)
Definition bare_reply : string :=
  dq "[{'metric':'Pacing and speed of narration','score':8,'feedback':'Slow down a little.'},{'metric':'Reasoning transparency','score':6.5,'feedback':'Explain why.'}]".

Definition bare_document : document :=
  mkDocument Bare (d_entries sample_document) None.

(** The single-metric request of the end-to-end example, and its body. *)
Definition example_request : request :=
  mkRequest "v1" None (Some "tutorial") (Some "teach X") None None None.

Definition example_body : value :=
  JObj [("url", JStr "v1"); ("videoType", JStr "tutorial"); ("purpose", JStr "teach X");
        ("metric", JStr "Pacing and speed of narration")].

(** The text a route sends for the reply object [payload], read back by the
    client's [resp.json()]. *)
Definition transported (payload : value) : completion value :=
  match JSON_stringify payload "" with
  | JStr text => JSON.parse text
  | _ => Throw (TypeError "no JSON text")
  end.

(* ===================================================================== *)
(** ** Vocabulary for the rest of the code *)
(* ===================================================================== *)

(** The JSON value a file holds, when it holds one. *)
Definition file_json (f : file) : option value :=
  match f with
  | Text content =>
      match JSON.parse content with
      | Ok v => Some v
      | Throw _ => None
      end
  | NoEntry | Denied => None
  end.

(** The world after one call of the backend with [prompt]. *)
Definition called (w : World) (prompt : string) : World :=
  mkWorld (fs w) (write_error w) (gemini w) (calls w ++ [prompt]).

(** Why the title store cannot be read by the Express server, if it cannot:
    the file is there but unreadable, or its text is not JSON.  An absent
    file is an empty store. *)
Definition read_error (f : file) : option exn :=
  match f with
  | NoEntry => None
  | Denied => Some (SystemError "EACCES" "permission denied")
  | Text content =>
      match JSON.parse content with
      | Ok _ => None
      | Throw e => Some e
      end
  end.

(** A world without files whose backend fails with [e]. *)
Definition backend_failing (e : exn) : World :=
  mkWorld (fun _ => NoEntry) (fun _ => None) (fun _ => Throw e) [].

(** A world without files whose backend returns [raw], which need not be
    a text. *)
Definition backend_returning (raw : value) : World :=
  mkWorld (fun _ => NoEntry) (fun _ => None) (fun _ => Ok raw) [].

(** The world [w] with every write refused: what is there can be read,
    nothing can be written. *)
Definition write_protected (w : World) : World :=
  mkWorld (fs w) (fun _ => Some (SystemError "EROFS" "read-only file system"))
          (gemini w) (calls w).

(** A world whose files are all unreadable. *)
Definition locked_files : World :=
  mkWorld (fun _ => Denied)
          (fun _ => Some (SystemError "EACCES" "permission denied"))
          (fun _ => Ok (JStr "{}")) [].

(** The route the Lambda handler takes for a request with the path [path]
    and the method [method] (lines 101, 108, 118 and 131, in this
    order). *)
Inductive route : Type :=
| TitleGet
| TitlePost
| EvaluateMetric
| EvaluateAll
| NotFound.

Definition route_of (path method : string) : route :=
  if Str.startsWith "/video-title" path && String.eqb method "GET" then TitleGet
  else if Str.startsWith "/video-title" path && String.eqb method "POST" then TitlePost
  else if Str.startsWith "/evaluate-metric" path && String.eqb method "POST" then EvaluateMetric
  else if Str.startsWith "/evaluate-all" path && String.eqb method "POST" then EvaluateAll
  else NotFound.

(** An event of the REST API gateway for [path] and [method], with the
    text [body]. *)
Definition gateway_event (path method : string) (body : value) : value :=
  JObj [("path", JStr path); ("httpMethod", JStr method); ("body", body)].

(** A title store: an object whose values are all strings. *)
Definition title_store (fields : list (string * value)) : bool :=
  forallb (fun kv => match snd kv with JStr _ => true | _ => false end) fields.

(** The line [JSON.stringify(db, null, 2)] writes for one stored title. *)
Definition title_line (kv : string * value) : string :=
  Stringify.quote (fst kv) ++ ": "
  ++ match snd kv with
     | JStr title => Stringify.quote title
     | _ => "null"
     end.

(** The object [JSON.parse] builds from the members [fields], read in this
    order. *)
Definition parsed_members (fields : list (string * value)) : list (string * value) :=
  fold_left (fun acc kv => obj_set acc (fst kv) (snd kv)) fields [].

(** The entries the all-metrics view keeps of a reply that has one entry
    per key: those with a name and a score that is not zero. *)
Definition kept (e : entry) : bool :=
  negb (String.eqb (e_metric e) "") && negb (Num.rounds_to_zero (e_score e)).

(* ===================================================================== *)
(** ** public/script.js: the handlers of the page *)
(* ===================================================================== *)

Module Page.

(** White space and line terminators of ECMAScript, as UTF-8: the
    one-byte ones, U+00A0, and the three-byte ones (U+1680,
    U+2000..U+200A, U+2028, U+2029, U+202F, U+205F, U+3000, U+FEFF). *)
Definition is_ws1 (c : ascii) : bool :=
  match nat_of_ascii c with
  | 9%nat | 10%nat | 11%nat | 12%nat | 13%nat | 32%nat => true
  | _ => false
  end.

Definition is_ws2 (c1 c2 : ascii) : bool :=
  ((nat_of_ascii c1 =? 194) && (nat_of_ascii c2 =? 160))%nat.

Definition is_ws3 (c1 c2 c3 : ascii) : bool :=
  let n1 := nat_of_ascii c1 in
  let n2 := nat_of_ascii c2 in
  let n3 := nat_of_ascii c3 in
  ((n1 =? 225) && (n2 =? 154) && (n3 =? 128)
   || (n1 =? 226) && (n2 =? 128)
      && ((128 <=? n3) && (n3 <=? 138) || (n3 =? 168) || (n3 =? 169) || (n3 =? 175))
   || (n1 =? 226) && (n2 =? 129) && (n3 =? 159)
   || (n1 =? 227) && (n2 =? 128) && (n3 =? 128)
   || (n1 =? 239) && (n2 =? 187) && (n3 =? 191))%nat.

Fixpoint trimStart (s : list ascii) : list ascii :=
  match s with
  | [] => []
  | c1 :: t1 =>
      if is_ws1 c1 then trimStart t1
      else match t1 with
           | [] => s
           | c2 :: t2 =>
               if is_ws2 c1 c2 then trimStart t2
               else match t2 with
                    | [] => s
                    | c3 :: t3 => if is_ws3 c1 c2 c3 then trimStart t3 else s
                    end
           end
  end.

(** The same from the end, on the reversed text. *)
Fixpoint trimEnd_rev (r : list ascii) : list ascii :=
  match r with
  | [] => []
  | c1 :: t1 =>
      if is_ws1 c1 then trimEnd_rev t1
      else match t1 with
           | [] => r
           | c2 :: t2 =>
               if is_ws2 c2 c1 then trimEnd_rev t2
               else match t2 with
                    | [] => r
                    | c3 :: t3 => if is_ws3 c3 c2 c1 then trimEnd_rev t3 else r
                    end
           end
  end.

(** [String.prototype.trim] *)
Definition trim (s : string) : string :=
  string_of_list_ascii
    (rev (trimEnd_rev (rev (trimStart (list_ascii_of_string s))))).

(** [encodeURIComponent] on well-formed UTF-8 text, where it does not
    throw: every byte but the unreserved marks, letters and digits is
    written [%XX]. *)
Definition unreserved (c : ascii) : bool :=
  let n := nat_of_ascii c in
  ((65 <=? n) && (n <=? 90) || (97 <=? n) && (n <=? 122) || (48 <=? n) && (n <=? 57)
   || (n =? 45) || (n =? 95) || (n =? 46) || (n =? 33) || (n =? 126) || (n =? 42)
   || (n =? 39) || (n =? 40) || (n =? 41))%nat.

Definition HEX (n : nat) : ascii :=
  if (n <? 10)%nat then ascii_of_nat (48 + n) else ascii_of_nat (55 + n).

Fixpoint encodeURIComponent (s : string) : string :=
  match s with
  | EmptyString => EmptyString
  | String c r =>
      (if unreserved c then String c ""
       else String "%" (String (HEX (nat_of_ascii c / 16))
                          (String (HEX (nat_of_ascii c mod 16)) "")))
      ++ encodeURIComponent r
  end.

(** A request of the page: [fetch(path, { method, body })]. *)
Record call : Type := mkCall {
  c_method : string;
  c_path : string;
  c_body : option string
}.

(** The server as the page sees it: what [await resp.json()] gives for a
    request, or the failure of the [fetch] or of reading the reply. *)
Definition server : Type := call -> completion value.

(** The page: the values of the inputs, the last assignment to
    [#resultsContent], the buttons that are disabled, the alerts shown and
    the requests sent so far. *)
Record page : Type := mkPage {
  url : string;
  videoType : string;
  purpose : string;
  keyConcepts : string;
  justifications : string;
  goal : string;
  titleInput : string;
  resultsContent : Client.shown;
  disabled : string -> bool;
  alerts : list string;
  sent : list call
}.

Definition alert (message : string) (pg : page) : page :=
  mkPage (url pg) (videoType pg) (purpose pg) (keyConcepts pg) (justifications pg)
         (goal pg) (titleInput pg) (resultsContent pg) (disabled pg)
         (alerts pg ++ [message]) (sent pg).

Definition show (s : Client.shown) (pg : page) : page :=
  mkPage (url pg) (videoType pg) (purpose pg) (keyConcepts pg) (justifications pg)
         (goal pg) (titleInput pg) s (disabled pg) (alerts pg) (sent pg).

Definition set_disabled (btn : string) (state : bool) (pg : page) : page :=
  mkPage (url pg) (videoType pg) (purpose pg) (keyConcepts pg) (justifications pg)
         (goal pg) (titleInput pg) (resultsContent pg)
         (fun b => if String.eqb b btn then state else disabled pg b)
         (alerts pg) (sent pg).

Definition set_titleInput (text : string) (pg : page) : page :=
  mkPage (url pg) (videoType pg) (purpose pg) (keyConcepts pg) (justifications pg)
         (goal pg) text (resultsContent pg) (disabled pg) (alerts pg) (sent pg).

Definition fetch (c : call) (pg : page) : page :=
  mkPage (url pg) (videoType pg) (purpose pg) (keyConcepts pg) (justifications pg)
         (goal pg) (titleInput pg) (resultsContent pg) (disabled pg) (alerts pg)
         (sent pg ++ [c]).

(** [createMetricButtons]: one button per metric, labeled
    [`${idx + 1}. ${m}`]; a click evaluates the metric. *)
Fixpoint buttons_from (idx : N) (metrics : list string) : list (string * string) :=
  match metrics with
  | [] => []
  | m :: rest =>
      (Num.toString (num_of_Z (Z.of_N idx + 1)) ++ ". " ++ m, m)
        :: buttons_from (N.succ idx) rest
  end.

Definition createMetricButtons : list (string * string) := buttons_from 0 METRICS.

(** [readForm()], as the object it returns. *)
Definition readForm (pg : page) : list (string * value) :=
  [("url", JStr (trim (url pg)));
   ("videoType", JStr (videoType pg));
   ("purpose", JStr (trim (purpose pg)));
   ("keyConcepts", JStr (trim (keyConcepts pg)));
   ("justifications", JStr (trim (justifications pg)));
   ("goal", JStr (trim (goal pg)))].

(** [setLoading(state, text)] *)
Definition setLoading (state : bool) (text : string) (pg : page) : page :=
  if state then show (Client.InnerHTML (JStr ("<em>" ++ text ++ "</em>"))) pg else pg.

(** [JSON.stringify(v)] of an object, as the text of a request body. *)
Definition body_text (v : value) : option string :=
  match JSON_stringify v "" with
  | JStr text => Some text
  | _ => None
  end.

(** The [catch] of every handler:
    [$('resultsContent').textContent = 'Error: ' + err.message]. *)
Definition show_error (err : exn) (pg : page) : page :=
  show (Client.TextContent (JStr ("Error: " ++ exn_message err))) pg.

(** [try { json = await (await fetch(...)).json(); render(json) }
     catch (err) { ... }] *)
Definition request (srv : server) (c : call) (render : value -> completion (page -> page))
    (pg : page) : page :=
  let pg1 := fetch c pg in
  match bind (srv c) render with
  | Ok update => update pg1
  | Throw err => show_error err pg1
  end.

Definition evaluateMetric (srv : server) (metric btn : string) (pg : page) : page :=
  let data := readForm pg in
  if String.eqb (trim (url pg)) "" then alert "Please enter a YouTube URL" pg
  else
    let pg1 := setLoading true ("Evaluating: " ++ metric) pg in
    let pg2 := set_disabled btn true pg1 in
    let pg3 :=
      request srv
        (mkCall "POST" "/api/evaluate-metric"
           (body_text (JObj (data ++ [("metric", JStr metric)]))))
        (fun json => bind (Client.renderMetricResult metric json) (fun s => Ok (show s)))
        pg2 in
    set_disabled btn false pg3.

Definition evaluateAll (srv : server) (pg : page) : page :=
  let data := readForm pg in
  if String.eqb (trim (url pg)) "" then alert "Please enter a YouTube URL" pg
  else
    let pg1 := setLoading true "Evaluating all metrics (this may take a while)..." pg in
    let pg2 := set_disabled "evaluateAllBtn" true pg1 in
    let pg3 :=
      request srv
        (mkCall "POST" "/api/evaluate-all" (body_text (JObj data)))
        (fun json => bind (Client.renderAllResults json) (fun s => Ok (show s)))
        pg2 in
    set_disabled "evaluateAllBtn" false pg3.

Definition fetchStoredTitle (srv : server) (pg : page) : page :=
  let u := trim (url pg) in
  if String.eqb u "" then alert "Enter URL first" pg
  else
    let pg1 := setLoading true "Fetching stored title..." pg in
    request srv
      (mkCall "GET" ("/api/video-title?url=" ++ encodeURIComponent u) None)
      (fun json =>
         bind (Get json "title") (fun title =>
         if ToBoolean title then
           bind (ToString title) (fun text =>
           Ok (fun p => show (Client.TextContent (JStr ("Found title: " ++ text)))
                             (set_titleInput text p)))
         else Ok (show (Client.TextContent (JStr "No stored title for this URL.")))))
      pg1.

Definition saveTitle (srv : server) (pg : page) : page :=
  let u := trim (url pg) in
  let title := trim (titleInput pg) in
  if String.eqb u "" || String.eqb title "" then alert "URL and title required" pg
  else
    let pg1 := setLoading true "Saving title..." pg in
    request srv
      (mkCall "POST" "/api/video-title"
         (body_text (JObj [("url", JStr u); ("title", JStr title)])))
      (fun json =>
         bind (Get json "ok") (fun ok =>
         if ToBoolean ok
         then Ok (show (Client.TextContent (JStr ("Saved title for " ++ u))))
         else
           bind (ToString (JSON_stringify json "")) (fun text =>
           Ok (show (Client.TextContent (JStr ("Save failed: " ++ text)))))))
      pg1.

End Page.

(** An object of texts, booleans and [null]s: the request bodies of the
    page and the replies of the title routes. *)
Definition plain (fields : list (string * value)) : bool :=
  forallb (fun kv => match snd kv with
                     | JStr _ | JBool _ | JNull => true
                     | _ => false
                     end) fields.

(** The member [JSON.stringify(data)] writes for one field of a plain
    object. *)
Definition text_member (kv : string * value) : string :=
  Stringify.quote (fst kv) ++ ":"
  ++ match snd kv with
     | JStr text => Stringify.quote text
     | JBool true => "true"
     | JBool false => "false"
     | _ => "null"
     end.

(** The inverse of [encodeURIComponent] on what it writes. *)
Fixpoint decodeURIComponent (s : string) : string :=
  match s with
  | EmptyString => EmptyString
  | String c t1 =>
      if Ascii.eqb c "%" then
        match t1 with
        | String h1 (String h2 t3) =>
            match JSON.hex_val h1, JSON.hex_val h2 with
            | Some x, Some y => String (ascii_of_N (x * 16 + y)) (decodeURIComponent t3)
            | _, _ => String c t1
            end
        | _ => String c t1
        end
      else String c (decodeURIComponent t1)
  end.

(** What the page reads of the reply of an Express route run in the world
    [w]: the JSON of the response, sent as text and parsed by
    [resp.json()]. *)
Definition answered (route : M Express.response) (w : World) : completion value :=
  match fst (route w) with
  | Ok r => transported (Express.json r)
  | Throw e => Throw e
  end.

(* ===================================================================== *)
(** ** server/geminiClient.js and the Lambda's geminiClient.js *)
(* ===================================================================== *)

Module Gemini.

(** What the adapter can see of a class of an SDK: constructing a client
    and calling its method with the prompt gives a result or throws. *)
Definition sdk_call : Type := string -> completion value.

(** The export [Generative] of a module, when it is there (truthy): not a
    function; a class whose constructor throws; a class whose clients have
    no [generateText]; a class whose clients have one. *)
Inductive generative : Type :=
| NotAFunction
| NewThrows (e : exn)
| NoGenerateText
| GenerateText (call : sdk_call).

(** A module, as far as the adapter looks at it; [None] is an export that
    is absent (falsy). *)
Record module : Type := mkModule {
  TextServiceClient : option sdk_call;
  TextsClient : option sdk_call;
  Generative : option generative
}.

(** The reply to the REST request: [resp.ok], [resp.status] and the
    outcome of reading the body. *)
Record response : Type := mkResponse {
  ok : bool;
  status : Z;
  text : completion string
}.

(** The environment of a call: [process.env.GEMINI_API_KEY], the modules
    that can be imported, and the REST endpoint, from the [Authorization]
    header and the body to the response or the failure of [fetch]. *)
Record env : Type := mkEnv {
  apiKey : option string;
  import : string -> option module;
  endpoint : string -> string -> completion response
}.

(** What a call of the adapter did, in order. *)
Inductive event : Type :=
| Imported (name : string)
| Called (name : string) (class : string)
| Fetched (authorization : string) (body : string).

Definition sdkCandidates : list string :=
  ["@google-ai/generative"; "@google/generative-ai"; "@google/generative"].

(** The result of the body of the inner [try] for one module: a value
    to return, or nothing, after the events [log]. *)
Definition attempt : Type := option value * list event.

Definition use (name class : string) (call : sdk_call) (prompt : string) : attempt :=
  match call prompt with
  | Ok res => (Some (JSON_stringify res ""), [Called name class])
  | Throw _ => (None, [Called name class])
  end.

(** server/geminiClient.js, lines 25-50: [TextServiceClient], then
    [Generative] when it is a function, then [TextsClient]. *)
Definition server_attempt (name : string) (m : module) (prompt : string) : attempt :=
  match TextServiceClient m with
  | Some call => use name "TextServiceClient" call prompt
  | None =>
      let texts :=
        match TextsClient m with
        | Some call => use name "TextsClient" call prompt
        | None => (None, [])
        end in
      match Generative m with
      | Some (GenerateText call) => use name "Generative" call prompt
      | Some (NewThrows _) => (None, [Called name "Generative"])
      | Some NoGenerateText =>
          (fst texts, Called name "Generative" :: snd texts)
      | Some NotAFunction | None => texts
      end
  end.

(** The Lambda's geminiClient.js, lines 19-39: [TextServiceClient], then
    [TextsClient], then [Generative]. *)
Definition lambda_attempt (name : string) (m : module) (prompt : string) : attempt :=
  match TextServiceClient m with
  | Some call => use name "TextServiceClient" call prompt
  | None =>
      match TextsClient m with
      | Some call => use name "TextsClient" call prompt
      | None =>
          match Generative m with
          | Some (GenerateText call) => use name "Generative" call prompt
          | Some _ => (None, [Called name "Generative"])
          | None => (None, [])
          end
      end
  end.

(** [for (const name of sdkCandidates) { ... }] *)
Fixpoint try_sdks (try_module : string -> module -> string -> attempt)
    (e : env) (names : list string) (prompt : string) : attempt :=
  match names with
  | [] => (None, [])
  | name :: rest =>
      let '(found, log) :=
        match import e name with
        | Some m => try_module name m prompt
        | None => (None, [])
        end in
      match found with
      | Some v => (Some v, Imported name :: log)
      | None =>
          let '(later, log') := try_sdks try_module e rest prompt in
          (later, Imported name :: (log ++ log')%list)
      end
  end.

(** [data.output && Array.isArray(data.output) && data.output[0]?.content] *)
Definition output_content (output : value) : completion value :=
  if ToBoolean output && isArray output
  then first <- Get output "0" ;; Get_optional first "content"
  else Ok (JBool false).

(** [data.choices && data.choices[0]?.message?.content] *)
Definition choice_content (choices : value) : completion value :=
  if ToBoolean choices
  then first <- Get choices "0" ;;
       message <- Get_optional first "message" ;;
       Get_optional message "content"
  else Ok choices.

(** The last four lines of both adapters: the text of the reply [data]. *)
Definition reply_text (data : value) : completion value :=
  output <- Get data "output" ;;
  if ToBoolean output && (match output with JStr _ => true | _ => false end)
  then Ok output
  else
    content <- output_content output ;;
    if ToBoolean content then Ok content
    else
      choices <- Get data "choices" ;;
      content' <- choice_content choices ;;
      if ToBoolean content' then Ok content'
      else Ok (JSON_stringify data "").

(** The REST fallback. *)
Definition rest (e : env) (key prompt : string) : completion value * list event :=
  let body :=
    match JSON_stringify
            (JObj [("prompt", JStr prompt);
                   ("maxOutputTokens", JNum (num_of_Z 800));
                   ("temperature", JNum (mkNum 2 (-1)))]) "" with
    | JStr t => t
    | _ => ""
    end in
  let authorization := "Bearer " ++ key in
  (match endpoint e authorization body with
   | Throw err => Throw err
   | Ok resp =>
       if negb (ok resp) then
         t <- text resp ;;
         Throw (Error ("Gemini API error " ++ Num.toString (num_of_Z (status resp))
                       ++ ": " ++ t))
       else
         t <- text resp ;;
         data <- JSON.parse t ;;
         reply_text data
   end,
   [Fetched authorization body]).

Definition adapter (missing_key : string)
    (try_module : string -> module -> string -> attempt)
    (e : env) (prompt : string) : completion value * list event :=
  match apiKey e with
  | None => (Throw (Error missing_key), [])
  | Some key =>
      if String.eqb key "" then (Throw (Error missing_key), [])
      else
        let '(found, log) := try_sdks try_module e sdkCandidates prompt in
        match found with
        | Some v => (Ok v, log)
        | None =>
            let '(result, log') := rest e key prompt in
            (result, (log ++ log')%list)
        end
  end.

(** [callGemini(prompt)] of server/geminiClient.js. *)
Definition callGemini : env -> string -> completion value * list event :=
  adapter "GEMINI_API_KEY not set in environment" server_attempt.

(** [callGemini(prompt)] of amplify/functions/evaluator/geminiClient.js. *)
Definition callGemini_lambda : env -> string -> completion value * list event :=
  adapter "GEMINI_API_KEY not set in environment variables" lambda_attempt.

End Gemini.

(** Every SDK call the adapters can make on the module [m] throws. *)
Definition failing (m : Gemini.module) (prompt : string) : Prop :=
  (forall call, Gemini.TextServiceClient m = Some call -> exists err, call prompt = Throw err) /\
  (forall call, Gemini.TextsClient m = Some call -> exists err, call prompt = Throw err) /\
  (forall call, Gemini.Generative m = Some (Gemini.GenerateText call) ->
                exists err, call prompt = Throw err).

(** The two adapters try the classes of [m] in the same order: it does not
    export both [TextsClient] and [Generative] without
    [TextServiceClient]. *)
Definition same_order (m : Gemini.module) : Prop :=
  Gemini.TextServiceClient m <> None \/ Gemini.TextsClient m = None \/ Gemini.Generative m = None.

(** An environment with the key [key], no SDK installed, and an endpoint
    that answers every request with [resp]. *)
Definition rest_only (key : string) (resp : Gemini.response) : Gemini.env :=
  Gemini.mkEnv (Some key) (fun _ => None) (fun _ _ => Ok resp).

(** A module that exports both [TextsClient] and [Generative], each
    answering with its own name, in an environment with the key [k]. *)
Definition two_classes : Gemini.env :=
  Gemini.mkEnv (Some "k")
    (fun _ => Some (Gemini.mkModule None
                      (Some (fun _ => Ok (JStr "TextsClient")))
                      (Some (Gemini.GenerateText (fun _ => Ok (JStr "Generative"))))))
    (fun _ _ => Throw (Error "offline")).

(* ===================================================================== *)
(** ** Worked inputs *)
(* ===================================================================== *)

(** A world whose Express title store holds one title. *)
Definition titled_world : World :=
  mkWorld (fun p => if String.eqb p Express.VIDEO_DB
                    then Text (dq "{'v1':'Intro to X'}") else NoEntry)
          (fun _ => None) (fun _ => Ok (JStr "{}")) [].

Definition title_body : value :=
  JObj [("url", JStr "v1"); ("title", JStr "Intro to X")].

(** The event of [GET /video-title?url=...]. *)
Definition title_query (url : string) : value :=
  JObj [("path", JStr "/video-title"); ("httpMethod", JStr "GET");
        ("queryStringParameters", JObj [("url", JStr url)])].

(** A page with the form filled in, and one with a blank url. *)
Definition filled_page : Page.page :=
  Page.mkPage " v1 " "tutorial" "teach X" "" "" "" " Intro to X"
    (Client.TextContent (JStr "")) (fun _ => false) [] [].

Definition blank_page : Page.page :=
  Page.mkPage "   " "tutorial" "teach X" "" "" "" ""
    (Client.TextContent (JStr "")) (fun _ => false) [] [].

(** A server that cannot be reached. *)
Definition offline : Page.server := fun _ => Throw (Error "Failed to fetch").

(** The Express title routes, as the page reaches them in the world [w]:
    a request with a body saves, one without reads the title of [v1]. *)
Definition title_server (w : World) : Page.server :=
  fun c =>
    match Page.c_body c with
    | Some text =>
        match JSON.parse text with
        | Ok body => answered (Express.post_video_title body) w
        | Throw e => Throw e
        end
    | None => answered (Express.get_video_title (JStr "v1")) w
    end.

(** The reply of the endpoint to a request over quota. *)
Definition over_quota : Gemini.response :=
  Gemini.mkResponse false 429 (Ok "quota exceeded").

(* ===================================================================== *)
(** ** JSON.parse terminates within its fuel *)
(* ===================================================================== *)

Module JSONFacts.
Import JSON.

Lemma skip_ws_length s : (List.length (skip_ws s) <= List.length s)%nat.
Proof.
  induction s as [|c r IH]; simpl; [lia|].
  destruct (is_ws c); simpl; lia.
Qed.

Lemma strip_prefix_length p : forall s r,
  strip_prefix p s = Some r -> (List.length r + List.length p = List.length s)%nat.
Proof.
  induction p as [|a p IH]; intros s r H; simpl in *.
  - injection H as <-. lia.
  - destruct s as [|b s]; [discriminate|].
    destruct (Ascii.eqb a b); [|discriminate].
    apply IH in H. simpl. lia.
Qed.

Lemma next_is_length c s r :
  next_is c s = Some r -> (List.length r < List.length s)%nat.
Proof.
  unfold next_is. pose proof (skip_ws_length s) as Hs.
  destruct (skip_ws s) as [|x t]; [discriminate|].
  destruct (Ascii.eqb x c); [|discriminate].
  intros [= <-]. simpl in Hs. lia.
Qed.

Lemma take_digits_length s : forall ds r,
  take_digits s = (ds, r) -> (List.length ds + List.length r = List.length s)%nat.
Proof.
  induction s as [|c t IH]; intros ds r H; simpl in H.
  - injection H as <- <-. reflexivity.
  - destruct (is_digit c).
    + destruct (take_digits t) as [ds' r'] eqn:E.
      injection H as <- <-. specialize (IH _ _ eq_refl). simpl. lia.
    + injection H as <- <-. reflexivity.
Qed.

Lemma parse_fraction_length s fp r :
  parse_fraction s = Some (fp, r) -> (List.length r <= List.length s)%nat.
Proof.
  unfold parse_fraction.
  destruct (strip_prefix ["."%char] s) as [t|] eqn:E.
  - apply strip_prefix_length in E.
    destruct (take_digits t) as [ds r'] eqn:D.
    apply take_digits_length in D.
    destruct ds; [discriminate|]. intros [= <- <-]. simpl in *. lia.
  - intros [= <- <-]. lia.
Qed.

Lemma exponent_digits_length neg s e r :
  exponent_digits neg s = Some (e, r) -> (List.length r <= List.length s)%nat.
Proof.
  unfold exponent_digits.
  destruct (take_digits s) as [ds r'] eqn:D.
  apply take_digits_length in D.
  destruct ds; [discriminate|]. intros [= _ <-]. lia.
Qed.

Lemma parse_exponent_length s e r :
  parse_exponent s = Some (e, r) -> (List.length r <= List.length s)%nat.
Proof.
  unfold parse_exponent.
  destruct s as [|c t]; [intros [= _ <-]; lia|].
  destruct (Ascii.eqb c "e" || Ascii.eqb c "E").
  - destruct (strip_prefix ["+"%char] t) as [u|] eqn:E1.
    + apply strip_prefix_length in E1. intros H.
      apply exponent_digits_length in H. simpl in *. lia.
    + destruct (strip_prefix ["-"%char] t) as [u|] eqn:E2.
      * apply strip_prefix_length in E2. intros H.
        apply exponent_digits_length in H. simpl in *. lia.
      * intros H. apply exponent_digits_length in H. simpl. lia.
  - intros [= _ <-]. lia.
Qed.

Lemma parse_number_length s n r :
  parse_number s = Some (n, r) -> (List.length r < List.length s)%nat.
Proof.
  unfold parse_number.
  destruct (strip_prefix ["-"%char] s) as [t|] eqn:E.
  - apply strip_prefix_length in E. simpl in E.
    destruct t as [|d r0]; [discriminate|].
    destruct (is_digit d) eqn:Hd; [|discriminate].
    destruct (Ascii.eqb d "0").
    + destruct (parse_fraction r0) as [[fp s3]|] eqn:F; [|discriminate].
      apply parse_fraction_length in F.
      destruct (parse_exponent s3) as [[ex s4]|] eqn:X; [|discriminate].
      apply parse_exponent_length in X. intros [= _ <-]. simpl in *. lia.
    + destruct (take_digits (d :: r0)) as [ip s2] eqn:T.
      apply take_digits_length in T.
      destruct (parse_fraction s2) as [[fp s3]|] eqn:F; [|discriminate].
      apply parse_fraction_length in F.
      destruct (parse_exponent s3) as [[ex s4]|] eqn:X; [|discriminate].
      apply parse_exponent_length in X. intros [= _ <-]. simpl in *. lia.
  - destruct s as [|d r0]; [discriminate|].
    destruct (is_digit d) eqn:Hd; [|discriminate].
    destruct (Ascii.eqb d "0").
    + destruct (parse_fraction r0) as [[fp s3]|] eqn:F; [|discriminate].
      apply parse_fraction_length in F.
      destruct (parse_exponent s3) as [[ex s4]|] eqn:X; [|discriminate].
      apply parse_exponent_length in X. intros [= _ <-]. simpl in *. lia.
    + destruct (take_digits (d :: r0)) as [ip s2] eqn:T.
      pose proof T as T'. apply take_digits_length in T.
      simpl in T'. rewrite Hd in T'.
      destruct (take_digits r0) as [ds' r'] eqn:T2. injection T' as <- <-.
      destruct (parse_fraction r') as [[fp s3]|] eqn:F; [|discriminate].
      apply parse_fraction_length in F.
      destruct (parse_exponent s3) as [[ex s4]|] eqn:X; [|discriminate].
      apply parse_exponent_length in X. intros [= _ <-]. simpl in *. lia.
Qed.

Lemma parse_chars_length : forall n s acc str r,
  (List.length s <= n)%nat ->
  parse_chars s acc = Some (str, r) -> (List.length r < List.length s)%nat.
Proof.
  induction n as [|n IH]; intros s acc str r Hn H.
  - destruct s; [discriminate | simpl in Hn; lia].
  - destruct s as [|c t]; [discriminate|].
    simpl in Hn. cbn [parse_chars] in H.
    destruct (Ascii.eqb c dquote).
    { injection H as _ <-. simpl. lia. }
    destruct (Ascii.eqb c backslash).
    2:{ destruct (nat_of_ascii c <? 32)%nat; [discriminate|].
        apply IH in H; [simpl; lia | lia]. }
    destruct t as [|e r1]; [discriminate|].
    destruct (simple_escape e).
    { apply IH in H; simpl in *; lia. }
    destruct (Ascii.eqb e "u"); [|discriminate].
    destruct r1 as [|h1 [|h2 [|h3 [|h4 r2]]]]; try discriminate.
    destruct (hex4 h1 h2 h3 h4) as [hi|]; [|discriminate].
    assert (Hsingle : forall a, parse_chars r2 a = Some (str, r) ->
                                (List.length r < List.length (c :: e :: h1 :: h2 :: h3 :: h4 :: r2))%nat).
    { intros a Ha. apply IH in Ha; simpl in *; lia. }
    destruct (is_high hi); [|eauto].
    destruct r2 as [|b [|u [|g1 [|g2 [|g3 [|g4 r3]]]]]]; eauto.
    destruct (Ascii.eqb b backslash && Ascii.eqb u "u"); eauto.
    destruct (hex4 g1 g2 g3 g4) as [lo|]; eauto.
    destruct (is_low lo); eauto.
    apply IH in H; simpl in *; lia.
Qed.

Lemma parse_scalar_length s v r :
  parse_scalar s = POk v r -> (List.length r < List.length s)%nat.
Proof.
  unfold parse_scalar.
  destruct (strip_prefix (chars "null") s) eqn:E1.
  { apply strip_prefix_length in E1. intros [= _ <-]. simpl in E1. lia. }
  destruct (strip_prefix (chars "true") s) eqn:E2.
  { apply strip_prefix_length in E2. intros [= _ <-]. simpl in E2. lia. }
  destruct (strip_prefix (chars "false") s) eqn:E3.
  { apply strip_prefix_length in E3. intros [= _ <-]. simpl in E3. lia. }
  destruct (parse_number s) as [[n rest]|] eqn:E4; [|discriminate].
  apply parse_number_length in E4. intros [= _ <-]. exact E4.
Qed.

Lemma parse_scalar_fuel s : parse_scalar s <> PFuel.
Proof.
  unfold parse_scalar.
  repeat match goal with
         | |- context [match ?x with _ => _ end] => destruct x
         end; discriminate.
Qed.

(** Every parser consumes input. *)
Lemma parse_consumes : forall f,
  (forall s v r, parse_value f s = POk v r -> (List.length r < List.length s)%nat) /\
  (forall s acc v r, parse_elements f s acc = POk v r -> (List.length r < List.length s)%nat) /\
  (forall s acc v r, parse_members f s acc = POk v r -> (List.length r < List.length s)%nat).
Proof.
  induction f as [|f (IHv & IHe & IHm)].
  - repeat split; intros; discriminate.
  - repeat split.
    + intros s v r H. cbn [parse_value] in H.
      pose proof (skip_ws_length s) as Hs.
      destruct (skip_ws s) as [|c t]; [discriminate|]. simpl in Hs.
      destruct (Ascii.eqb c "[").
      { destruct (next_is "]" t) eqn:N.
        - apply next_is_length in N. injection H as _ <-. lia.
        - apply IHe in H. lia. }
      destruct (Ascii.eqb c "{").
      { destruct (next_is "}" t) eqn:N.
        - apply next_is_length in N. injection H as _ <-. lia.
        - apply IHm in H. lia. }
      destruct (Ascii.eqb c dquote).
      { destruct (parse_chars t []) as [[str rest]|] eqn:C; [|discriminate].
        apply (parse_chars_length _ _ _ _ _ (le_n _)) in C.
        injection H as _ <-. lia. }
      apply parse_scalar_length in H. simpl in H. lia.
    + intros s acc v r H. cbn [parse_elements] in H.
      destruct (parse_value f s) as [v1 r1| |] eqn:V; try discriminate.
      apply IHv in V.
      destruct (next_is "," r1) eqn:N1.
      { apply next_is_length in N1. apply IHe in H. lia. }
      destruct (next_is "]" r1) eqn:N2; [|discriminate].
      apply next_is_length in N2. injection H as _ <-. lia.
    + intros s acc v r H. cbn [parse_members] in H.
      destruct (next_is dquote s) as [r0|] eqn:N0; [|discriminate].
      apply next_is_length in N0.
      destruct (parse_chars r0 []) as [[key r1]|] eqn:C; [|discriminate].
      apply (parse_chars_length _ _ _ _ _ (le_n _)) in C.
      destruct (next_is ":" r1) as [r2|] eqn:N1; [|discriminate].
      apply next_is_length in N1.
      destruct (parse_value f r2) as [v1 r3| |] eqn:V; try discriminate.
      apply IHv in V.
      destruct (next_is "," r3) eqn:N2.
      { apply next_is_length in N2. apply IHm in H. lia. }
      destruct (next_is "}" r3) eqn:N3; [|discriminate].
      apply next_is_length in N3. injection H as _ <-. lia.
Qed.

(** With fuel above twice the length of the input the parsers never run
    out of it. *)
Lemma parse_fuel : forall f,
  (forall s, (2 * List.length s + 2 <= f)%nat -> parse_value f s <> PFuel) /\
  (forall s acc, (2 * List.length s + 3 <= f)%nat -> parse_elements f s acc <> PFuel) /\
  (forall s acc, (2 * List.length s + 3 <= f)%nat -> parse_members f s acc <> PFuel).
Proof.
  induction f as [|f (IHv & IHe & IHm)].
  - repeat split; intros; lia.
  - destruct (parse_consumes f) as (Cv & Ce & Cm).
    repeat split.
    + intros s Hf. cbn [parse_value].
      pose proof (skip_ws_length s) as Hs.
      destruct (skip_ws s) as [|c t]; [discriminate|]. simpl in Hs.
      destruct (Ascii.eqb c "[").
      { destruct (next_is "]" t); [discriminate|]. apply IHe. lia. }
      destruct (Ascii.eqb c "{").
      { destruct (next_is "}" t); [discriminate|]. apply IHm. lia. }
      destruct (Ascii.eqb c dquote).
      { destruct (parse_chars t []) as [[str rest]|]; discriminate. }
      apply parse_scalar_fuel.
    + intros s acc Hf. cbn [parse_elements].
      destruct (parse_value f s) as [v1 r1| |] eqn:V; try discriminate.
      * apply Cv in V.
        destruct (next_is "," r1) eqn:N1.
        { apply next_is_length in N1. apply IHe. lia. }
        destruct (next_is "]" r1); discriminate.
      * exfalso. revert V. apply IHv. lia.
    + intros s acc Hf. cbn [parse_members].
      destruct (next_is dquote s) as [r0|] eqn:N0; [|discriminate].
      apply next_is_length in N0.
      destruct (parse_chars r0 []) as [[key r1]|] eqn:C; [|discriminate].
      apply (parse_chars_length _ _ _ _ _ (le_n _)) in C.
      destruct (next_is ":" r1) as [r2|] eqn:N1; [|discriminate].
      apply next_is_length in N1.
      destruct (parse_value f r2) as [v1 r3| |] eqn:V; try discriminate.
      * apply Cv in V.
        destruct (next_is "," r3) eqn:N2.
        { apply next_is_length in N2. apply IHm. lia. }
        destruct (next_is "}" r3); discriminate.
      * exfalso. revert V. apply IHv. lia.
Qed.

Lemma parse_value_fuel (text : string) :
  let s := list_ascii_of_string text in
  parse_value (2 * List.length s + 2) s <> PFuel.
Proof. intros s. apply parse_fuel. lia. Qed.

End JSONFacts.

(* ===================================================================== *)
(** ** Strings: search and slicing *)
(* ===================================================================== *)

Lemma append_assoc (a b c : string) : (a ++ b) ++ c = a ++ (b ++ c).
Proof. induction a as [|x a IH]; simpl; [reflexivity | now rewrite IH]. Qed.

Lemma append_nil_r (a : string) : a ++ "" = a.
Proof. induction a as [|x a IH]; simpl; [reflexivity | now rewrite IH]. Qed.

Lemma length_append (a b : string) :
  String.length (a ++ b) = (String.length a + String.length b)%nat.
Proof. induction a as [|x a IH]; simpl; [reflexivity | now rewrite IH]. Qed.

Lemma len_append (a b : string) : Str.len (a ++ b) = (Str.len a + Str.len b)%Z.
Proof. unfold Str.len. rewrite length_append. lia. Qed.

Lemma len_nonneg (a : string) : (0 <= Str.len a)%Z.
Proof. unfold Str.len. lia. Qed.

Lemma len_cons c (a : string) : Str.len (String c a) = (Str.len a + 1)%Z.
Proof. unfold Str.len. simpl. lia. Qed.

Lemma indexOf_range s c : (-1 <= Str.indexOf s c)%Z.
Proof.
  induction s as [|a s IH]; simpl; [lia|].
  destruct (Ascii.eqb a c); [lia|].
  destruct (Z.ltb_spec (Str.indexOf s c) 0); lia.
Qed.

Lemma indexOf_lacks s c : lacks c s = true -> Str.indexOf s c = (-1)%Z.
Proof.
  induction s as [|a s IH]; simpl; [reflexivity|].
  intros H. apply andb_prop in H as [Ha Hs].
  apply negb_true_iff in Ha. rewrite Ha, (IH Hs). reflexivity.
Qed.

Lemma indexOf_app pre c rest :
  lacks c pre = true -> Str.indexOf (pre ++ String c rest) c = Str.len pre.
Proof.
  induction pre as [|a pre IH]; simpl.
  - intros _. now rewrite Ascii.eqb_refl.
  - intros H. apply andb_prop in H as [Ha Hs].
    apply negb_true_iff in Ha. rewrite Ha, (IH Hs), len_cons.
    pose proof (len_nonneg pre).
    destruct (Z.ltb_spec (Str.len pre) 0); lia.
Qed.

Lemma indexOf_found s c :
  (0 <= Str.indexOf s c)%Z ->
  exists pre rest, s = pre ++ String c rest /\ lacks c pre = true
                   /\ Str.len pre = Str.indexOf s c.
Proof.
  induction s as [|a s IH]; simpl; [lia|].
  destruct (Ascii.eqb_spec a c) as [->|Hne].
  - intros _. exists "", s. repeat split.
  - destruct (Z.ltb_spec (Str.indexOf s c) 0) as [Hlt|Hge]; [lia|].
    intros _. destruct (IH Hge) as (pre & rest & -> & Hl & Hlen).
    exists (String a pre), rest. simpl. repeat split.
    + apply andb_true_intro. split; [|exact Hl].
      apply negb_true_iff. now apply Ascii.eqb_neq.
    + rewrite len_cons. lia.
Qed.

Lemma lastIndexOf_lacks s c : lacks c s = true -> Str.lastIndexOf s c = (-1)%Z.
Proof.
  induction s as [|a s IH]; simpl; [reflexivity|].
  intros H. apply andb_prop in H as [Ha Hs].
  apply negb_true_iff in Ha. rewrite Ha, (IH Hs). reflexivity.
Qed.

Lemma lastIndexOf_app s c post :
  lacks c post = true -> Str.lastIndexOf (s ++ String c post) c = Str.len s.
Proof.
  intros Hp. induction s as [|a s IH]; simpl.
  - rewrite (lastIndexOf_lacks _ _ Hp), Ascii.eqb_refl. reflexivity.
  - rewrite IH, len_cons. pose proof (len_nonneg s).
    destruct (Z.leb_spec 0 (Str.len s)); lia.
Qed.

Lemma lastIndexOf_found s c :
  (0 <= Str.lastIndexOf s c)%Z ->
  exists front post, s = front ++ String c post /\ lacks c post = true
                     /\ Str.len front = Str.lastIndexOf s c.
Proof.
  induction s as [|a s IH]; simpl; [lia|].
  destruct (Z.leb_spec 0 (Str.lastIndexOf s c)) as [Hge|Hlt].
  - intros _. destruct (IH Hge) as (front & post & -> & Hl & Hlen).
    exists (String a front), post. simpl. repeat split; [exact Hl|].
    rewrite len_cons. lia.
  - destruct (Ascii.eqb_spec a c) as [->|Hne]; [|lia].
    intros _. exists "", s. repeat split.
    clear IH. induction s as [|b s IHs]; [reflexivity|].
    simpl in Hlt |- *.
    destruct (Z.leb_spec 0 (Str.lastIndexOf s c)); [lia|].
    destruct (Ascii.eqb b c); [lia|]. simpl. apply IHs. lia.
Qed.

Lemma substring_0_append (m rest : string) :
  String.substring 0 (String.length m) (m ++ rest) = m.
Proof. induction m as [|a m IH]; simpl; [now destruct rest | now rewrite IH]. Qed.

Lemma substring_skip (pre s : string) n :
  String.substring (String.length pre) n (pre ++ s) = String.substring 0 n s.
Proof. induction pre as [|a pre IH]; simpl; [reflexivity | exact IH]. Qed.

Lemma slice_middle (pre m post : string) :
  Str.slice (pre ++ m ++ post) (Str.len pre) (Str.len pre + Str.len m) = m.
Proof.
  unfold Str.slice. rewrite !len_append.
  pose proof (len_nonneg pre). pose proof (len_nonneg m). pose proof (len_nonneg post).
  destruct (Z.ltb_spec (Str.len pre) 0); [lia|].
  destruct (Z.ltb_spec (Str.len pre + Str.len m) 0); [lia|].
  rewrite !Z.min_l by lia.
  replace (Str.len pre + Str.len m - Str.len pre)%Z with (Str.len m) by lia.
  unfold Str.len. rewrite !Nat2Z.id.
  rewrite substring_skip. apply substring_0_append.
Qed.

(** Two ways of cutting one text: the shorter front is a front of the
    longer one. *)
Lemma append_split (a b c d : string) :
  a ++ b = c ++ d -> (String.length a <= String.length c)%nat ->
  exists m, c = a ++ m /\ b = m ++ d.
Proof.
  revert c. induction a as [|x a IH]; intros c H Hl; simpl in *.
  - exists c. split; [reflexivity | exact H].
  - destruct c as [|y c]; [simpl in Hl; lia|].
    simpl in *. injection H as -> H.
    destruct (IH c H ltac:(lia)) as (m & -> & ->).
    exists m. split; reflexivity.
Qed.

(* ===================================================================== *)
(** ** Numerals *)
(* ===================================================================== *)


(** The one-digit numeral of [k < 10]. *)
Lemma decimal_digit k :
  (k < 10)%N -> Str.decimal k = String (ascii_of_N (48 + k)) "".
Proof.
  intros H.
  assert (E : (k = 0 \/ k = 1 \/ k = 2 \/ k = 3 \/ k = 4 \/ k = 5 \/ k = 6 \/ k = 7
               \/ k = 8 \/ k = 9)%N) by lia.
  repeat (destruct E as [-> | E]; [reflexivity|]). subst. reflexivity.
Qed.

Lemma string_of_list_app l1 l2 :
  NilEmpty.string_of_uint (of_list (l1 ++ l2))
  = NilEmpty.string_of_uint (of_list l1) ++ NilEmpty.string_of_uint (of_list l2).
Proof.
  induction l1 as [|d l1 IH]; [reflexivity|].
  destruct d; simpl; now rewrite IH.
Qed.

Lemma string_of_app u w :
  NilEmpty.string_of_uint (Decimal.app u w)
  = NilEmpty.string_of_uint u ++ NilEmpty.string_of_uint w.
Proof.
  rewrite <- (of_list_to_list (Decimal.app u w)), app_spec, string_of_list_app.
  now rewrite !of_list_to_list.
Qed.

(** The numeral of a positive number is normalized: its first digit is not
    zero. *)
Lemma to_uint_head (q : N) :
  (0 < q)%N -> exists h t, to_list (N.to_uint q) = h :: t /\ h <> d0.
Proof.
  intros Hq. destruct q as [|p]; [lia|].
  pose proof (DecimalPos.Unsigned.to_of (Pos.to_uint p)) as Hn.
  rewrite DecimalPos.Unsigned.of_to in Hn. simpl in Hn.
  pose proof (DecimalPos.Unsigned.to_uint_nonzero p) as Hz.
  change (N.to_uint (N.pos p)) with (Pos.to_uint p).
  set (u := Pos.to_uint p) in *.
  assert (Hhead : Decimal.nzhead u = u).
  { unfold Decimal.unorm in Hn.
    destruct (Decimal.nzhead u) eqn:E; try (symmetry; exact Hn).
    exfalso. apply Hz. exact Hn. }
  destruct u eqn:Eu; simpl.
  - exfalso. revert Eu. apply DecimalPos.Unsigned.to_uint_nonnil.
  - exfalso. revert Hhead. apply nzhead_nonzero.
  - now exists d1, (to_list u0).
  - now exists d2, (to_list u0).
  - now exists d3, (to_list u0).
  - now exists d4, (to_list u0).
  - now exists d5, (to_list u0).
  - now exists d6, (to_list u0).
  - now exists d7, (to_list u0).
  - now exists d8, (to_list u0).
  - now exists d9, (to_list u0).
Qed.

Lemma unorm_snoc (q : N) (w : Decimal.uint) :
  (0 < q)%N -> Decimal.unorm (Decimal.app (N.to_uint q) w) = Decimal.app (N.to_uint q) w.
Proof.
  intros Hq. destruct (to_uint_head q Hq) as (h & t & E & Hh).
  assert (Hnz : Decimal.nzhead (Decimal.app (N.to_uint q) w) = Decimal.app (N.to_uint q) w).
  { apply to_list_inj. rewrite nzhead_spec, app_spec, E.
    rewrite <- List.app_comm_cons. now apply lnzhead_head_nd0. }
  rewrite unorm_nzhead; [exact Hnz|].
  rewrite Hnz. intros Hnil. apply (f_equal to_list) in Hnil.
  rewrite app_spec, E in Hnil. discriminate Hnil.
Qed.

Lemma of_uint_snoc (u : Decimal.uint) (k : N) :
  (k < 10)%N ->
  N.of_uint (Decimal.app u (N.to_uint k)) = (10 * N.of_uint u + k)%N.
Proof.
  intros H. unfold N.of_uint. rewrite !DecimalPos.Unsigned.of_uint_alt.
  assert (E : (k = 0 \/ k = 1 \/ k = 2 \/ k = 3 \/ k = 4 \/ k = 5 \/ k = 6 \/ k = 7
               \/ k = 8 \/ k = 9)%N) by lia.
  assert (Hrev : forall d, to_list (Decimal.rev (Decimal.app u (of_list [d])))
                           = d :: to_list (Decimal.rev u)).
  { intros d. rewrite !rev_spec, app_spec, to_list_of_list, List.rev_app_distr.
    reflexivity. }
  repeat (destruct E as [-> | E];
    [ match goal with
      | |- context [N.to_uint ?c] =>
          let d := eval vm_compute in (to_list (N.to_uint c)) in
          match d with
          | [?x] =>
              change (N.to_uint c) with (of_list [x]);
              rewrite <- (of_list_to_list (Decimal.rev (Decimal.app u (of_list [x]))));
              rewrite Hrev; cbn [of_list];
              rewrite DecimalPos.Unsigned.of_lu_eqn; cbn [DecimalPos.Unsigned.hd DecimalPos.Unsigned.tl];
              rewrite of_list_to_list; lia
          end
      end |]).
  subst.
  change (N.to_uint 9) with (of_list [d9]).
  rewrite <- (of_list_to_list (Decimal.rev (Decimal.app u (of_list [d9])))).
  rewrite Hrev; cbn [of_list].
  rewrite DecimalPos.Unsigned.of_lu_eqn; cbn [DecimalPos.Unsigned.hd DecimalPos.Unsigned.tl].
  rewrite of_list_to_list; lia.
Qed.

(** Appending a digit to a numeral multiplies by ten and adds the digit. *)
Lemma decimal_snoc (q k : N) :
  (0 < q)%N -> (k < 10)%N ->
  Str.decimal (10 * q + k) = Str.decimal q ++ Str.decimal k.
Proof.
  intros Hq Hk. unfold Str.decimal.
  rewrite <- string_of_app. f_equal.
  rewrite <- (unorm_snoc q (N.to_uint k) Hq).
  rewrite <- DecimalN.Unsigned.to_of. f_equal.
  rewrite of_uint_snoc by exact Hk.
  now rewrite DecimalN.Unsigned.of_to.
Qed.


Lemma decimal_length_1 k : (k < 10)%N -> String.length (Str.decimal k) = 1%nat.
Proof. intros H. now rewrite decimal_digit. Qed.

(** A number below [10 ^ k] has at most [k] digits. *)
Lemma decimal_length (k : nat) : forall n,
  (n < 10 ^ N.of_nat (S k))%N -> (String.length (Str.decimal n) <= S k)%nat.
Proof.
  induction k as [|k IH]; intros n Hn.
  - rewrite decimal_length_1; [lia | exact Hn].
  - destruct (N.ltb_spec n 10) as [Hsmall|Hbig].
    + rewrite decimal_length_1; [lia | exact Hsmall].
    + pose proof (N.div_mod n 10 ltac:(lia)) as Hdm.
      pose proof (N.mod_lt n 10 ltac:(lia)) as Hr.
      assert (Hq : (0 < n / 10)%N).
      { apply N.div_str_pos. lia. }
      assert (Hqk : (n / 10 < 10 ^ N.of_nat (S k))%N).
      { apply N.Div0.div_lt_upper_bound.
        replace (N.of_nat (S (S k))) with (N.succ (N.of_nat (S k))) in Hn by lia.
        rewrite N.pow_succ_r' in Hn. exact Hn. }
      rewrite Hdm, decimal_snoc, length_append by assumption.
      rewrite (decimal_length_1 _ Hr). specialize (IH _ Hqk). lia.
Qed.

Lemma repeat0_snoc n : Str.repeat0 n ++ "0" = Str.repeat0 (S n).
Proof. induction n as [|n IH]; simpl; [reflexivity | now rewrite IH]. Qed.

(** Stripping trailing zeros keeps the numeral: the zeros removed are the
    ones counted. *)
Lemma strip_zeros_decimal fuel : forall m e m' e',
  Num.strip_zeros fuel m e = (m', e') ->
  (0 < m)%N ->
  (e <= e')%Z /\ Str.decimal m = Str.decimal m' ++ Str.repeat0 (Z.to_nat (e' - e)).
Proof.
  induction fuel as [|fuel IH]; intros m e m' e' H Hm; cbn [Num.strip_zeros] in H.
  - injection H as <- <-. rewrite Z.sub_diag. simpl. split; [lia|].
    now induction (Str.decimal m) as [|c s IHs]; simpl; [|rewrite <- IHs].
  - destruct (N.eqb_spec (m mod 10) 0) as [Hz|Hnz]; cbn [andb] in H.
    + destruct (N.eqb_spec m 0) as [|_]; [lia|]. cbn [negb] in H.
      pose proof (N.div_mod m 10 ltac:(lia)) as Hdm. rewrite Hz in Hdm.
      assert (Hq : (0 < m / 10)%N).
      { destruct (N.eqb_spec (m / 10) 0) as [E|]; [rewrite E in Hdm; lia | lia]. }
      destruct (IH _ _ _ _ H Hq) as [Hle Hdec]. split; [lia|].
      rewrite Hdm at 1. rewrite decimal_snoc by (assumption || lia).
      rewrite Hdec, append_assoc.
      change (Str.decimal 0) with "0". rewrite repeat0_snoc. do 2 f_equal. lia.
    + injection H as <- <-. rewrite Z.sub_diag. simpl. split; [lia|].
      now induction (Str.decimal m) as [|c s IHs]; simpl; [|rewrite <- IHs].
Qed.

(** A positive integer below [10 ^ 21] prints as its decimal numeral. *)
Lemma numeral_decimal (n : N) :
  (1 <= n < 10 ^ 21)%N -> numeral n = Str.decimal n.
Proof.
  intros [Hlo Hhi]. unfold numeral, Num.toString, num_of_Z.
  assert (Hz : Num.rounds_to_zero {| mant := Z.of_N n; exp10 := 0 |} = false).
  { unfold Num.rounds_to_zero. cbn [mant exp10].
    destruct (Z.eqb_spec (Z.of_N n) 0); [lia | reflexivity]. }
  assert (Ho : Num.overflows {| mant := Z.of_N n; exp10 := 0 |} = false).
  { unfold Num.overflows. cbn [mant exp10]. change (0 <=? 0)%Z with true. cbv iota.
    apply Z.leb_gt. rewrite Z.abs_eq by lia. change (10 ^ 0)%Z with 1%Z.
    rewrite Z.mul_1_r.
    apply Z.lt_le_trans with (m := (10 ^ 21)%Z).
    - change (10 ^ 21)%Z with (Z.of_N (10 ^ 21)). lia.
    - vm_compute. discriminate. }
  rewrite Hz, Ho. cbn [mant exp10].
  destruct (Z.ltb_spec (Z.of_N n) 0) as [|_]; [lia|].
  rewrite Z.abs_eq by lia. rewrite N2Z.id.
  destruct (Num.strip_zeros (String.length (Str.decimal n)) n 0) as [m e] eqn:Hs.
  destruct (strip_zeros_decimal _ _ _ _ _ Hs ltac:(lia)) as [He Hdec].
  rewrite Z.sub_0_r in Hdec.
  pose proof (decimal_length 20 n Hhi) as Hlen.
  rewrite Hdec, length_append in Hlen.
  assert (Hrep : forall k, String.length (Str.repeat0 k) = k).
  { induction k as [|k IHk]; simpl; [reflexivity | now rewrite IHk]. }
  rewrite Hrep in Hlen.
  set (k := Z.of_nat (String.length (Str.decimal m))) in *.
  destruct (Z.leb_spec k (k + e)) as [_|]; [|lia].
  destruct (Z.leb_spec (k + e) 21) as [_|]; [|lia].
  cbn [andb]. rewrite Hdec.
  replace (k + e - k)%Z with e by lia. reflexivity.
Qed.


(* ===================================================================== *)
(** ** Reply normalization *)
(* ===================================================================== *)

(** On a text, the helper the routes call is [tryParseJSON]. *)
Lemma tryParseJSON_any_string text : tryParseJSON_any (JStr text) = tryParseJSON text.
Proof. reflexivity. Qed.

Lemma tryParseJSON_parsed text v : JSON.parse text = Ok v -> tryParseJSON text = Ok v.
Proof. unfold tryParseJSON. now intros ->. Qed.

Lemma tryParseJSON_delimited pre mid post e :
  lacks "{" pre = true -> lacks "}" post = true ->
  JSON.parse (pre ++ "{" ++ mid ++ "}" ++ post) = Throw e ->
  tryParseJSON (pre ++ "{" ++ mid ++ "}" ++ post)
  = try_catch (JSON.parse ("{" ++ mid ++ "}")) (fun _ => Ok JNull).
Proof.
  intros Hpre Hpost Hfail. unfold tryParseJSON. rewrite Hfail. cbn [try_catch].
  change (pre ++ "{" ++ mid ++ "}" ++ post) with (pre ++ String "{" (mid ++ String "}" post)).
  rewrite (indexOf_app pre "{" _ Hpre).
  replace (pre ++ String "{" (mid ++ String "}" post))
    with ((pre ++ "{" ++ mid) ++ String "}" post)
    by (rewrite !append_assoc; reflexivity).
  rewrite (lastIndexOf_app _ "}" post Hpost).
  rewrite !len_append.
  pose proof (len_nonneg pre). pose proof (len_nonneg mid).
  change (Str.len "{") with 1%Z.
  destruct (Z.eqb_spec (Str.len pre) (-1)); [lia|].
  destruct (Z.eqb_spec (Str.len pre + (1 + Str.len mid)) (-1)); [lia|].
  destruct (Z.ltb_spec (Str.len pre) (Str.len pre + (1 + Str.len mid))); [|lia].
  cbn [negb andb].
  replace ((pre ++ "{" ++ mid) ++ String "}" post)
    with (pre ++ ("{" ++ mid ++ "}") ++ post)
    by (rewrite !append_assoc; reflexivity).
  replace (Str.len pre + (1 + Str.len mid) + 1)%Z
    with (Str.len pre + Str.len ("{" ++ mid ++ "}"))%Z
    by (rewrite !len_append; change (Str.len "{") with 1%Z; change (Str.len "}") with 1%Z; lia).
  rewrite slice_middle. reflexivity.
Qed.

Lemma tryParseJSON_undelimited text e :
  JSON.parse text = Throw e ->
  (forall pre mid post, text <> pre ++ "{" ++ mid ++ "}" ++ post) ->
  tryParseJSON text = Ok JNull.
Proof.
  intros Hfail Hno. unfold tryParseJSON. rewrite Hfail. cbn [try_catch].
  destruct (Z.eqb_spec (Str.indexOf text "{") (-1)) as [|Hi]; [reflexivity|].
  destruct (Z.eqb_spec (Str.lastIndexOf text "}") (-1)) as [|Hj]; [reflexivity|].
  destruct (Z.ltb_spec (Str.indexOf text "{") (Str.lastIndexOf text "}")) as [Hlt|]; [|reflexivity].
  exfalso.
  assert (Hi0 : (0 <= Str.indexOf text "{")%Z).
  { pose proof (indexOf_range text "{"). lia. }
  destruct (indexOf_found _ _ Hi0) as (pre & rest & E1 & _ & L1).
  destruct (lastIndexOf_found text "}" ltac:(lia)) as (front & post & E2 & _ & L2).
  assert (E : (pre ++ "{") ++ rest = front ++ String "}" post).
  { rewrite append_assoc. simpl. congruence. }
  apply append_split in E.
  - destruct E as (m & -> & _).
    apply (Hno pre m post). rewrite E2, !append_assoc. reflexivity.
  - rewrite length_append. simpl. unfold Str.len in *. lia.
Qed.

(** Claim C1.  For every string [rawText], [tryParseJSON] returns a value
    and does not throw: the parsed value, or [null].  When it returns
    [null], the Express route answers 200 with [{ ok: true, raw }] and the
    Lambda with [{ ok: true, raw, parsed: null }], [raw] being [rawText]
    unchanged, and for either reply the page shows no structured result:
    [renderAllResults] and [renderMetricResult] fall back to the raw text. *)
Theorem tryParseJSON_never_throws (rawText : string) :
  exists v, tryParseJSON rawText = Ok v /\
    (v = JNull ->
     forall (w : World) (metric : string),
       let bare := JObj [("ok", JBool true); ("raw", JStr rawText)] in
       Express.respond rawText w = (Ok (Express.mkResponse 200 bare), w) /\
       Lambda.respond rawText w
       = (Ok (Lambda.buildResponse 200 (payload_of rawText JNull)), w) /\
       (forall payload, payload = bare \/ payload = payload_of rawText JNull ->
          Client.renderAllResults payload
          = Ok (Client.TextContent (js_or (JStr rawText) (JSON_stringify payload "  "))) /\
          Client.renderMetricResult metric payload
          = Ok (Client.TextContent (js_or (JStr rawText) (JSON_stringify payload "  "))))).
Proof.
  assert (H : exists v, tryParseJSON rawText = Ok v).
  { unfold tryParseJSON.
    destruct (JSON.parse rawText) as [v|e]; cbn [try_catch]; [now exists v|].
    destruct (_ && _); [|now exists JNull].
    destruct (JSON.parse _) as [v|e']; cbn [try_catch]; eauto. }
  destruct H as [v Hv]. exists v. split; [exact Hv|].
  intros -> w metric bare. repeat split.
  - unfold Express.respond, Express.relay, mbind, lift.
    rewrite tryParseJSON_any_string, Hv. reflexivity.
  - unfold Lambda.respond, Lambda.relay, mbind, lift.
    rewrite tryParseJSON_any_string, Hv. reflexivity.
  - destruct H as [-> | ->]; reflexivity.
  - destruct H as [-> | ->]; reflexivity.
Qed.

Lemma tryParseJSON_never_throws_witness :
  tryParseJSON "} not { json" = Ok JNull /\
  forall w : World,
    Express.respond "} not { json" w
    = (Ok (Express.mkResponse 200 (JObj [("ok", JBool true); ("raw", JStr "} not { json")])), w).
Proof.
  split; [reflexivity|]. intros w.
  destruct (tryParseJSON_never_throws "} not { json") as (v & Hv & Hnull).
  assert (Ev : v = JNull) by (vm_compute in Hv; congruence).
  exact (proj1 (Hnull Ev w "")).
Defined.

(** Claim C2.  [tryParseJSON] is a two-step, first-success-wins
    algorithm: (1) a text that parses as a whole yields that value; (2) a
    text that does not, and has a first [{] before a last [}], yields the
    parse of the substring from the one to the other, inclusive, or [null]
    when that substring does not parse; (3) a text that does not parse and
    has no [{] before a [}] yields [null].  In particular (4), when a
    valid JSON object stands between prose, a lead with no [{] and a
    trail with no [}] with which the text is not valid JSON as a whole,
    the result is the value of the bare object. *)
Theorem tryParseJSON_two_steps :
  (forall text v, JSON.parse text = Ok v -> tryParseJSON text = Ok v) /\
  (forall pre mid post e,
     lacks "{" pre = true -> lacks "}" post = true ->
     JSON.parse (pre ++ "{" ++ mid ++ "}" ++ post) = Throw e ->
     tryParseJSON (pre ++ "{" ++ mid ++ "}" ++ post)
     = try_catch (JSON.parse ("{" ++ mid ++ "}")) (fun _ => Ok JNull)) /\
  (forall text e,
     JSON.parse text = Throw e ->
     (forall pre mid post, text <> pre ++ "{" ++ mid ++ "}" ++ post) ->
     tryParseJSON text = Ok JNull) /\
  (forall pre mid post e v,
     lacks "{" pre = true -> lacks "}" post = true ->
     JSON.parse (pre ++ "{" ++ mid ++ "}" ++ post) = Throw e ->
     JSON.parse ("{" ++ mid ++ "}") = Ok v ->
     tryParseJSON (pre ++ "{" ++ mid ++ "}" ++ post) = Ok v).
Proof.
  split; [exact tryParseJSON_parsed|].
  split; [exact tryParseJSON_delimited|].
  split; [exact tryParseJSON_undelimited|].
  intros pre mid post e v Hpre Hpost Hfail Hobj.
  rewrite (tryParseJSON_delimited _ _ _ _ Hpre Hpost Hfail), Hobj. reflexivity.
Qed.

Lemma tryParseJSON_two_steps_witness :
  tryParseJSON (dq "Here is the result: {'score':7} Thanks!")
  = Ok (JObj [("score", JNum (mkNum 7 0))]).
Proof.
  exact (proj2 (proj2 (proj2 tryParseJSON_two_steps))
           "Here is the result: " (dq "'score':7") " Thanks!"
           JSON.syntax_error (JObj [("score", JNum (mkNum 7 0))])
           eq_refl eq_refl eq_refl eq_refl).
Defined.

(** The last part needs its third hypothesis.  Brackets are JSON syntax,
    not prose: with them around the object the whole text parses, and the
    first step wins. *)
Lemma tryParseJSON_wrapped_object :
  ~ (forall pre mid post v,
       lacks "{" pre = true -> lacks "}" pre = true ->
       lacks "{" post = true -> lacks "}" post = true ->
       JSON.parse ("{" ++ mid ++ "}") = Ok v ->
       tryParseJSON (pre ++ "{" ++ mid ++ "}" ++ post) = Ok v).
Proof.
  intros H.
  specialize (H "[" "" "]" (JObj []) eq_refl eq_refl eq_refl eq_refl eq_refl).
  vm_compute in H. discriminate H.
Qed.

(* ===================================================================== *)
(** ** The documented reply, from text to page *)
(* ===================================================================== *)

Lemma lookup_app k a b :
  lookup k (a ++ b)%list
  = match lookup k a with Some v => Some v | None => lookup k b end.
Proof.
  induction a as [|[k' v'] a IH]; simpl; [reflexivity|].
  destruct (String.eqb k' k); [reflexivity | exact IH].
Qed.

Lemma lookup_combine_other k keys vals :
  Forall (fun k' => String.eqb k' k = false) keys ->
  lookup k (combine keys vals) = None.
Proof.
  intros H. revert vals. induction H as [|k' keys Hk _ IH]; intros vals; simpl.
  - reflexivity.
  - destruct vals as [|v vals]; simpl; [reflexivity|]. now rewrite Hk.
Qed.

Lemma reserved_key_false k :
  reserved_key k = false ->
  String.eqb k "metrics" = false /\ String.eqb k "results" = false
  /\ String.eqb k "common_improvements" = false.
Proof.
  unfold reserved_key. intros H.
  apply orb_false_elim in H as [H H3]. apply orb_false_elim in H as [H1 H2]. auto.
Qed.

Lemma improvements_lookup_other d k :
  String.eqb "common_improvements" k = false ->
  lookup k (improvements_fields d) = None.
Proof.
  intros H. unfold improvements_fields.
  destruct (d_improvements d); cbn [lookup]; [now rewrite H | reflexivity].
Qed.

Lemma improvements_lookup d :
  lookup "common_improvements" (improvements_fields d)
  = match d_improvements d with Some l => Some (JArr (map JStr l)) | None => None end.
Proof. unfold improvements_fields. now destruct (d_improvements d). Qed.

(** The three reads [renderAllResults] makes of the documented object. *)
Lemma doc_metrics d :
  documented d ->
  Get (doc_value d) "metrics"
  = Ok (match d_placement d with
        | UnderMetrics => JArr (map entry_value (d_entries d))
        | _ => JUndefined
        end).
Proof.
  intros [_ Hd]. unfold doc_value, entries_fields.
  destruct (d_placement d) as [| | |keys]; [reflexivity|..];
    unfold Get; rewrite lookup_app; simpl; try reflexivity.
  - now rewrite improvements_lookup_other.
  - destruct Hd as (_ & Hk).
    rewrite lookup_combine_other, improvements_lookup_other; [reflexivity..|].
    eapply Forall_impl; [|exact Hk]. intros k Hr. now apply reserved_key_false in Hr.
Qed.

Lemma doc_results d :
  documented d ->
  Get (doc_value d) "results"
  = Ok (match d_placement d with
        | UnderResults => JArr (map entry_value (d_entries d))
        | _ => JUndefined
        end).
Proof.
  intros [_ Hd]. unfold doc_value, entries_fields.
  destruct (d_placement d) as [| | |keys]; [reflexivity|..];
    unfold Get; rewrite lookup_app; simpl; try reflexivity.
  - now rewrite improvements_lookup_other.
  - destruct Hd as (_ & Hk).
    rewrite lookup_combine_other, improvements_lookup_other; [reflexivity..|].
    eapply Forall_impl; [|exact Hk]. intros k Hr. now apply reserved_key_false in Hr.
Qed.

Lemma doc_common_improvements d :
  documented d ->
  Get (doc_value d) "common_improvements"
  = Ok (match d_improvements d with
        | Some l => JArr (map JStr l)
        | None => JUndefined
        end).
Proof.
  intros [_ Hd]. unfold doc_value, entries_fields.
  destruct (d_placement d) as [| | |keys]; [now rewrite Hd|..];
    unfold Get; rewrite lookup_app; simpl.
  - rewrite improvements_lookup. now destruct (d_improvements d).
  - rewrite improvements_lookup. now destruct (d_improvements d).
  - destruct Hd as (_ & Hk).
    rewrite lookup_combine_other, improvements_lookup.
    + now destruct (d_improvements d).
    + eapply Forall_impl; [|exact Hk]. intros k Hr. now apply reserved_key_false in Hr.
Qed.

Lemma string_eqb_empty_false s : s <> "" -> String.eqb s "" = false.
Proof. intros H. now apply String.eqb_neq. Qed.

(** A score from 1 to 10 is not zero, however it is written. *)
Lemma between_nonzero n : Num.between 1 10 n = true -> Num.rounds_to_zero n = false.
Proof.
  unfold Num.between, Num.rounds_to_zero. destruct n as [m e]. cbn [mant exp10].
  destruct (Z.leb_spec 0 e) as [He|He].
  - intros H. apply andb_prop in H as [H1 _]. apply Z.leb_le in H1.
    destruct (Z.ltb_spec e 0) as [|_]; [lia|]. rewrite andb_false_l, orb_false_r.
    apply Z.eqb_neq. intros ->. simpl in H1. lia.
  - intros H. apply andb_prop in H as [H1 _]. apply Z.leb_le in H1.
    assert (Hp : (0 < 10 ^ (- e))%Z) by (apply Z.pow_pos_nonneg; lia).
    assert (Hk : (1 < 2 ^ 1075)%Z) by (apply Z.pow_gt_1; lia).
    apply orb_false_intro.
    + apply Z.eqb_neq. lia.
    + apply andb_false_intro2. apply Z.leb_gt.
      rewrite Z.abs_eq by lia. nia.
Qed.

Lemma metric_like_entry e :
  well_formed e -> Client.metric_like (entry_value e) = Ok (JNum (e_score e)).
Proof.
  intros [Hm Hs]. unfold Client.metric_like. cbn.
  now rewrite (string_eqb_empty_false _ Hm).
Qed.

Lemma filter_entries es tail :
  Forall well_formed es ->
  Client.filter Client.metric_like tail = Ok [] ->
  Client.filter Client.metric_like (map entry_value es ++ tail)%list
  = Ok (map entry_value es).
Proof.
  intros H Ht. induction H as [|e es Hwf _ IH]; simpl.
  - exact Ht.
  - rewrite (metric_like_entry e Hwf). cbn [bind]. rewrite IH. cbn.
    now rewrite (between_nonzero _ (proj2 Hwf)).
Qed.

Lemma map_snd_combine {A B} (ks : list A) (vs : list B) :
  List.length ks = List.length vs -> map snd (combine ks vs) = vs.
Proof.
  revert vs. induction ks as [|k ks IH]; intros [|v vs] H; simpl in *;
    try discriminate; [reflexivity|]. f_equal. apply IH. lia.
Qed.

Lemma doc_metricsArr d :
  documented d ->
  Client.metricsArr (doc_value d) = Ok (JArr (map entry_value (d_entries d))).
Proof.
  intros Hd. unfold Client.metricsArr.
  destruct (d_placement d) as [| | |keys] eqn:P.
  { unfold doc_value. rewrite P. reflexivity. }
  all: replace (isArray (doc_value d)) with false by (unfold doc_value; now rewrite P).
  all: cbv iota; rewrite (doc_metrics d Hd); cbn [bind]; rewrite P;
    cbn [ToBoolean]; cbv iota.
  - reflexivity.
  - rewrite (doc_results d Hd), P. reflexivity.
  - rewrite (doc_results d Hd), P. cbn [bind ToBoolean]. cbv iota.
    destruct Hd as [Hes Hd]. rewrite P in Hd. destruct Hd as (Hlen & _).
    unfold doc_value, Object_values, entries_fields. rewrite P. cbn [bind].
    rewrite map_app, map_snd_combine by (now rewrite length_map).
    rewrite (filter_entries _ _ Hes); [reflexivity|].
    unfold improvements_fields. destruct (d_improvements d); reflexivity.
Qed.

Lemma doc_value_truthy d : ToBoolean (doc_value d) = true.
Proof. unfold doc_value. now destruct (d_placement d). Qed.

Lemma score_block_entry e : Client.score_block (entry_value e) = Ok (entry_html e).
Proof. reflexivity. Qed.

Lemma score_blocks_entries es :
  mapM Client.score_block (map entry_value es) = Ok (map entry_html es).
Proof.
  induction es as [|e es IH]; cbn [mapM map]; [reflexivity|].
  rewrite score_block_entry. cbn [bind]. now rewrite IH.
Qed.

Lemma list_items_strings l :
  mapM Client.list_item (map JStr l) = Ok (map (fun s => "<li>" ++ s ++ "</li>") l).
Proof.
  induction l as [|s l IH]; cbn [mapM map]; [reflexivity|].
  change (Client.list_item (JStr s)) with (Ok ("<li>" ++ s ++ "</li>")).
  cbn [bind]. now rewrite IH.
Qed.

Lemma length_truthy {A} (l : list A) :
  ToBoolean (JNum (num_of_Z (Z.of_nat (List.length l))))
  = match l with [] => false | _ => true end.
Proof.
  destruct l as [|x l]; [reflexivity|].
  unfold ToBoolean, Num.rounds_to_zero, num_of_Z. cbn [mant exp10].
  destruct (Z.eqb_spec (Z.of_nat (List.length (x :: l))) 0) as [E|_];
    [simpl in E; lia | reflexivity].
Qed.

(** Claim C3.  Round trip: when [raw] is the JSON text of a documented reply
    [d] with N entries (a bare list of entries, or an object with the
    entries under [metrics], under [results] or one per key),
    [tryParseJSON] yields the reply, both routes hand it to the client as
    [parsed], the [metricsArr] of [renderAllResults] is exactly the N
    entries with their [metric], [score] and [feedback],
    [common_improvements] reads as the source list (as [undefined], with
    no error, when the reply has none), and, the scores being written
    with at most 15 significant digits, the page shows one block per
    entry, with the score as it is written less trailing zeros, and one
    item per suggestion, in order. *)
Theorem documented_reply_round_trip (raw : string) (d : document) :
  documented d ->
  JSON.parse raw = Ok (doc_value d) ->
  let parsed := doc_value d in
  let html := entries_html (d_entries d) ++ improvements_html (d_improvements d) in
  tryParseJSON raw = Ok parsed /\
  (forall w,
     Express.respond raw w = (Ok (Express.mkResponse 200 (payload_of raw parsed)), w) /\
     Lambda.respond raw w = (Ok (Lambda.buildResponse 200 (payload_of raw parsed)), w)) /\
  Client.metricsArr parsed = Ok (JArr (map entry_value (d_entries d))) /\
  List.length (map entry_value (d_entries d)) = List.length (d_entries d) /\
  Get parsed "common_improvements"
  = Ok (match d_improvements d with
        | Some l => JArr (map JStr l)
        | None => JUndefined
        end) /\
  (Forall short_score (d_entries d) ->
   Client.renderAllResults (payload_of raw parsed)
   = Ok (Client.InnerHTML
           (if String.eqb html ""
            then js_or (JStr raw) (JSON_stringify parsed "  ")
            else JStr html))).
Proof.
  intros Hd Hparse parsed html.
  assert (Htry : tryParseJSON raw = Ok parsed) by now apply tryParseJSON_parsed.
  split; [exact Htry|].
  split.
  { intros w. unfold Express.respond, Lambda.respond, Express.relay, Lambda.relay.
    unfold mbind, lift. rewrite tryParseJSON_any_string, Htry.
    subst parsed. rewrite doc_value_truthy. split; reflexivity. }
  split; [exact (doc_metricsArr d Hd)|].
  split; [apply length_map|].
  split; [exact (doc_common_improvements d Hd)|].
  intros _. subst parsed html.
  unfold Client.renderAllResults.
  change (ToBoolean (payload_of raw (doc_value d))) with true.
  change (Get (payload_of raw (doc_value d)) "parsed") with (Ok (doc_value d)).
  cbn [negb bind]. rewrite doc_value_truthy. cbv iota.
  rewrite (doc_metricsArr d Hd). cbn [bind].
  cbn [Get]. change (String.eqb "length" "length") with true. cbv iota.
  cbn [bind]. rewrite length_map, length_truthy.
  rewrite (doc_common_improvements d Hd).
  unfold entries_html, improvements_html, Client.score_blocks, Client.list_items.
  destruct (d_entries d) as [|e es] eqn:Ees.
  - cbn [bind].
    destruct (d_improvements d) as [l|]; cbn [bind ToBoolean]; cbv iota; [|reflexivity].
    rewrite list_items_strings. cbn [bind]. reflexivity.
  - rewrite score_blocks_entries. cbn [bind].
    destruct (d_improvements d) as [l|]; cbn [bind ToBoolean]; cbv iota.
    + rewrite list_items_strings. cbn [bind].
      rewrite !append_assoc. reflexivity.
    + rewrite append_nil_r. reflexivity.
Qed.

(* ===================================================================== *)
(** ** The prompt *)
(* ===================================================================== *)

Lemma ToString_optional o : ToString (optional o) = Ok (shown_text o).
Proof. now destruct o. Qed.

Lemma ToString_title o :
  ToString (js_or (optional o) (JStr "Unknown Title")) = Ok (shown_title o).
Proof.
  destruct o as [s|]; [|reflexivity].
  unfold js_or, shown_title. cbn [optional ToBoolean].
  now destruct (String.eqb s "").
Qed.

Lemma metric_lines_numbered (names : list string) : forall i,
  mapi_from i metric_line (map JStr names) = Ok (numbered (N.succ i) names).
Proof.
  induction names as [|m names IH]; intros i; cbn [mapi_from map numbered].
  - reflexivity.
  - unfold metric_line at 1. cbn [ToString bind]. rewrite IH. cbn [bind].
    unfold numeral. rewrite N2Z.inj_succ. reflexivity.
Qed.

(** The prompt for a request and a list of metric names. *)
Lemma constructPrompt_request (r : request) (names : list string) :
  constructPrompt (details_of r) (map JStr names)
  = Ok (Str.join (LF ++ LF)
          [header; Str.join LF (labeled_lines r); "Metrics to evaluate:";
           Str.join LF (numbered 1 names); instruction]).
Proof.
  unfold constructPrompt, field, mapi.
  change (Get (details_of r) "url") with (Ok (JStr (r_url r))).
  change (Get (details_of r) "title") with (Ok (optional (r_title r))).
  change (Get (details_of r) "videoType") with (Ok (optional (r_videoType r))).
  change (Get (details_of r) "purpose") with (Ok (optional (r_purpose r))).
  change (Get (details_of r) "keyConcepts") with (Ok (optional (r_keyConcepts r))).
  change (Get (details_of r) "justifications") with (Ok (optional (r_justifications r))).
  change (Get (details_of r) "goal") with (Ok (optional (r_goal r))).
  cbn [bind ToString]. rewrite ToString_title. cbn [bind].
  rewrite !ToString_optional. cbn [bind].
  rewrite metric_lines_numbered. cbn [bind].
  unfold labeled_lines, labeled, Str.join. cbn [String.concat].
  rewrite !append_assoc. reflexivity.
Qed.

Lemma join_cons sep x y l :
  Str.join sep (x :: y :: l) = x ++ sep ++ Str.join sep (y :: l).
Proof. reflexivity. Qed.

(** A member of a list joined by line feeds, between two line feeds, is on
    a line of its own. *)
Lemma join_own_line l x before after :
  In x l -> own_line x (before ++ LF ++ Str.join LF l ++ LF ++ after).
Proof.
  revert before. induction l as [|y l IH]; intros before Hin; [destruct Hin|].
  destruct l as [|z l].
  - destruct Hin as [->|[]]. exists before, after. reflexivity.
  - destruct Hin as [->|Hin].
    + exists before, (Str.join LF (z :: l) ++ LF ++ after).
      rewrite join_cons, !append_assoc. reflexivity.
    + destruct (IH (before ++ LF ++ y) Hin) as (pre & post & E).
      exists pre, post. rewrite <- E, join_cons, !append_assoc. reflexivity.
Qed.

Lemma numbered_nth names : forall start i m,
  nth_error names i = Some m ->
  In (numeral (start + N.of_nat i) ++ ". " ++ m) (numbered start names).
Proof.
  induction names as [|x names IH]; intros start i m H.
  - destruct i; discriminate.
  - destruct i as [|i]; cbn [nth_error numbered] in *.
    + injection H as ->. left. now rewrite N.add_0_r.
    + right. replace (start + N.of_nat (S i))%N with (N.succ start + N.of_nat i)%N by lia.
      now apply IH.
Qed.

Lemma Ok_inj {A} (x y : A) : Ok x = Ok y -> x = y.
Proof. now intros [= ->]. Qed.

(** Whatever the details, a prompt that is returned ends with the numbered
    names and the closing instruction. *)
Lemma constructPrompt_metrics_block details names p :
  constructPrompt details (map JStr names) = Ok p ->
  exists before,
    p = before ++ "Metrics to evaluate:" ++ LF ++ LF
        ++ Str.join LF (numbered 1 names) ++ LF ++ LF ++ instruction.
Proof.
  unfold constructPrompt, mapi.
  repeat match goal with
         | |- (bind ?c _ = Ok _) -> _ =>
             lazymatch c with
             | mapi_from _ _ _ => fail
             | _ => destruct c; cbn [bind]; [|discriminate]
             end
         end.
  rewrite metric_lines_numbered. cbn [bind]. intros H.
  apply Ok_inj in H. subst p.
  eexists. rewrite !join_cons. cbn [Str.join String.concat].
  rewrite <- !append_assoc. reflexivity.
Qed.

(** Claim C4.  For every list of metric names: a request with text fields
    gets a prompt; and whatever the request, the prompt [constructPrompt]
    returns holds, after the label [Metrics to evaluate:], the names
    numbered consecutively from 1 in the order of the list, each on a line
    of its own.  The numeral of a position below [10 ^ 21] is its decimal
    numeral. *)
Theorem prompt_numbers_metrics (names : list string) :
  (forall r : request,
     exists p, constructPrompt (details_of r) (map JStr names) = Ok p) /\
  (forall details p,
     constructPrompt details (map JStr names) = Ok p ->
     (exists before,
        p = before ++ "Metrics to evaluate:" ++ LF ++ LF
            ++ Str.join LF (numbered 1 names) ++ LF ++ LF ++ instruction) /\
     (forall i m, nth_error names i = Some m ->
        own_line (numeral (N.of_nat i + 1) ++ ". " ++ m) p)) /\
  (forall n, (1 <= n < 10 ^ 21)%N -> numeral n = Str.decimal n).
Proof.
  split. { intros r. eexists. apply constructPrompt_request. }
  split; [|exact numeral_decimal].
  intros details p Hp.
  destruct (constructPrompt_metrics_block _ _ _ Hp) as [before E].
  split; [now exists before|].
  intros i m H.
  pose proof (numbered_nth names 1 i m H) as Hin.
  replace (1 + N.of_nat i)%N with (N.of_nat i + 1)%N in Hin by lia.
  destruct (join_own_line _ _ (before ++ "Metrics to evaluate:" ++ LF)
              (LF ++ instruction) Hin) as (pre & post & E').
  exists pre, post. rewrite <- E', E, !append_assoc. reflexivity.
Qed.

(** Claim C6.  The prompt shows the request fields as labeled lines in the
    order url, title, videoType, purpose, keyConcepts, justifications,
    goal, each on a line of its own; an absent optional field shows as the
    word [undefined], an absent title as [Unknown Title]; and for a
    request whose url has no stored title the single-metric route sends
    the prompt of the request with no title. *)
Theorem prompt_renders_request_fields (r : request) (names : list string) :
  exists p rest,
    constructPrompt (details_of r) (map JStr names) = Ok p /\
    p = header ++ LF ++ LF
        ++ "Video URL: " ++ r_url r ++ LF
        ++ "Title: " ++ shown_title (r_title r) ++ LF
        ++ "Video Type: " ++ shown_text (r_videoType r) ++ LF
        ++ "Purpose: " ++ shown_text (r_purpose r) ++ LF
        ++ "Key Concepts: " ++ shown_text (r_keyConcepts r) ++ LF
        ++ "Justifications: " ++ shown_text (r_justifications r) ++ LF
        ++ "Evaluation Goal: " ++ shown_text (r_goal r) ++ LF ++ LF ++ rest /\
    (forall line, In line (labeled_lines r) -> own_line line p) /\
    shown_text None = "undefined" /\
    shown_title None = "Unknown Title" /\
    (exists sent,
       calls (snd (Express.evaluate_metric example_body (backend_replying "{}"))) = [sent] /\
       constructPrompt (details_of example_request)
         [JStr "Pacing and speed of narration"] = Ok sent).
Proof.
  eexists. eexists.
  split; [apply constructPrompt_request|].
  split.
  { rewrite !join_cons. unfold labeled_lines, labeled.
    cbn [Str.join String.concat]. rewrite !append_assoc. reflexivity. }
  split; [|split; [reflexivity | split; [reflexivity|]]].
  2:{ eexists. split; vm_compute; reflexivity. }
  intros line Hin.
  pose proof (join_own_line _ _ (header ++ LF)
    (LF ++ Str.join (LF ++ LF)
             ["Metrics to evaluate:"; Str.join LF (numbered 1 names); instruction])
    Hin) as (pre & post & E).
  exists pre, post. rewrite <- E. rewrite !join_cons. rewrite !append_assoc. reflexivity.
Qed.

(** Claim C9.  [constructPrompt] makes no check of its metric list: for an
    empty list it returns the prompt with nothing between the label
    [Metrics to evaluate:] and the closing instruction, and whenever it
    returns a prompt for some list it returns one for the empty list. *)
Theorem constructPrompt_empty_metric_list :
  (forall r : request,
     constructPrompt (details_of r) []
     = Ok (header ++ LF ++ LF ++ Str.join LF (labeled_lines r) ++ LF ++ LF
           ++ "Metrics to evaluate:" ++ LF ++ LF ++ "" ++ LF ++ LF ++ instruction)) /\
  (forall details metricList p,
     constructPrompt details metricList = Ok p ->
     exists p0, constructPrompt details [] = Ok p0).
Proof.
  split.
  - intros r. change (@nil value) with (map JStr []).
    rewrite (constructPrompt_request r []).
    rewrite !join_cons. cbn [numbered Str.join String.concat].
    rewrite !append_assoc. reflexivity.
  - intros details metricList p. unfold constructPrompt.
    repeat match goal with
           | |- (bind ?c _ = Ok _) -> _ =>
               destruct c; cbn [bind]; [|discriminate]
           end.
    intros _. unfold mapi. cbn [mapi_from bind]. eauto.
Qed.

Lemma constructPrompt_empty_metric_list_witness :
  exists p0, constructPrompt (JObj [("url", JStr "v1")]) [] = Ok p0.
Proof.
  refine (proj2 constructPrompt_empty_metric_list
            (JObj [("url", JStr "v1")]) [JStr "Pacing and speed of narration"] _ _).
  vm_compute. reflexivity.
Defined.

(* ===================================================================== *)
(** ** Matching a requested metric *)
(* ===================================================================== *)

Lemma startsWith_spec p s :
  Str.startsWith p s = true <-> exists post, s = p ++ post.
Proof.
  revert s. induction p as [|a p IH]; intros s; simpl.
  - split; [intros _; now exists s | reflexivity].
  - destruct s as [|b s].
    + split; [discriminate | intros [post H]; discriminate].
    + split.
      * intros H. apply andb_prop in H as [Hab Hp].
        apply Ascii.eqb_eq in Hab as ->. apply IH in Hp as [post ->].
        now exists post.
      * intros [post H]. injection H as -> ->.
        rewrite Ascii.eqb_refl. apply IH. now exists post.
Qed.

(** [includes] is substring containment, character by character. *)
Lemma includes_spec s sub :
  Str.includes s sub = true <-> exists pre post, s = pre ++ sub ++ post.
Proof.
  induction s as [|a s IH]; simpl.
  - rewrite orb_false_r. rewrite startsWith_spec. split.
    + intros [post H]. now exists "", post.
    + intros (pre & post & H). destruct pre; [now exists post|discriminate].
  - rewrite orb_true_iff, startsWith_spec, IH. split.
    + intros [[post H] | (pre & post & H)].
      * exists "", post. exact H.
      * exists (String a pre), post. simpl. now rewrite H.
    + intros (pre & post & H). destruct pre as [|b pre].
      * left. now exists post.
      * right. simpl in H. injection H as _ H. now exists pre, post.
Qed.

Lemma matches_entry requested e :
  exists b, Client.matches requested (entry_value e) = Ok b
            /\ ToBoolean b = names_metric requested e.
Proof.
  unfold Client.matches, names_metric.
  change (Get (entry_value e) "metric") with (Ok (JStr (e_metric e))).
  cbn [bind ToBoolean].
  destruct (String.eqb (e_metric e) "") eqn:E; cbn [negb andb].
  - eexists. split; [reflexivity|]. cbn [ToBoolean]. now rewrite E.
  - eexists. split; reflexivity.
Qed.

Lemma find_entries requested es :
  Client.find (Client.matches requested) (map entry_value es)
  = Ok (match List.find (names_metric requested) es with
        | Some e => entry_value e
        | None => JUndefined
        end).
Proof.
  induction es as [|e es IH]; cbn [map Client.find List.find]; [reflexivity|].
  destruct (matches_entry requested e) as (b & -> & Hb). cbn [bind].
  rewrite Hb. destruct (names_metric requested e); [reflexivity | exact IH].
Qed.

(** Claim C5.  A reply entry is matched to a requested metric name by
    case-sensitive substring containment: an entry passes the test of
    [renderMetricResult] exactly when it has a name and the requested name
    occurs in it, character for character; the entry found is the single
    entry itself or the first such entry of a list.  For the request
    [Clarity of problem articulation] and the reply entry named
    [Clarity of problem articulation (partial)] with score 7, the entry is
    found and the page reports score 7; the same request in lower case
    finds nothing. *)
Theorem metric_match_is_substring_containment :
  (forall requested e,
     exists b, Client.matches requested (entry_value e) = Ok b
               /\ ToBoolean b = names_metric requested e) /\
  (forall s sub,
     Str.includes s sub = true <-> exists pre post, s = pre ++ sub ++ post) /\
  (forall requested e,
     Client.find_metric requested (entry_value e)
     = Ok (if names_metric requested e then entry_value e else JNull)) /\
  (forall requested es,
     Client.find_metric requested (JArr (map entry_value es))
     = Ok (match List.find (names_metric requested) es with
           | Some e => entry_value e
           | None => JUndefined
           end)) /\
  (forall w,
     Express.respond example_reply w
     = (Ok (Express.mkResponse 200 (payload_of example_reply (entry_value example_entry))), w)) /\
  Client.find_metric "Clarity of problem articulation" (entry_value example_entry)
  = Ok (entry_value example_entry) /\
  Client.renderMetricResult "Clarity of problem articulation"
    (payload_of example_reply (entry_value example_entry))
  = Ok (Client.InnerHTML
          (JStr ("<h3>Clarity of problem articulation</h3>Score: <strong>7</strong>"
                 ++ LF ++ LF ++ "Feedback:" ++ LF ++ "Good but rushed."))) /\
  Client.find_metric "clarity of problem articulation" (entry_value example_entry)
  = Ok JNull.
Proof.
  split; [exact matches_entry|].
  split; [exact includes_spec|].
  split.
  { intros requested e. unfold Client.find_metric.
    change (isArray (entry_value e)) with false. cbv iota.
    destruct (matches_entry requested e) as (b & -> & Hb). cbn [bind].
    rewrite Hb. destruct (names_metric requested e); reflexivity. }
  split.
  { intros requested es. unfold Client.find_metric. cbn [isArray Client.call_find].
    apply find_entries. }
  split; [intros w; vm_compute; reflexivity|].
  repeat split; vm_compute; reflexivity.
Qed.

(* ===================================================================== *)
(** ** The routes: validation, the title store, falsy replies *)
(* ===================================================================== *)

(** Reading a property only throws on [null] and [undefined]: once one
    read of a value succeeded, all do. *)
Lemma Get_total body k v k' :
  Get body k = Ok v -> exists v', Get body k' = Ok v'.
Proof.
  destruct body; cbn [Get]; try discriminate; intros _; eauto.
  - destruct (String.eqb k' "length"); eauto. destruct (array_index k'); eauto.
  - destruct (String.eqb k' "length"); eauto. destruct (array_index k'); eauto.
Qed.

Ltac read_field body key H :=
  let v := fresh "v" in
  let E := fresh "E" in
  destruct (Get_total body _ _ key H) as [v E]; rewrite E; cbn [mbind lift].

Lemma evaluate_all_missing_url body w :
  missing body "url" ->
  Express.evaluate_all body w
  = (Ok (Express.mkResponse 400 (JObj [("error", JStr "Missing url")])), w).
Proof.
  intros (u & Hu & Hfalsy).
  unfold Express.evaluate_all, mtry, mbind, lift. rewrite Hu.
  read_field body "videoType" Hu. read_field body "purpose" Hu.
  read_field body "keyConcepts" Hu. read_field body "justifications" Hu.
  read_field body "goal" Hu.
  rewrite Hfalsy. reflexivity.
Qed.

Lemma evaluate_metric_missing body w :
  missing body "url" \/ missing body "metric" ->
  Express.evaluate_metric body w
  = (Ok (Express.mkResponse 400 (JObj [("error", JStr "Missing url or metric")])), w).
Proof.
  intros H.
  assert (Hany : exists k v, Get body k = Ok v).
  { destruct H as [(v & Hv & _) | (v & Hv & _)]; eauto. }
  destruct Hany as (k & v & Hk).
  unfold Express.evaluate_metric, mtry, mbind, lift.
  destruct (Get_total body _ _ "url" Hk) as [u Hu]. rewrite Hu.
  read_field body "videoType" Hu. read_field body "purpose" Hu.
  read_field body "keyConcepts" Hu. read_field body "justifications" Hu.
  read_field body "goal" Hu.
  destruct (Get_total body _ _ "metric" Hk) as [m Hm]. rewrite Hm.
  assert (Hcond : negb (ToBoolean u) || negb (ToBoolean m) = true).
  { destruct H as [(u' & Hu' & F) | (m' & Hm' & F)].
    - rewrite Hu in Hu'. injection Hu' as <-. now rewrite F.
    - rewrite Hm in Hm'. injection Hm' as <-. rewrite F. apply orb_true_r. }
  rewrite Hcond. reflexivity.
Qed.

(** Claim C7.  A request body whose [url] is missing is answered 400 by the
    all-metrics route, and one whose [url] or [metric] is missing is
    answered 400 by the single-metric route, the world left as it was: no
    call of the backend is made.  More generally no request without a
    truthy [url] reaches the backend. *)
Theorem missing_fields_answer_400 (body : value) (w : World) :
  (missing body "url" ->
   Express.evaluate_all body w
   = (Ok (Express.mkResponse 400 (JObj [("error", JStr "Missing url")])), w)) /\
  (missing body "url" \/ missing body "metric" ->
   Express.evaluate_metric body w
   = (Ok (Express.mkResponse 400 (JObj [("error", JStr "Missing url or metric")])), w)) /\
  ((forall u, Get body "url" = Ok u -> ToBoolean u = false) ->
   calls (snd (Express.evaluate_all body w)) = calls w /\
   calls (snd (Express.evaluate_metric body w)) = calls w).
Proof.
  split; [apply evaluate_all_missing_url|].
  split; [apply evaluate_metric_missing|].
  intros Hurl. destruct (Get body "url") as [u|e] eqn:Hu.
  - assert (Hm : missing body "url") by (exists u; auto).
    rewrite (evaluate_all_missing_url _ _ Hm), (evaluate_metric_missing _ _ (or_introl Hm)).
    split; reflexivity.
  - unfold Express.evaluate_all, Express.evaluate_metric, mtry, mbind, lift.
    rewrite Hu. split; reflexivity.
Qed.

Lemma missing_fields_answer_400_witness :
  missing (JObj [("purpose", JStr "teach X")]) "url" /\
  Express.evaluate_all (JObj [("purpose", JStr "teach X")]) (backend_replying "{}")
  = (Ok (Express.mkResponse 400 (JObj [("error", JStr "Missing url")])),
     backend_replying "{}").
Proof.
  assert (H : missing (JObj [("purpose", JStr "teach X")]) "url").
  { exists JUndefined. split; reflexivity. }
  split; [exact H|].
  exact (proj1 (missing_fields_answer_400 _ _) H).
Defined.

(** Frame rules: each way of building a handler keeps the files when its
    parts do.  Only [writeFile] has no such rule. *)
Section Frame.
Context {A B : Type}.

Lemma preserves_mret (a : A) : preserves_files (mret a).
Proof. intros w. reflexivity. Qed.

Lemma preserves_mthrow (e : exn) : preserves_files (@mthrow A e).
Proof. intros w. reflexivity. Qed.

Lemma preserves_lift (c : completion A) : preserves_files (lift c).
Proof. intros w. reflexivity. Qed.

Lemma preserves_mbind (m : M A) (k : A -> M B) :
  preserves_files m -> (forall a, preserves_files (k a)) ->
  preserves_files (mbind m k).
Proof.
  intros Hm Hk w. unfold mbind. specialize (Hm w).
  destruct (m w) as [[a|e] w']; cbn [snd] in *.
  - now rewrite Hk.
  - exact Hm.
Qed.

Lemma preserves_mtry (m : M A) (h : exn -> M A) :
  preserves_files m -> (forall e, preserves_files (h e)) ->
  preserves_files (mtry m h).
Proof.
  intros Hm Hh w. unfold mtry. specialize (Hm w).
  destruct (m w) as [[a|e] w']; cbn [snd] in *.
  - exact Hm.
  - now rewrite Hh.
Qed.

Lemma preserves_if (b : bool) (m1 m2 : M A) :
  preserves_files m1 -> preserves_files m2 ->
  preserves_files (if b then m1 else m2).
Proof. now destruct b. Qed.
End Frame.

Lemma preserves_readFile path : preserves_files (readFile path).
Proof. intros w. unfold readFile. now destruct (fs w path). Qed.

Lemma preserves_callGemini prompt : preserves_files (callGemini prompt).
Proof. intros w. reflexivity. Qed.

(** [frame] applies the rules; [frame_route] also uses the lemmas proved for
    the helpers of a route. *)
Ltac frame :=
  repeat first
    [ apply preserves_mret | apply preserves_mthrow | apply preserves_lift
    | apply preserves_readFile | apply preserves_callGemini
    | apply preserves_mbind; [|intro] | apply preserves_mtry; [|intro]
    | apply preserves_if
    | match goal with
      | |- preserves_files (match ?x with _ => _ end) => destruct x
      end ].

Lemma Express_readVideoDB_preserves : preserves_files Express.readVideoDB.
Proof. unfold Express.readVideoDB. frame. Qed.

Lemma Lambda_readVideoDB_preserves : preserves_files Lambda.readVideoDB.
Proof. unfold Lambda.readVideoDB. frame. Qed.

Lemma Express_respond_preserves raw : preserves_files (Express.respond raw).
Proof. unfold Express.respond. frame. Qed.

Lemma Lambda_respond_preserves raw : preserves_files (Lambda.respond raw).
Proof. unfold Lambda.respond. frame. Qed.

Create HintDb frame.
#[local] Hint Resolve Express_readVideoDB_preserves Lambda_readVideoDB_preserves
  Express_respond_preserves Lambda_respond_preserves : frame.

Ltac frame_route :=
  repeat first
    [ solve [auto with frame]
    | apply preserves_mret | apply preserves_mthrow | apply preserves_lift
    | apply preserves_callGemini
    | apply preserves_mbind; [|intro] | apply preserves_mtry; [|intro]
    | apply preserves_if ].

Lemma Lambda_evaluate_metric_preserves event : preserves_files (Lambda.evaluate_metric event).
Proof. unfold Lambda.evaluate_metric. frame_route. Qed.

Lemma Lambda_evaluate_all_preserves event : preserves_files (Lambda.evaluate_all event).
Proof. unfold Lambda.evaluate_all. frame_route. Qed.

Lemma mbind_lift_Ok {A B} (a : A) (k : A -> M B) : mbind (lift (Ok a)) k = k a.
Proof. reflexivity. Qed.

#[local] Hint Resolve Lambda_evaluate_metric_preserves Lambda_evaluate_all_preserves : frame.

Lemma Lambda_video_title_get_preserves event : preserves_files (Lambda.video_title_get event).
Proof. unfold Lambda.video_title_get. frame_route. Qed.

(** Claim C8.  The evaluation routes never write the title store: the
    single-metric and all-metrics routes of the Express server and of the
    Lambda leave every file as they found it, and so does the Lambda
    handler on every path that does not start with [/video-title]; reading
    a title does not write either.  Only [POST /video-title] does: on an
    empty store it writes the new title. *)
Theorem evaluation_never_writes_titles :
  (forall body, preserves_files (Express.evaluate_metric body)) /\
  (forall body, preserves_files (Express.evaluate_all body)) /\
  (forall event, preserves_files (Lambda.evaluate_metric event)) /\
  (forall event, preserves_files (Lambda.evaluate_all event)) /\
  (forall event p,
     Get event "path" = Ok (JStr p) ->
     Str.startsWith "/video-title" p = false ->
     preserves_files (Lambda.handler event)) /\
  (forall url, preserves_files (Express.get_video_title url)) /\
  fs (snd (Express.post_video_title
             (JObj [("url", JStr "v1"); ("title", JStr "Intro to X")])
             (backend_replying "")))
     Express.VIDEO_DB
  = Text (dq ("{" ++ LF ++ "  'v1': 'Intro to X'" ++ LF ++ "}")).
Proof.
  split. { intros body. unfold Express.evaluate_metric, Express.evaluation_failed. frame_route. }
  split. { intros body. unfold Express.evaluate_all, Express.evaluation_failed. frame_route. }
  split; [exact Lambda_evaluate_metric_preserves|].
  split; [exact Lambda_evaluate_all_preserves|].
  split.
  { intros event p Hp Hnot. unfold Lambda.handler. rewrite Hp.
    assert (Hpath : Lambda.startsWith (js_or (JStr p) (JStr "/")) "/video-title" = Ok false).
    { unfold js_or. cbn [ToBoolean]. destruct (String.eqb p ""); cbn [negb Lambda.startsWith].
      - reflexivity.
      - now rewrite Hnot. }
    rewrite mbind_lift_Ok. cbv zeta.
    apply preserves_mbind; [apply preserves_lift|intro m].
    apply preserves_mbind; [frame_route|intro method].
    rewrite Hpath.
    rewrite mbind_lift_Ok. cbv beta. cbn [andb].
    rewrite mbind_lift_Ok. cbv beta. cbn [andb].
    frame_route. }
  split. { intros url. unfold Express.get_video_title. frame_route. }
  vm_compute. reflexivity.
Qed.

(** Claim C10.  When the reply [raw] is the JSON text of a falsy value, the
    parse succeeds and the Express routes answer [{ ok: true, raw }] with
    no [parsed] field, as they do for a text that cannot be parsed; so for
    the replies [false], [0], [null] and the empty string literal, on both
    routes. *)
Theorem falsy_reply_is_answered_as_unparsed (raw : string) (v : value) (w : World) :
  JSON.parse raw = Ok v ->
  ToBoolean v = false ->
  let bare r := Express.mkResponse 200 (JObj [("ok", JBool true); ("raw", JStr r)]) in
  tryParseJSON raw = Ok v /\
  Express.respond raw w = (Ok (bare raw), w) /\
  (forall malformed,
     tryParseJSON malformed = Ok JNull ->
     Express.respond malformed w = (Ok (bare malformed), w)) /\
  Forall (fun text =>
            exists f, JSON.parse text = Ok f /\ ToBoolean f = false /\
            fst (Express.evaluate_all (JObj [("url", JStr "v1")]) (backend_replying text))
            = Ok (bare text) /\
            fst (Express.evaluate_metric
                   (JObj [("url", JStr "v1"); ("metric", JStr "Reasoning transparency")])
                   (backend_replying text))
            = Ok (bare text))
         ["false"; "0"; "null"; DQ ++ DQ].
Proof.
  intros Hparse Hfalsy bare.
  assert (Htry : tryParseJSON raw = Ok v) by now apply tryParseJSON_parsed.
  split; [exact Htry|].
  split. { unfold Express.respond, Express.relay, mbind, lift. rewrite tryParseJSON_any_string, Htry, Hfalsy. reflexivity. }
  split. { intros malformed Hm. unfold Express.respond, Express.relay, mbind, lift. rewrite tryParseJSON_any_string, Hm. reflexivity. }
  repeat constructor.
  - exists (JBool false). repeat split; vm_compute; reflexivity.
  - exists (JNum (mkNum 0 0)). repeat split; vm_compute; reflexivity.
  - exists JNull. repeat split; vm_compute; reflexivity.
  - exists (JStr ""). repeat split; vm_compute; reflexivity.
Qed.

Lemma falsy_reply_is_answered_as_unparsed_witness :
  JSON.parse "0" = Ok (JNum (mkNum 0 0)) /\
  ToBoolean (JNum (mkNum 0 0)) = false /\
  Express.respond "0" (backend_replying "0")
  = (Ok (Express.mkResponse 200 (JObj [("ok", JBool true); ("raw", JStr "0")])),
     backend_replying "0").
Proof.
  split; [reflexivity|]. split; [reflexivity|].
  exact (proj1 (proj2 (falsy_reply_is_answered_as_unparsed
                         "0" (JNum (mkNum 0 0)) (backend_replying "0") eq_refl eq_refl))).
Defined.

(** The title lookup [db[url]] also finds what the store object inherits:
    for a url that names a member of [Object.prototype] the route takes
    that member for the stored title. *)
Lemma inherited_name_is_taken_for_a_title :
  exists sent,
    calls (snd (Express.evaluate_metric
                  (JObj [("url", JStr "constructor");
                         ("metric", JStr "Reasoning transparency")])
                  (backend_replying "{}"))) = [sent] /\
    Str.includes sent "Title: Unknown Title" = false /\
    Str.includes sent "Title: function Object() { [native code] }" = true.
Proof. eexists. repeat split; vm_compute; reflexivity. Qed.

(* ===================================================================== *)
(** ** Worked instances *)
(* ===================================================================== *)

Lemma documented_reply_round_trip_witness :
  documented sample_document /\
  JSON.parse sample_reply = Ok (doc_value sample_document) /\
  Forall short_score (d_entries sample_document) /\
  Client.renderAllResults (payload_of sample_reply (doc_value sample_document))
  = Ok (Client.InnerHTML
          (JStr (entries_html (d_entries sample_document)
                 ++ improvements_html (d_improvements sample_document)))) /\
  transported (payload_of sample_reply (doc_value sample_document))
  = Ok (payload_of sample_reply (doc_value sample_document)) /\
  documented keyed_document /\
  JSON.parse keyed_reply = Ok (doc_value keyed_document) /\
  Client.metricsArr (doc_value keyed_document)
  = Ok (JArr (map entry_value (d_entries keyed_document))) /\
  documented bare_document /\
  JSON.parse bare_reply = Ok (doc_value bare_document) /\
  Client.metricsArr (doc_value bare_document)
  = Ok (JArr (map entry_value (d_entries bare_document))).
Proof.
  assert (Hd : documented sample_document).
  { split; [|exact I].
    repeat constructor; try discriminate. }
  assert (Hp : JSON.parse sample_reply = Ok (doc_value sample_document))
    by (vm_compute; reflexivity).
  assert (Hk : documented keyed_document).
  { split; [|split; [reflexivity|]]; repeat constructor; discriminate. }
  assert (Hq : JSON.parse keyed_reply = Ok (doc_value keyed_document))
    by (vm_compute; reflexivity).
  assert (Hs : Forall short_score (d_entries sample_document)).
  { repeat (apply Forall_cons; [reflexivity|]). apply Forall_nil. }
  assert (Hb : documented bare_document).
  { split; [exact (proj1 Hd) | reflexivity]. }
  assert (Hr : JSON.parse bare_reply = Ok (doc_value bare_document))
    by (vm_compute; reflexivity).
  split; [exact Hd|]. split; [exact Hp|]. split; [exact Hs|].
  split.
  { exact (proj2 (proj2 (proj2 (proj2 (proj2
             (documented_reply_round_trip sample_reply sample_document Hd Hp))))) Hs). }
  split; [vm_compute; reflexivity|].
  split; [exact Hk|]. split; [exact Hq|].
  split.
  { exact (proj1 (proj2 (proj2
             (documented_reply_round_trip keyed_reply keyed_document Hk Hq)))). }
  split; [exact Hb|]. split; [exact Hr|].
  exact (proj1 (proj2 (proj2
           (documented_reply_round_trip bare_reply bare_document Hb Hr)))).
Defined.

Lemma prompt_numbers_metrics_witness :
  exists p,
    constructPrompt (details_of example_request) (map JStr METRICS) = Ok p /\
    own_line "1. Clarity of problem articulation" p /\
    own_line "19. Career-oriented presentation quality" p.
Proof.
  destruct (prompt_numbers_metrics METRICS) as (Hret & Hlines & _).
  destruct (Hret example_request) as [p Hp].
  destruct (Hlines _ _ Hp) as [_ Hline].
  exists p. split; [exact Hp|]. split.
  - exact (Hline 0%nat _ eq_refl).
  - exact (Hline 18%nat _ eq_refl).
Defined.

Lemma metric_match_is_substring_containment_witness :
  Str.includes "Clarity of problem articulation (partial)"
               "Clarity of problem articulation" = true.
Proof.
  apply (proj2 (proj1 (proj2 metric_match_is_substring_containment) _ _)).
  exists "", " (partial)". reflexivity.
Defined.

Lemma prompt_renders_request_fields_witness :
  exists p,
    constructPrompt (details_of example_request)
      [JStr "Pacing and speed of narration"] = Ok p /\
    own_line "Title: Unknown Title" p /\
    own_line "Key Concepts: undefined" p.
Proof.
  destruct (prompt_renders_request_fields example_request
              ["Pacing and speed of narration"])
    as (p & rest & Hp & _ & Hline & _).
  exists p. split; [exact Hp|]. split; apply Hline; cbv; auto 10.
Defined.

Lemma evaluation_never_writes_titles_witness :
  let event := JObj [("path", JStr "/evaluate-all"); ("httpMethod", JStr "POST");
                     ("body", JStr (dq "{'url':'v1'}"))] in
  Get event "path" = Ok (JStr "/evaluate-all") /\
  Str.startsWith "/video-title" "/evaluate-all" = false /\
  preserves_files (Lambda.handler event).
Proof.
  intros event.
  split; [reflexivity|]. split; [reflexivity|].
  exact (proj1 (proj2 (proj2 (proj2 (proj2 evaluation_never_writes_titles))))
           event "/evaluate-all" eq_refl eq_refl).
Defined.

(* ===================================================================== *)
(** ** The routes, outcome by outcome *)
(* ===================================================================== *)

(** *** Reading the title store *)

Lemma Express_readVideoDB_spec w :
  Express.readVideoDB w
  = (match fs w Express.VIDEO_DB with
     | NoEntry => Ok (JObj [])
     | Denied => Throw (SystemError "EACCES" "permission denied")
     | Text content => JSON.parse content
     end, w).
Proof.
  unfold Express.readVideoDB, mtry, mbind, readFile, lift.
  destruct (fs w Express.VIDEO_DB) as [| |content]; try reflexivity.
  destruct (JSON.parse content) as [v|e] eqn:E; [reflexivity|].
  unfold JSON.parse in E.
  destruct (JSON.parse_value _ _) as [v r| |]; try (injection E as <-; reflexivity).
  destruct (JSON.skip_ws r); [discriminate|]. injection E as <-. reflexivity.
Qed.

Lemma Lambda_readVideoDB_spec w :
  Lambda.readVideoDB w
  = (Ok (match file_json (fs w Lambda.VIDEO_DB_TMP) with
         | Some v => v
         | None =>
             match file_json (fs w Lambda.VIDEO_DB_BUNDLED) with
             | Some v => v
             | None => JObj []
             end
         end), w).
Proof.
  unfold Lambda.readVideoDB, mtry, mbind, readFile, lift, file_json, mret.
  destruct (fs w Lambda.VIDEO_DB_TMP) as [| |tmp];
    try (destruct (fs w Lambda.VIDEO_DB_BUNDLED) as [| |raw]; try reflexivity;
         destruct (JSON.parse raw); reflexivity).
  destruct (JSON.parse tmp); [reflexivity|].
  destruct (fs w Lambda.VIDEO_DB_BUNDLED) as [| |raw]; try reflexivity.
  destruct (JSON.parse raw); reflexivity.
Qed.

Lemma tryParseJSON_total text : exists v, tryParseJSON text = Ok v.
Proof.
  unfold tryParseJSON. destruct (JSON.parse text); cbn [try_catch]; eauto.
  destruct (_ && _); eauto.
  destruct (JSON.parse _); cbn [try_catch]; eauto.
Qed.

Lemma Get_defined body k :
  body <> JUndefined -> body <> JNull -> exists v, Get body k = Ok v.
Proof.
  intros H1 H2. destruct body; cbn [Get]; try congruence; eauto.
  - destruct (String.eqb k "length"); eauto. destruct (array_index k); eauto.
  - destruct (String.eqb k "length"); eauto. destruct (array_index k); eauto.
Qed.

Lemma Get_optional_total o k : exists v, Get_optional o k = Ok v.
Proof.
  destruct o; cbn [Get_optional]; eauto; apply Get_defined; discriminate.
Qed.

Ltac run := cbv beta iota delta [mbind lift mret mtry mthrow].

Ltac step :=
  run;
  match goal with
  | |- context [match ?c with Ok _ => _ | Throw _ => _ end] => destruct c eqn:?
  | |- context [if ?b then _ else _] => destruct b eqn:?
  end.

(** *** The Express routes *)

Lemma Express_respond_outcome raw w :
  exists r, Express.respond raw w = (Ok r, w) /\ Express.status r = 200%Z /\
            Get (Express.json r) "raw" = Ok (JStr raw).
Proof.
  unfold Express.respond, Express.relay, mbind, lift, mret.
  rewrite tryParseJSON_any_string.
  destruct (tryParseJSON_total raw) as [v ->].
  destruct (ToBoolean v); eauto.
Qed.

(** What [relay] makes of a reply, and what the route answers with it:
    the search for braces can throw on a reply that is no text, and the
    route's [catch] answers 500 then. *)
Lemma Express_relay_spec raw w :
  Express.relay raw w
  = (match tryParseJSON_any raw with
     | Ok parsed =>
         Ok (Express.mkResponse 200
               (JObj (("ok", JBool true) :: ("raw", raw)
                      :: if ToBoolean parsed then [("parsed", parsed)] else [])))
     | Throw e => Throw e
     end, w).
Proof.
  unfold Express.relay, mbind, lift, mret.
  destruct (tryParseJSON_any raw) as [parsed|e]; [|reflexivity].
  destruct (ToBoolean parsed); reflexivity.
Qed.

Lemma Express_relayed_outcome raw w :
  exists r, mtry (Express.relay raw) Express.evaluation_failed w = (Ok r, w) /\
            (Express.status r = 200 \/ Express.status r = 500)%Z.
Proof.
  unfold mtry. rewrite Express_relay_spec.
  destruct (tryParseJSON_any raw) as [parsed|e]; eexists; split;
    try reflexivity; cbn; auto.
Qed.

(** A reply that is an object has no [indexOf]. *)
Lemma tryParseJSON_any_object fields :
  tryParseJSON_any (JObj fields) = Throw (no_method (JObj fields) "indexOf").
Proof.
  unfold tryParseJSON_any, JSON_parse. cbn [ToString].
  destruct (has_key "toString" fields); reflexivity.
Qed.

Ltac no_call := left; eexists; split; [reflexivity|cbn; auto]; fail.

Ltac one_call :=
  right;
  match goal with
  | H : constructPrompt _ _ = Ok ?p |- _ => exists p
  end;
  unfold callGemini, called;
  match goal with
  | |- context [gemini ?w ?p] =>
      let raw := fresh "raw" in
      destruct (gemini w p) as [raw|?]; reflexivity
  end.

(** The ways an evaluation route can end: without a call of the backend
    and with status 400 or 500, or after exactly one call, with 500 and the
    failure's message when the call failed and with what [relay] makes of
    the reply otherwise. *)
Lemma Express_evaluate_all_outcome body w :
  (exists r, Express.evaluate_all body w = (Ok r, w) /\
             (Express.status r = 400 \/ Express.status r = 500)%Z) \/
  (exists prompt,
     match gemini w prompt with
     | Throw e => Express.evaluate_all body w
                  = Express.evaluation_failed e (called w prompt)
     | Ok raw => Express.evaluate_all body w
                 = mtry (Express.relay raw) Express.evaluation_failed (called w prompt)
     end).
Proof.
  unfold Express.evaluate_all.
  repeat (step; try no_call).
  rewrite Express_readVideoDB_spec.
  repeat (step; try no_call).
  one_call.
Qed.

Lemma Express_evaluate_metric_outcome body w :
  (exists r, Express.evaluate_metric body w = (Ok r, w) /\
             (Express.status r = 400 \/ Express.status r = 500)%Z) \/
  (exists prompt,
     match gemini w prompt with
     | Throw e => Express.evaluate_metric body w
                  = Express.evaluation_failed e (called w prompt)
     | Ok raw => Express.evaluate_metric body w
                 = mtry (Express.relay raw) Express.evaluation_failed (called w prompt)
     end).
Proof.
  unfold Express.evaluate_metric.
  repeat (step; try no_call).
  rewrite Express_readVideoDB_spec.
  repeat (step; try no_call).
  one_call.
Qed.

(** Either of the two evaluation routes of server.js. *)
Lemma Express_route_outcome (evaluate : value -> M Express.response) body w :
  evaluate = Express.evaluate_metric \/ evaluate = Express.evaluate_all ->
  (exists r, evaluate body w = (Ok r, w) /\
             (Express.status r = 400 \/ Express.status r = 500)%Z) \/
  (exists prompt,
     match gemini w prompt with
     | Throw e => evaluate body w = Express.evaluation_failed e (called w prompt)
     | Ok raw => evaluate body w
                 = mtry (Express.relay raw) Express.evaluation_failed (called w prompt)
     end).
Proof.
  intros [-> | ->];
    [apply Express_evaluate_metric_outcome | apply Express_evaluate_all_outcome].
Qed.

Lemma called_calls w p : calls (called w p) = (calls w ++ [p])%list.
Proof. reflexivity. Qed.

Lemma calls_grow w p : calls w <> (calls w ++ [p])%list.
Proof.
  intros E. apply (f_equal (@List.length string)) in E.
  rewrite List.length_app in E. simpl in E. lia.
Qed.

(** Property X1.  The two evaluation routes of server.js answer every
    request body, [null] and [undefined] included: the promise of the
    handler is fulfilled, never rejected, and the status sent is 200, 400
    or 500. *)
Theorem evaluation_routes_always_answer (body : value) (w : World) :
  forall evaluate,
    evaluate = Express.evaluate_metric \/ evaluate = Express.evaluate_all ->
    exists r w',
      evaluate body w = (Ok r, w') /\ In (Express.status r) [200; 400; 500]%Z.
Proof.
  intros evaluate Hroute.
  destruct (Express_route_outcome evaluate body w Hroute) as [(r & E & S) | (p & E)].
  - exists r, w. split; [exact E|]. simpl. destruct S as [-> | ->]; auto.
  - destruct (gemini w p) as [raw|e].
    + destruct (Express_relayed_outcome raw (called w p)) as (r & Er & S).
      exists r, (called w p). rewrite E, Er. split; [reflexivity|].
      simpl. destruct S as [-> | ->]; auto.
    + rewrite E. unfold Express.evaluation_failed, mret. do 2 eexists.
      split; [reflexivity|]. simpl; auto.
Qed.

Lemma evaluation_routes_always_answer_witness :
  exists r w',
    Express.evaluate_all JNull (backend_replying "{}") = (Ok r, w') /\
    In (Express.status r) [200; 400; 500]%Z.
Proof.
  apply (evaluation_routes_always_answer JNull (backend_replying "{}") Express.evaluate_all).
  right. reflexivity.
Defined.

(** Property X2.  An evaluation route of server.js calls the backend at
    most once, and does nothing else to the world: after the request the
    world is the one before, or the one before with a single prompt added
    to the calls. *)
Theorem evaluation_calls_the_backend_at_most_once (body : value) (w : World) :
  forall evaluate,
    evaluate = Express.evaluate_metric \/ evaluate = Express.evaluate_all ->
    snd (evaluate body w) = w \/ exists prompt, snd (evaluate body w) = called w prompt.
Proof.
  intros evaluate Hroute.
  destruct (Express_route_outcome evaluate body w Hroute) as [(r & E & S) | (p & E)].
  - left. now rewrite E.
  - right. exists p. destruct (gemini w p) as [raw|e]; rewrite E.
    + destruct (Express_relayed_outcome raw (called w p)) as (r & -> & _). reflexivity.
    + reflexivity.
Qed.

Lemma evaluation_calls_the_backend_at_most_once_witness :
  snd (Express.evaluate_metric example_body (backend_replying "{}")) = backend_replying "{}" \/
  exists prompt,
    snd (Express.evaluate_metric example_body (backend_replying "{}"))
    = called (backend_replying "{}") prompt.
Proof.
  apply (evaluation_calls_the_backend_at_most_once example_body (backend_replying "{}")
           Express.evaluate_metric).
  left. reflexivity.
Defined.

(** Property X3.  When the one call of the backend made for a request
    fails, the route answers 500 with [{ error }], the error being the
    message of the failure, or [Evaluation failed] when the message is
    empty. *)
Theorem backend_failure_answers_500 (body : value) (w : World) (prompt : string) (e : exn) :
  forall evaluate,
    evaluate = Express.evaluate_metric \/ evaluate = Express.evaluate_all ->
    calls (snd (evaluate body w)) = (calls w ++ [prompt])%list ->
    gemini w prompt = Throw e ->
    fst (evaluate body w)
    = Ok (Express.mkResponse 500
            (JObj [("error",
                    JStr (if String.eqb (exn_message e) "" then "Evaluation failed"
                          else exn_message e))])).
Proof.
  intros evaluate Hroute Hcalls Hfail.
  destruct (Express_route_outcome evaluate body w Hroute) as [(r & E & S) | (p & E)].
  - rewrite E in Hcalls. simpl in Hcalls. now apply calls_grow in Hcalls.
  - assert (Hp : p = prompt).
    { destruct (gemini w p) as [raw|e'].
      + destruct (Express_relayed_outcome raw (called w p)) as (r & Er & _).
        rewrite E, Er in Hcalls. simpl in Hcalls.
        now apply app_inj_tail in Hcalls.
      + rewrite E in Hcalls. simpl in Hcalls. now apply app_inj_tail in Hcalls. }
    subst p. rewrite Hfail in E. rewrite E.
    unfold Express.evaluation_failed, mret, message_or, js_or. cbn [fst ToBoolean].
    destruct (String.eqb (exn_message e) ""); reflexivity.
Qed.

(** Property X4.  When the one call of the backend made for a request
    returns [raw], a text or not, the route answers with what
    [tryParseJSON] makes of it: 200 with [ok: true], [raw] unchanged and
    [parsed] when it returns a truthy value, the same without [parsed]
    when it returns a falsy one, and 500 with the error's message when it
    throws.  For a text it is the helper of claims C1 and C2 and does not
    throw; for [undefined] and for an object the search for a brace
    throws a [TypeError]. *)
Theorem backend_reply_is_relayed (body : value) (w : World) (prompt : string) (raw : value) :
  forall evaluate,
    evaluate = Express.evaluate_metric \/ evaluate = Express.evaluate_all ->
    calls (snd (evaluate body w)) = (calls w ++ [prompt])%list ->
    gemini w prompt = Ok raw ->
    match tryParseJSON_any raw with
    | Ok parsed =>
        exists payload,
          fst (evaluate body w) = Ok (Express.mkResponse 200 payload) /\
          Get payload "ok" = Ok (JBool true) /\
          Get payload "raw" = Ok raw /\
          Get payload "parsed" = Ok (if ToBoolean parsed then parsed else JUndefined)
    | Throw e =>
        fst (evaluate body w)
        = Ok (Express.mkResponse 500
                (JObj [("error",
                        JStr (if String.eqb (exn_message e) "" then "Evaluation failed"
                              else exn_message e))]))
    end /\
    (forall text, raw = JStr text -> tryParseJSON_any raw = tryParseJSON text) /\
    (raw = JUndefined -> tryParseJSON_any raw = Throw (no_method raw "indexOf")) /\
    (forall fields, raw = JObj fields ->
       tryParseJSON_any raw = Throw (no_method raw "indexOf")).
Proof.
  intros evaluate Hroute Hcalls Hreply.
  split; [|split; [|split]].
  2:{ intros text ->. reflexivity. }
  2:{ intros ->. reflexivity. }
  2:{ intros fields ->. apply tryParseJSON_any_object. }
  destruct (Express_route_outcome evaluate body w Hroute) as [(r & E & S) | (p & E)].
  - rewrite E in Hcalls. simpl in Hcalls. now apply calls_grow in Hcalls.
  - assert (Hp : p = prompt).
    { destruct (gemini w p) as [raw'|e'].
      + destruct (Express_relayed_outcome raw' (called w p)) as (r & Er & _).
        rewrite E, Er in Hcalls. simpl in Hcalls.
        now apply app_inj_tail in Hcalls.
      + rewrite E in Hcalls. simpl in Hcalls. now apply app_inj_tail in Hcalls. }
    subst p. rewrite Hreply in E. rewrite E.
    unfold mtry. rewrite Express_relay_spec.
    destruct (tryParseJSON_any raw) as [parsed|e].
    + destruct (ToBoolean parsed) eqn:T; eexists; (split; [reflexivity|]);
        repeat split.
    + unfold Express.evaluation_failed, mret, message_or, js_or. cbn [fst ToBoolean].
      destruct (String.eqb (exn_message e) ""); reflexivity.
Qed.

(** *** The title store behind the Express routes *)

Lemma Express_readVideoDB_unreadable w e :
  read_error (fs w Express.VIDEO_DB) = Some e ->
  Express.readVideoDB w = (Throw e, w).
Proof.
  rewrite Express_readVideoDB_spec. unfold read_error.
  destruct (fs w Express.VIDEO_DB) as [| |content]; try discriminate.
  - now intros [= <-].
  - destruct (JSON.parse content); [discriminate|]. now intros [= <-].
Qed.

(** Property X5.  When the title store of the Express server is there but
    cannot be read, or does not hold JSON, every route that needs it
    answers 500 and leaves the world as it was: the title routes with
    their fixed messages ([Failed to write video DB] for a save that
    failed on the read), the evaluation routes with the message of the
    failure and without calling the backend. *)
Theorem unreadable_store_answers_500 (w : World) (e : exn) :
  read_error (fs w Express.VIDEO_DB) = Some e ->
  (forall url,
     ToBoolean url = true ->
     Express.get_video_title url w
     = (Ok (Express.mkResponse 500 (JObj [("error", JStr "Failed to read video DB")])), w)) /\
  (forall body url title,
     Get body "url" = Ok url -> ToBoolean url = true ->
     Get body "title" = Ok title -> ToBoolean title = true ->
     Express.post_video_title body w
     = (Ok (Express.mkResponse 500 (JObj [("error", JStr "Failed to write video DB")])), w)) /\
  (forall body url,
     Get body "url" = Ok url -> ToBoolean url = true ->
     Express.evaluate_all body w
     = (Ok (Express.mkResponse 500 (JObj [("error", message_or e "Evaluation failed")])), w)) /\
  (forall body url metric,
     Get body "url" = Ok url -> ToBoolean url = true ->
     Get body "metric" = Ok metric -> ToBoolean metric = true ->
     Express.evaluate_metric body w
     = (Ok (Express.mkResponse 500 (JObj [("error", message_or e "Evaluation failed")])), w)).
Proof.
  intros Hread. apply Express_readVideoDB_unreadable in Hread.
  split; [|split; [|split]].
  - intros url Hurl. unfold Express.get_video_title. rewrite Hurl. cbn [negb].
    unfold mtry, mbind. rewrite Hread. reflexivity.
  - intros body url title Hu Tu Ht Tt. unfold Express.post_video_title.
    rewrite Hu, Ht. run. rewrite Tu, Tt. cbn [negb orb]. run. rewrite Hread. reflexivity.
  - intros body url Hu Tu. unfold Express.evaluate_all. rewrite Hu. run.
    read_field body "videoType" Hu. read_field body "purpose" Hu.
    read_field body "keyConcepts" Hu. read_field body "justifications" Hu.
    read_field body "goal" Hu.
    rewrite Tu. cbn [negb]. run. rewrite Hread. reflexivity.
  - intros body url metric Hu Tu Hm Tm. unfold Express.evaluate_metric. rewrite Hu. run.
    read_field body "videoType" Hu. read_field body "purpose" Hu.
    read_field body "keyConcepts" Hu. read_field body "justifications" Hu.
    read_field body "goal" Hu.
    rewrite Hm. run. rewrite Tu, Tm. cbn [negb orb]. run. rewrite Hread. reflexivity.
Qed.

(** Property X6.  [POST /api/video-title] saves nothing unless both [url]
    and [title] are given: a body in which one of them is missing is
    answered 400 with [url and title required], the world left as it
    was. *)
Theorem title_is_saved_only_with_url_and_title (body : value) (w : World) :
  missing body "url" \/ missing body "title" ->
  Express.post_video_title body w
  = (Ok (Express.mkResponse 400 (JObj [("error", JStr "url and title required")])), w).
Proof.
  intros H.
  assert (Hany : exists k v, Get body k = Ok v).
  { destruct H as [(v & Hv & _) | (v & Hv & _)]; eauto. }
  destruct Hany as (k & v & Hk).
  unfold Express.post_video_title.
  destruct (Get_total body _ _ "url" Hk) as [u Hu]. rewrite Hu.
  destruct (Get_total body _ _ "title" Hk) as [t Ht]. rewrite Ht. run.
  assert (Hcond : negb (ToBoolean u) || negb (ToBoolean t) = true).
  { destruct H as [(u' & Hu' & F) | (t' & Ht' & F)].
    - rewrite Hu in Hu'. injection Hu' as <-. now rewrite F.
    - rewrite Ht in Ht'. injection Ht' as <-. rewrite F. apply orb_true_r. }
  rewrite Hcond. reflexivity.
Qed.

(** *** The Lambda handler *)

Lemma Lambda_respond_spec raw w :
  exists parsed,
    tryParseJSON raw = Ok parsed /\
    Lambda.respond raw w = (Ok (Lambda.buildResponse 200 (payload_of raw parsed)), w).
Proof.
  unfold Lambda.respond, Lambda.relay, mbind, lift, mret.
  rewrite tryParseJSON_any_string.
  destruct (tryParseJSON_total raw) as [v ->]. eauto.
Qed.

(** What [relay] makes of a reply, and what the handler answers with it:
    the search for braces can throw on a reply that is no text, and the
    handler's [catch] answers 500 then. *)
Lemma Lambda_relay_spec raw w :
  Lambda.relay raw w
  = (match tryParseJSON_any raw with
     | Ok parsed =>
         Ok (Lambda.buildResponse 200
               (JObj [("ok", JBool true); ("raw", raw); ("parsed", parsed)]))
     | Throw e => Throw e
     end, w).
Proof.
  unfold Lambda.relay, mbind, lift, mret.
  destruct (tryParseJSON_any raw) as [parsed|e]; reflexivity.
Qed.

Lemma Lambda_relayed_outcome raw w :
  exists code body,
    mtry (Lambda.relay raw) Lambda.internal_error w
    = (Ok (Lambda.buildResponse code body), w) /\
    (code = 200 \/ code = 500)%Z.
Proof.
  unfold mtry. rewrite Lambda_relay_spec.
  destruct (tryParseJSON_any raw) as [parsed|e]; do 2 eexists; split;
    try reflexivity; auto.
Qed.

Ltac lstep :=
  cbv beta iota delta [mbind lift mret mtry mthrow];
  match goal with
  | |- context [(if ?b then _ else _) _] => destruct b eqn:?
  | |- context [match ?c with Ok _ => _ | Throw _ => _ end] =>
      lazymatch c with
      | fst _ => fail
      | _ => destruct c eqn:?
      end
  | |- context [match ?f with NoEntry => _ | Denied => _ | Text _ => _ end] =>
      destruct f eqn:?
  | |- context [write_error ?w ?path] => destruct (write_error w path) eqn:?
  | |- context [match JSON_stringify ?v ?g with JStr _ => _ | _ => _ end] =>
      destruct (JSON_stringify v g) eqn:?
  end.

Ltac quiet_answer :=
  match goal with
  | |- (exists _ _ _, (Ok _, _) = _ /\ _) \/ _ =>
      left; do 3 eexists; split; [reflexivity|];
      split; [simpl; auto 6|]; split; reflexivity
  end.

Ltac lambda_call :=
  right;
  match goal with
  | H : constructPrompt _ _ = Ok ?p |- _ => exists p
  end;
  unfold callGemini, called;
  match goal with
  | |- context [gemini ?w ?p] =>
      destruct (gemini w p) as [raw|?]; reflexivity
  end.

(** The method the handler routes by is always found for an event that is
    an object: line 98 cannot throw. *)
Lemma Lambda_method_defined event m w :
  event <> JUndefined -> event <> JNull ->
  exists method,
    (if ToBoolean m then mret m
     else rc <~ lift (Get event "requestContext") ;;
          http <~ lift (Get_optional rc "http") ;;
          m2 <~ lift (Get_optional http "method") ;;
          mret (js_or m2 (JStr "GET"))) w = (Ok method, w) /\
    (ToBoolean m = true -> method = m).
Proof.
  intros H1 H2.
  destruct (ToBoolean m); [now exists m|].
  destruct (Get_defined event "requestContext" H1 H2) as [rc ->]. run.
  destruct (Get_optional_total rc "http") as [http ->]. run.
  destruct (Get_optional_total http "method") as [m2 ->]. run.
  eexists; split; [reflexivity|discriminate].
Qed.

(** The ways the handler can end for an event that is an object: without
    a call of the backend, or after exactly one call, with 500 and the
    failure's message when the call failed and with what [relay] makes of
    the reply otherwise. *)
Lemma Lambda_handler_outcome event w :
  event <> JUndefined -> event <> JNull ->
  (exists code body w',
     Lambda.handler event w = (Ok (Lambda.buildResponse code body), w') /\
     In code [200; 400; 404; 500]%Z /\
     calls w' = calls w /\ gemini w' = gemini w) \/
  (exists prompt,
     match gemini w prompt with
     | Throw e =>
         Lambda.handler event w
         = (Ok (Lambda.buildResponse 500 (JObj [("error", message_or e "Internal error")])),
            called w prompt)
     | Ok raw => Lambda.handler event w
                 = mtry (Lambda.relay raw) Lambda.internal_error (called w prompt)
     end).
Proof.
  intros H1 H2. unfold Lambda.handler.
  destruct (Get_defined event "path" H1 H2) as [p ->].
  destruct (Get_defined event "httpMethod" H1 H2) as [m ->].
  run.
  destruct (Lambda_method_defined event m w H1 H2) as (method & E & _).
  unfold mret, mbind, lift in E. rewrite E. clear E.
  unfold Lambda.video_title_get, Lambda.video_title_post, Lambda.evaluate_metric,
    Lambda.evaluate_all, Lambda.writeVideoDB, Lambda.internal_error.
  unfold writeFile.
  repeat (lstep; rewrite ?Lambda_readVideoDB_spec; try quiet_answer).
  all: lambda_call.
Qed.

Lemma Lambda_handler_nullish event w :
  event = JUndefined \/ event = JNull ->
  exists e, Lambda.handler event w = (Throw e, w).
Proof. intros [-> | ->]; eexists; reflexivity. Qed.

(** Property X7.  The Lambda handler answers every event that is not
    [null] or [undefined]: it returns a response built by [buildResponse]
    with status 200, 400, 404 or 500 and calls the backend at most once;
    for [null] and [undefined] it rejects, the event being read before the
    [try]. *)
Theorem handler_answers_every_event_object (event : value) (w : World) :
  match event with
  | JUndefined | JNull => exists e, Lambda.handler event w = (Throw e, w)
  | _ =>
      exists code body w',
        Lambda.handler event w = (Ok (Lambda.buildResponse code body), w') /\
        In code [200; 400; 404; 500]%Z /\
        (calls w' = calls w \/ exists prompt, calls w' = (calls w ++ [prompt])%list)
  end.
Proof.
  assert (H : event <> JUndefined -> event <> JNull ->
              exists code body w',
                Lambda.handler event w = (Ok (Lambda.buildResponse code body), w') /\
                In code [200; 400; 404; 500]%Z /\
                (calls w' = calls w \/ exists prompt, calls w' = (calls w ++ [prompt])%list)).
  { intros H1 H2.
    destruct (Lambda_handler_outcome event w H1 H2)
      as [(code & body & w' & E & C & L & _) | (p & E)].
    - exists code, body, w'. auto.
    - destruct (gemini w p) as [raw|e].
      + destruct (Lambda_relayed_outcome raw (called w p)) as (code & body & Er & C).
        rewrite Er in E. do 3 eexists. split; [exact E|].
        split; [simpl; destruct C as [-> | ->]; auto|]. right. exists p. reflexivity.
      + do 3 eexists. split; [exact E|].
        split; [simpl; auto|]. right. exists p. reflexivity. }
  destruct event; try (apply H; discriminate);
    apply Lambda_handler_nullish; auto.
Qed.

(** Property X8.  When the call of the backend made by the Lambda handler
    fails, the handler answers 500 with the message of the failure, or
    with [Internal error] when the message is empty. *)
Theorem handler_backend_failure_answers_500
    (event : value) (w : World) (prompt : string) (e : exn) :
  calls (snd (Lambda.handler event w)) = (calls w ++ [prompt])%list ->
  gemini w prompt = Throw e ->
  fst (Lambda.handler event w)
  = Ok (Lambda.buildResponse 500
          (JObj [("error",
                  JStr (if String.eqb (exn_message e) "" then "Internal error"
                        else exn_message e))])).
Proof.
  intros Hcalls Hfail.
  assert (H1 : event <> JUndefined).
  { intros ->. simpl in Hcalls. now apply calls_grow in Hcalls. }
  assert (H2 : event <> JNull).
  { intros ->. simpl in Hcalls. now apply calls_grow in Hcalls. }
  destruct (Lambda_handler_outcome event w H1 H2)
    as [(code & body & w' & E & C & L & _) | (p & E)].
  - rewrite E in Hcalls. simpl in Hcalls. rewrite L in Hcalls.
    now apply calls_grow in Hcalls.
  - assert (Hp : p = prompt).
    { destruct (gemini w p) as [raw|e'].
      + destruct (Lambda_relayed_outcome raw (called w p)) as (code & b & Er & _).
        rewrite E, Er in Hcalls. simpl in Hcalls. now apply app_inj_tail in Hcalls.
      + rewrite E in Hcalls. simpl in Hcalls. now apply app_inj_tail in Hcalls. }
    subst p. rewrite Hfail in E. rewrite E.
    unfold message_or, js_or. cbn [fst ToBoolean].
    destruct (String.eqb (exn_message e) ""); reflexivity.
Qed.

(** Property X9.  When the call of the backend made by the Lambda handler
    returns [raw], a text or not, the handler answers with what
    [tryParseJSON] makes of it: 200 with [ok: true], [raw] unchanged and a
    field [parsed] that is always there when it returns a value ([null]
    for a text that cannot be parsed), and 500 with the error's message
    when it throws.  For a text it returns a value; for [undefined] and
    for an object the search for a brace throws a [TypeError]. *)
Theorem handler_relays_reply_with_parsed
    (event : value) (w : World) (prompt : string) (raw : value) :
  calls (snd (Lambda.handler event w)) = (calls w ++ [prompt])%list ->
  gemini w prompt = Ok raw ->
  Lambda.handler event w
  = (match tryParseJSON_any raw with
     | Ok parsed =>
         Ok (Lambda.buildResponse 200
               (JObj [("ok", JBool true); ("raw", raw); ("parsed", parsed)]))
     | Throw e =>
         Ok (Lambda.buildResponse 500
               (JObj [("error",
                       JStr (if String.eqb (exn_message e) "" then "Internal error"
                             else exn_message e))]))
     end, called w prompt) /\
  (forall text, raw = JStr text ->
     exists parsed, tryParseJSON text = Ok parsed /\ tryParseJSON_any raw = Ok parsed) /\
  (raw = JUndefined -> tryParseJSON_any raw = Throw (no_method raw "indexOf")) /\
  (forall fields, raw = JObj fields ->
     tryParseJSON_any raw = Throw (no_method raw "indexOf")).
Proof.
  intros Hcalls Hreply.
  split; [|split; [|split]].
  2:{ intros text ->. rewrite tryParseJSON_any_string. destruct (tryParseJSON_total text); eauto. }
  2:{ intros ->. reflexivity. }
  2:{ intros fields ->. apply tryParseJSON_any_object. }
  assert (H1 : event <> JUndefined).
  { intros ->. simpl in Hcalls. now apply calls_grow in Hcalls. }
  assert (H2 : event <> JNull).
  { intros ->. simpl in Hcalls. now apply calls_grow in Hcalls. }
  destruct (Lambda_handler_outcome event w H1 H2)
    as [(code & body & w' & E & C & L & _) | (p & E)].
  - rewrite E in Hcalls. simpl in Hcalls. rewrite L in Hcalls.
    now apply calls_grow in Hcalls.
  - assert (Hp : p = prompt).
    { destruct (gemini w p) as [raw'|e'].
      + destruct (Lambda_relayed_outcome raw' (called w p)) as (code & b & Er & _).
        rewrite E, Er in Hcalls. simpl in Hcalls. now apply app_inj_tail in Hcalls.
      + rewrite E in Hcalls. simpl in Hcalls. now apply app_inj_tail in Hcalls. }
    subst p. rewrite Hreply in E. rewrite E.
    unfold mtry. rewrite Lambda_relay_spec.
    destruct (tryParseJSON_any raw) as [parsed|e]; [reflexivity|].
    unfold Lambda.internal_error, mret, message_or, js_or. cbn [ToBoolean].
    destruct (String.eqb (exn_message e) ""); reflexivity.
Qed.

(** Property X10.  [readVideoDB] of the Lambda never fails and changes
    nothing: it returns the JSON of the file under [/tmp] when that file
    holds JSON, else the JSON of the bundled file when that one does, else
    the empty object. *)
Theorem readVideoDB_falls_back (w : World) :
  exists db,
    Lambda.readVideoDB w = (Ok db, w) /\
    match file_json (fs w Lambda.VIDEO_DB_TMP),
          file_json (fs w Lambda.VIDEO_DB_BUNDLED) with
    | Some written, _ => db = written
    | None, Some bundled => db = bundled
    | None, None => db = JObj []
    end.
Proof.
  rewrite Lambda_readVideoDB_spec. eexists. split; [reflexivity|].
  destruct (file_json (fs w Lambda.VIDEO_DB_TMP));
    destruct (file_json (fs w Lambda.VIDEO_DB_BUNDLED)); reflexivity.
Qed.

(** *** Routing *)

Lemma Lambda_handler_routes event path method w :
  Get event "path" = Ok (JStr path) -> path <> "" ->
  Get event "httpMethod" = Ok (JStr method) -> method <> "" ->
  Lambda.handler event w
  = mtry (match route_of path method with
          | TitleGet => Lambda.video_title_get event
          | TitlePost => Lambda.video_title_post event
          | EvaluateMetric => Lambda.evaluate_metric event
          | EvaluateAll => Lambda.evaluate_all event
          | NotFound => mret (Lambda.buildResponse 404 (JObj [("error", JStr "Not found")]))
          end)
         (fun err =>
            mret (Lambda.buildResponse 500 (JObj [("error", message_or err "Internal error")])))
         w.
Proof.
  intros Hp Np Hm Nm. unfold Lambda.handler. rewrite Hp, Hm.
  apply String.eqb_neq in Np, Nm.
  run. cbv zeta. unfold js_or. cbn [ToBoolean]. rewrite Np, Nm. cbn [negb].
  unfold route_of, Lambda.startsWith, is_string.
  run.
  destruct (Str.startsWith "/video-title" path); cbn [andb];
    destruct (String.eqb method "GET"); try reflexivity;
    destruct (String.eqb method "POST"); try reflexivity;
    destruct (Str.startsWith "/evaluate-metric" path); try reflexivity;
    destruct (Str.startsWith "/evaluate-all" path); reflexivity.
Qed.

Ltac routed :=
  cbn [fst];
  match goal with
  | |- exists _ _, _ => do 2 eexists; split; [reflexivity|auto]
  | |- True => exact I
  end.

(** A route that answers does so with 200 or 400. *)
Lemma Lambda_routes_codes event w :
  let answers (m : M value) :=
    match fst (m w) with
    | Ok r => exists code body,
        r = Lambda.buildResponse code body /\ (code = 200 \/ code = 400)%Z
    | Throw _ => True
    end in
  answers (Lambda.video_title_get event) /\
  answers (Lambda.video_title_post event) /\
  answers (Lambda.evaluate_metric event) /\
  answers (Lambda.evaluate_all event).
Proof.
  cbv zeta.
  unfold Lambda.video_title_get, Lambda.video_title_post, Lambda.evaluate_metric,
    Lambda.evaluate_all, Lambda.writeVideoDB, Lambda.relay.
  unfold writeFile, callGemini.
  repeat split.
  all: repeat (lstep; rewrite ?Lambda_readVideoDB_spec; try routed).
Qed.

(** Property X11.  For an event with a path and a method, the Lambda
    handler answers 404 exactly when the request is off the four routes
    (a path under [/video-title] with GET or POST, a path under
    [/evaluate-metric] or [/evaluate-all] with POST); the reply is then
    [{ error: 'Not found' }] and the world is left as it was. *)
Theorem handler_answers_404_exactly_off_route
    (event : value) (path method : string) (w : World) :
  Get event "path" = Ok (JStr path) -> path <> "" ->
  Get event "httpMethod" = Ok (JStr method) -> method <> "" ->
  exists code body w',
    Lambda.handler event w = (Ok (Lambda.buildResponse code body), w') /\
    (code = 404%Z <-> route_of path method = NotFound) /\
    (route_of path method = NotFound ->
     body = JObj [("error", JStr "Not found")] /\ w' = w).
Proof.
  intros Hp Np Hm Nm. rewrite (Lambda_handler_routes event path method w Hp Np Hm Nm).
  destruct (Lambda_routes_codes event w) as (G & P & EM & EA).
  unfold mtry.
  assert (Hroute : forall m : M value,
             match fst (m w) with
             | Ok r => exists code body,
                 r = Lambda.buildResponse code body /\ (code = 200 \/ code = 400)%Z
             | Throw _ => True
             end ->
             exists code body w',
               (let (c, w0) := m w in
                match c with
                | Ok a => (Ok a, w0)
                | Throw e =>
                    mret (Lambda.buildResponse 500
                            (JObj [("error", message_or e "Internal error")])) w0
                end) = (Ok (Lambda.buildResponse code body), w') /\ code <> 404%Z).
  { intros m H. destruct (m w) as [[r|e] w0]; cbn [fst] in H.
    - destruct H as (code & body & -> & C). exists code, body, w0.
      split; [reflexivity|]. lia.
    - do 3 eexists. split; [reflexivity|]. lia. }
  destruct (route_of path method).
  1: destruct (Hroute _ G) as (code & body & w' & E & C).
  2: destruct (Hroute _ P) as (code & body & w' & E & C).
  3: destruct (Hroute _ EM) as (code & body & w' & E & C).
  4: destruct (Hroute _ EA) as (code & body & w' & E & C).
  1-4: exists code, body, w'; (split; [exact E|]);
       (split; [split; [contradiction|discriminate]|discriminate]).
  do 3 eexists. split; [reflexivity|]. repeat split.
Qed.

(** Property X12.  A POST to one of the Lambda routes whose body is not
    JSON is answered 500 with the message of the parser, the world left as
    it was: the title store is not read and the backend is not called. *)
Theorem handler_rejects_malformed_body
    (event : value) (path : string) (w : World) (e : exn) :
  Get event "path" = Ok (JStr path) -> path <> "" ->
  Get event "httpMethod" = Ok (JStr "POST") ->
  route_of path "POST" <> NotFound ->
  Lambda.parse_body event = Throw e ->
  Lambda.handler event w
  = (Ok (Lambda.buildResponse 500 (JObj [("error", message_or e "Internal error")])), w).
Proof.
  intros Hp Np Hm Hroute Hbody.
  rewrite (Lambda_handler_routes event path "POST" w Hp Np Hm ltac:(discriminate)).
  assert (G : route_of path "POST" <> TitleGet).
  { unfold route_of. cbn [String.eqb Ascii.eqb Bool.eqb]. rewrite andb_false_r.
    repeat match goal with |- context [if ?b then _ else _] => destruct b end; discriminate. }
  unfold mtry.
  destruct (route_of path "POST"); try contradiction;
    unfold Lambda.video_title_post, Lambda.evaluate_metric, Lambda.evaluate_all;
    run; rewrite Hbody; reflexivity.
Qed.

(** Property X13.  A POST to one of the Lambda routes whose body lacks a
    required field ([url] or [title] for [/video-title], [url] or [metric]
    for [/evaluate-metric], [url] for [/evaluate-all]) is answered 400 with
    the message of that route, the world left as it was. *)
Theorem handler_validates_posted_fields
    (event : value) (path : string) (body : value) (w : World) :
  Get event "path" = Ok (JStr path) -> path <> "" ->
  Get event "httpMethod" = Ok (JStr "POST") ->
  Lambda.parse_body event = Ok body ->
  match route_of path "POST" with
  | TitlePost => missing body "url" \/ missing body "title"
  | EvaluateMetric => missing body "url" \/ missing body "metric"
  | EvaluateAll => missing body "url"
  | TitleGet | NotFound => False
  end ->
  Lambda.handler event w
  = (Ok (Lambda.buildResponse 400
           (JObj [("error", JStr match route_of path "POST" with
                                 | TitlePost => "url and title required"
                                 | EvaluateMetric => "Missing url or metric"
                                 | _ => "Missing url"
                                 end)])), w).
Proof.
  intros Hp Np Hm Hbody Hmissing.
  rewrite (Lambda_handler_routes event path "POST" w Hp Np Hm ltac:(discriminate)).
  unfold mtry.
  assert (Hany : forall k k', missing body k -> exists v, Get body k' = Ok v).
  { intros k k' (v & Hv & _). exact (Get_total body k v k' Hv). }
  assert (Hor : forall a b x y,
             Get body a = Ok x -> Get body b = Ok y ->
             missing body a \/ missing body b ->
             negb (ToBoolean x) || negb (ToBoolean y) = true).
  { intros a b x y Hx Hy [(x' & Hx' & F) | (y' & Hy' & F)].
    - rewrite Hx in Hx'. injection Hx' as <-. now rewrite F.
    - rewrite Hy in Hy'. injection Hy' as <-. rewrite F. apply orb_true_r. }
  destruct (route_of path "POST"); try contradiction;
    unfold Lambda.video_title_post, Lambda.evaluate_metric, Lambda.evaluate_all;
    run; rewrite Hbody.
  - assert (Hk : exists k, missing body k) by (destruct Hmissing; eauto).
    destruct Hk as [k Hk].
    destruct (Hany k "url" Hk) as [u Hu]. destruct (Hany k "title" Hk) as [t Ht].
    rewrite Hu. run. rewrite Ht. run.
    rewrite (Hor "url" "title" u t Hu Ht Hmissing). reflexivity.
  - assert (Hk : exists k, missing body k) by (destruct Hmissing; eauto).
    destruct Hk as [k Hk].
    destruct (Hany k "url" Hk) as [u Hu]. destruct (Hany k "metric" Hk) as [m Hmetric].
    rewrite Hu. run.
    read_field body "videoType" Hu. read_field body "purpose" Hu.
    read_field body "keyConcepts" Hu. read_field body "justifications" Hu.
    read_field body "goal" Hu. rewrite Hmetric. run.
    rewrite (Hor "url" "metric" u m Hu Hmetric Hmissing). reflexivity.
  - destruct Hmissing as (u & Hu & Fu). rewrite Hu. run.
    read_field body "videoType" Hu. read_field body "purpose" Hu.
    read_field body "keyConcepts" Hu. read_field body "justifications" Hu.
    read_field body "goal" Hu. rewrite Fu. reflexivity.
Qed.

(** An event without a body is an empty request. *)
Lemma parse_body_absent event b :
  Get event "body" = Ok b -> ToBoolean b = false ->
  Lambda.parse_body event = Ok (JObj []).
Proof.
  intros Hb Fb. unfold Lambda.parse_body. rewrite Hb. cbn [bind].
  unfold js_or. rewrite Fb. reflexivity.
Qed.

(* ===================================================================== *)
(** ** A saved title is read back *)
(* ===================================================================== *)

(** *** A string written by JSON.stringify is read back by JSON.parse *)

Lemma chars_app (a b : string) :
  JSON.chars (a ++ b) = (JSON.chars a ++ JSON.chars b)%list.
Proof.
  unfold JSON.chars. induction a as [|c a IH]; simpl; [reflexivity | now rewrite IH].
Qed.

Lemma escape_parse (c : ascii) (rest acc : list ascii) :
  JSON.parse_chars (JSON.chars (Stringify.escape c) ++ rest)%list acc
  = JSON.parse_chars rest (c :: acc).
Proof.
  destruct c as [[] [] [] [] [] [] [] []]; reflexivity.
Qed.

Lemma string_of_list_snoc (l : list ascii) (c : ascii) (s : string) :
  string_of_list_ascii (l ++ [c]) ++ s = string_of_list_ascii l ++ String c s.
Proof. induction l as [|a l IH]; simpl; [reflexivity | now rewrite IH]. Qed.

Lemma parse_chars_quote (s : string) : forall (rest acc : list ascii),
  JSON.parse_chars (JSON.chars (Stringify.quote_chars s) ++ JSON.dquote :: rest)%list acc
  = Some (string_of_list_ascii (rev acc) ++ s, rest).
Proof.
  induction s as [|c s IH]; intros rest acc.
  - cbn [Stringify.quote_chars JSON.chars list_ascii_of_string app JSON.parse_chars].
    rewrite Ascii.eqb_refl. now rewrite append_nil_r.
  - cbn [Stringify.quote_chars]. rewrite chars_app, <- List.app_assoc, escape_parse, IH.
    cbn [rev]. now rewrite string_of_list_snoc.
Qed.

(** The text [quote s], read from its opening quote. *)
Lemma parse_quote (s : string) (rest : list ascii) :
  (JSON.chars (Stringify.quote s) ++ rest)%list
  = (JSON.dquote :: JSON.chars (Stringify.quote_chars s) ++ JSON.dquote :: rest)%list.
Proof.
  unfold Stringify.quote, DQ. rewrite !chars_app, <- !List.app_assoc. reflexivity.
Qed.

(** *** The text of a title store is read back *)

Lemma serialize_store (fields : list (string * value)) :
  title_store fields = true ->
  Stringify.serialize "  " "" (JObj fields)
  = Some (Stringify.wrap "  " "" "  " "{" "}" (map title_line fields)).
Proof.
  intros H. cbn [Stringify.serialize]. f_equal. f_equal.
  induction fields as [|[k v] fields IH]; [reflexivity|].
  cbn [title_store forallb snd] in H. apply andb_prop in H as [Hv H].
  destruct v; try discriminate.
  cbn [Stringify.serialize map]. rewrite (IH H). reflexivity.
Qed.

Lemma store_text_members (kv : string * value) (rest : list (string * value)) tail :
  (JSON.chars (LF ++ "  " ++ Str.join ("," ++ LF ++ "  ") (map title_line (kv :: rest))
               ++ LF ++ "}") ++ tail)%list
  = (ascii_of_nat 10 :: " " :: " " :: JSON.chars (title_line kv)
     ++ match rest with
        | [] => ascii_of_nat 10 :: "}" :: tail
        | _ => "," :: JSON.chars (LF ++ "  "
                 ++ Str.join ("," ++ LF ++ "  ") (map title_line rest) ++ LF ++ "}") ++ tail
        end)%list%char.
Proof.
  destruct rest as [|kv' rest].
  - cbn [map Str.join String.concat]. rewrite !chars_app, <- !List.app_assoc. reflexivity.
  - cbn [map]. rewrite join_cons.
    replace (LF ++ "  " ++ (title_line kv ++ ("," ++ LF ++ "  ")
                ++ Str.join ("," ++ LF ++ "  ") (title_line kv' :: map title_line rest))
             ++ LF ++ "}")
      with ((LF ++ "  ") ++ title_line kv ++ ","
            ++ (LF ++ "  " ++ Str.join ("," ++ LF ++ "  ") (title_line kv' :: map title_line rest)
                ++ LF ++ "}"))
      by (rewrite !append_assoc; reflexivity).
    rewrite (chars_app (LF ++ "  ")), (chars_app (title_line kv)), (chars_app ",").
    rewrite <- !List.app_assoc. reflexivity.
Qed.

Lemma title_line_chars k t rest :
  (JSON.chars (title_line (k, JStr t)) ++ rest)%list
  = (JSON.dquote :: JSON.chars (Stringify.quote_chars k) ++ JSON.dquote :: ":" :: " "
       :: JSON.dquote :: JSON.chars (Stringify.quote_chars t) ++ JSON.dquote :: rest)%list%char.
Proof.
  unfold title_line. cbn [fst snd].
  rewrite chars_app, <- List.app_assoc, parse_quote.
  rewrite chars_app, <- List.app_assoc.
  change (JSON.chars ": ") with [":"; " "]%char. cbn [app].
  rewrite parse_quote. reflexivity.
Qed.

Lemma parse_value_quoted (f : nat) (t : string) (rest : list ascii) :
  JSON.parse_value (S f)
    (" " :: JSON.dquote :: JSON.chars (Stringify.quote_chars t) ++ JSON.dquote :: rest)%list%char
  = JSON.POk (JStr t) rest.
Proof.
  cbn [JSON.parse_value].
  change (JSON.skip_ws (" " :: JSON.dquote :: ?x)%list%char) with (JSON.dquote :: x)%list.
  cbv beta iota.
  change (Ascii.eqb JSON.dquote "[") with false.
  change (Ascii.eqb JSON.dquote "{") with false.
  change (Ascii.eqb JSON.dquote JSON.dquote) with true.
  cbv beta iota. rewrite parse_chars_quote. reflexivity.
Qed.

(** Reading the members of a store text: either the fuel runs out or the
    members are read in order. *)
Lemma parse_store_members : forall (f : nat) (fields : list (string * value)) acc tail,
  fields <> [] ->
  title_store fields = true ->
  let r := JSON.parse_members f
             (JSON.chars (LF ++ "  " ++ Str.join ("," ++ LF ++ "  ") (map title_line fields)
                          ++ LF ++ "}") ++ tail)%list acc in
  r = JSON.PFuel \/
  r = JSON.POk (JObj (fold_left (fun a kv => obj_set a (fst kv) (snd kv)) fields acc)) tail.
Proof.
  induction f as [|f IH]; intros fields acc tail Hne Hflat r; [now left|].
  destruct fields as [|[k v] rest]; [congruence|].
  cbn [title_store forallb snd] in Hflat. apply andb_prop in Hflat as [Hv Hflat].
  destruct v as [| | | |t| | |]; try discriminate.
  subst r. rewrite store_text_members, title_line_chars.
  cbn [JSON.parse_members].
  change (JSON.next_is JSON.dquote
            (ascii_of_nat 10 :: " " :: " " :: JSON.dquote
               :: JSON.chars (Stringify.quote_chars k) ++ _)%list%char)
    with (Some (JSON.chars (Stringify.quote_chars k) ++ JSON.dquote :: ":" :: " "
       :: JSON.dquote :: JSON.chars (Stringify.quote_chars t) ++ JSON.dquote ::
         match rest with
        | [] => ascii_of_nat 10 :: "}" :: tail
        | _ => "," :: JSON.chars (LF ++ "  "
                 ++ Str.join ("," ++ LF ++ "  ") (map title_line rest) ++ LF ++ "}") ++ tail
        end)%list%char).
  cbv beta iota.
  rewrite parse_chars_quote. cbn [rev string_of_list_ascii String.append].
  change (JSON.next_is ":" (":" :: " " :: ?x)%list%char) with (Some (" " :: x)%list%char).
  cbv beta iota.
  destruct f as [|f']; [now left|].
  rewrite parse_value_quoted.
  destruct rest as [|kv' rest'].
  - right. reflexivity.
  - change (JSON.next_is "," ("," :: ?x)%list%char) with (Some x).
    cbv beta iota.
    apply (IH (kv' :: rest') (obj_set acc k (JStr t)) tail); [discriminate | exact Hflat].
Qed.

Lemma parse_store (fields : list (string * value)) (text : string) :
  title_store fields = true ->
  Stringify.serialize "  " "" (JObj fields) = Some text ->
  JSON.parse text = Ok (JObj (parsed_members fields)).
Proof.
  intros Hflat. rewrite (serialize_store fields Hflat). intros [= <-].
  destruct fields as [|kv rest]; [reflexivity|].
  unfold Stringify.wrap. cbn [map]. change (String.eqb "  " "") with false. cbv iota.
  set (body := LF ++ "  " ++ Str.join ("," ++ LF ++ "  ") (map title_line (kv :: rest))
               ++ LF ++ "}").
  assert (E : "{" ++ LF ++ "  " ++ Str.join ("," ++ LF ++ "  ")
                (title_line kv :: map title_line rest) ++ LF ++ "" ++ "}"
              = String "{" body) by reflexivity.
  rewrite E. unfold JSON.parse.
  change (list_ascii_of_string (String "{" body)) with ("{"%char :: JSON.chars body).
  set (n := List.length ("{"%char :: JSON.chars body)).
  replace (2 * n + 2)%nat with (S (2 * n + 1)) by lia.
  cbn [JSON.parse_value].
  change (JSON.skip_ws ("{"%char :: JSON.chars body)) with ("{"%char :: JSON.chars body).
  cbv beta iota.
  change (Ascii.eqb "{" "[") with false. change (Ascii.eqb "{" "{") with true. cbv iota.
  pose proof (parse_store_members (2 * n + 1) (kv :: rest) [] [] ltac:(discriminate) Hflat) as H.
  cbv zeta in H. fold body in H. rewrite List.app_nil_r in H.
  assert (Hnext : JSON.next_is "}" (JSON.chars body) = None).
  { subst body. pose proof (store_text_members kv rest []) as T.
    rewrite List.app_nil_r in T. rewrite T.
    destruct kv as [k v]. cbn [title_store forallb snd] in Hflat.
    apply andb_prop in Hflat as [Hv _]. destruct v; try discriminate.
    rewrite title_line_chars. reflexivity. }
  rewrite Hnext.
  destruct H as [H | H].
  - exfalso. revert H. apply JSONFacts.parse_fuel. subst n. simpl. lia.
  - rewrite H. reflexivity.
Qed.

(** *** Defining properties *)

Lemma lookup_none_notin k (l : list (string * value)) :
  lookup k l = None <-> ~ In k (map fst l).
Proof.
  induction l as [|[k' v'] l IH]; cbn [lookup map fst In]; [tauto|].
  destruct (String.eqb_spec k' k) as [->|N].
  - split; [discriminate | intros H; exfalso; apply H; now left].
  - rewrite IH. tauto.
Qed.

Lemma lookup_replace_field k k' v (l : list (string * value)) :
  lookup k (replace_field k' v l)
  = if String.eqb k' k
    then match lookup k' l with Some _ => Some v | None => None end
    else lookup k l.
Proof.
  induction l as [|[k2 v2] l IH]; cbn [replace_field lookup].
  - now destruct (String.eqb k' k).
  - destruct (String.eqb_spec k2 k') as [->|N]; cbn [lookup].
    + rewrite ?String.eqb_refl. destruct (String.eqb k' k); reflexivity.
    + rewrite IH. destruct (String.eqb_spec k' k) as [->|N'].
      * apply String.eqb_neq in N. now rewrite N.
      * reflexivity.
Qed.

Lemma keys_replace_field k v (l : list (string * value)) :
  map fst (replace_field k v l) = map fst l.
Proof.
  induction l as [|[k2 v2] l IH]; cbn [replace_field map fst]; [reflexivity|].
  destruct (String.eqb_spec k2 k) as [->|N]; cbn [map fst]; [reflexivity | now rewrite IH].
Qed.

Lemma lookup_insert_index i k k' v (l : list (string * value)) :
  lookup k' l = None ->
  lookup k (insert_index i k' v l)
  = if String.eqb k' k then Some v else lookup k l.
Proof.
  induction l as [|[k2 v2] l IH]; intros Hnew; cbn [insert_index lookup].
  - reflexivity.
  - cbn [lookup] in Hnew. destruct (String.eqb_spec k2 k') as [->|N]; [discriminate|].
    assert (Hhead : lookup k ((k', v) :: (k2, v2) :: l)
                    = if String.eqb k' k then Some v else lookup k ((k2, v2) :: l))
      by reflexivity.
    destruct (array_index k2) as [j|]; [|exact Hhead].
    destruct (j <? i)%N; [|exact Hhead].
    cbn [lookup]. rewrite (IH Hnew).
    destruct (String.eqb_spec k2 k) as [->|N2]; [|reflexivity].
    apply not_eq_sym in N. apply String.eqb_neq in N. now rewrite N.
Qed.

Lemma keys_insert_index i k v (l : list (string * value)) x :
  In x (map fst (insert_index i k v l)) <-> x = k \/ In x (map fst l).
Proof.
  induction l as [|[k2 v2] l IH]; cbn [insert_index map fst In].
  - intuition.
  - destruct (array_index k2) as [j|]; [destruct (j <? i)%N|]; cbn [map fst In];
      rewrite ?IH; intuition.
Qed.

Lemma nodup_insert_index i k v (l : list (string * value)) :
  ~ In k (map fst l) -> NoDup (map fst l) -> NoDup (map fst (insert_index i k v l)).
Proof.
  induction l as [|[k2 v2] l IH]; intros Hnew Hnd; cbn [insert_index map fst].
  - constructor; [intros []|constructor].
  - cbn [map fst] in Hnew, Hnd. inversion Hnd as [|? ? Hk2 Hl]; subst.
    assert (Hhead : NoDup (k :: k2 :: map fst l)) by (constructor; assumption).
    destruct (array_index k2) as [j|]; [|exact Hhead].
    destruct (j <? i)%N; [|exact Hhead].
    cbn [map fst]. constructor.
    + rewrite keys_insert_index. cbn [In] in Hnew. intuition.
    + apply IH; [cbn [In] in Hnew; intuition | assumption].
Qed.

(** The entry a definition leaves for every key. *)
Lemma lookup_obj_set k k' v (l : list (string * value)) :
  lookup k (obj_set l k' v) = if String.eqb k' k then Some v else lookup k l.
Proof.
  unfold obj_set, has_key.
  destruct (lookup k' l) as [old|] eqn:E.
  - rewrite lookup_replace_field, E. reflexivity.
  - destruct (array_index k') as [i|].
    + now apply lookup_insert_index.
    + rewrite lookup_app. cbn [lookup].
      destruct (String.eqb_spec k' k) as [->|N].
      * now rewrite E.
      * now destruct (lookup k l).
Qed.

Lemma nodup_obj_set k v (l : list (string * value)) :
  NoDup (map fst l) -> NoDup (map fst (obj_set l k v)).
Proof.
  intros Hnd. unfold obj_set, has_key.
  destruct (lookup k l) as [old|] eqn:E.
  - now rewrite keys_replace_field.
  - apply lookup_none_notin in E.
    destruct (array_index k) as [i|].
    + now apply nodup_insert_index.
    + rewrite List.map_app. cbn [map fst].
      apply List.NoDup_app; [assumption | constructor; [intros []|constructor] |].
      intros x Hx [<-|[]]. contradiction.
Qed.

Lemma lookup_fold_obj_set k (l : list (string * value)) : forall acc,
  NoDup (map fst l) ->
  lookup k (fold_left (fun a kv => obj_set a (fst kv) (snd kv)) l acc)
  = match lookup k l with Some v => Some v | None => lookup k acc end.
Proof.
  induction l as [|[k1 v1] l IH]; intros acc Hnd; cbn [fold_left lookup fst snd].
  - reflexivity.
  - cbn [map fst] in Hnd. inversion Hnd as [|? ? Hk1 Hl]; subst.
    rewrite (IH _ Hl), lookup_obj_set.
    destruct (String.eqb_spec k1 k) as [->|N]; [|reflexivity].
    apply lookup_none_notin in Hk1. now rewrite Hk1.
Qed.

Lemma lookup_parsed_members k (l : list (string * value)) :
  NoDup (map fst l) -> lookup k (parsed_members l) = lookup k l.
Proof.
  intros Hnd. unfold parsed_members. rewrite (lookup_fold_obj_set k l [] Hnd).
  now destruct (lookup k l).
Qed.

Lemma title_store_spec (l : list (string * value)) :
  title_store l = true <->
  forall k v, In (k, v) l -> exists t, v = JStr t.
Proof.
  unfold title_store. rewrite forallb_forall. split.
  - intros H k v Hin. specialize (H _ Hin). cbn [snd] in H.
    destruct v; try discriminate. eauto.
  - intros H [k v] Hin. destruct (H k v Hin) as [t ->]. reflexivity.
Qed.

Lemma title_store_replace_field k t (l : list (string * value)) :
  title_store l = true -> title_store (replace_field k (JStr t) l) = true.
Proof.
  induction l as [|[k2 v2] l IH]; cbn [replace_field title_store forallb snd]; [auto|].
  intros H. apply andb_prop in H as [H2 H].
  destruct (String.eqb k2 k); cbn [title_store forallb snd].
  - exact H.
  - rewrite H2. exact (IH H).
Qed.

Lemma title_store_insert_index i k t (l : list (string * value)) :
  title_store l = true -> title_store (insert_index i k (JStr t) l) = true.
Proof.
  induction l as [|[k2 v2] l IH]; cbn [insert_index]; [reflexivity|].
  intros H.
  assert (Hhead : title_store ((k, JStr t) :: (k2, v2) :: l) = true) by exact H.
  destruct (array_index k2) as [j|]; [|exact Hhead].
  destruct (j <? i)%N; [|exact Hhead].
  cbn [title_store forallb snd] in *. apply andb_prop in H as [H2 H].
  rewrite H2. exact (IH H).
Qed.

Lemma title_store_obj_set k t (l : list (string * value)) :
  title_store l = true -> title_store (obj_set l k (JStr t)) = true.
Proof.
  intros H. unfold obj_set.
  destruct (has_key k l); [now apply title_store_replace_field|].
  destruct (array_index k); [now apply title_store_insert_index|].
  unfold title_store. rewrite forallb_app. cbn [forallb snd].
  unfold title_store in H. now rewrite H.
Qed.

Lemma title_store_fold (l : list (string * value)) : forall acc,
  title_store l = true -> title_store acc = true ->
  title_store (fold_left (fun a kv => obj_set a (fst kv) (snd kv)) l acc) = true.
Proof.
  induction l as [|[k v] l IH]; intros acc Hl Hacc; cbn [fold_left fst snd]; [exact Hacc|].
  cbn [title_store forallb snd] in Hl. apply andb_prop in Hl as [Hv Hl].
  destruct v; try discriminate.
  apply IH; [exact Hl | now apply title_store_obj_set].
Qed.

Lemma nodup_fold (l : list (string * value)) : forall acc,
  NoDup (map fst acc) ->
  NoDup (map fst (fold_left (fun a kv => obj_set a (fst kv) (snd kv)) l acc)).
Proof.
  induction l as [|[k v] l IH]; intros acc Hacc; cbn [fold_left fst snd]; [exact Hacc|].
  apply IH. now apply nodup_obj_set.
Qed.

(** *** The keys of a parsed object are distinct *)

Lemma parse_elements_array : forall f s acc v r,
  JSON.parse_elements f s acc = JSON.POk v r -> exists l, v = JArr l.
Proof.
  induction f as [|f IH]; intros s acc v r H; [discriminate|].
  cbn [JSON.parse_elements] in H.
  destruct (JSON.parse_value f s) as [v1 r1| |]; try discriminate.
  destruct (JSON.next_is "," r1); [now apply IH in H|].
  destruct (JSON.next_is "]" r1); [|discriminate].
  injection H as <- _. eauto.
Qed.

Lemma parse_members_nodup : forall f s acc v r,
  NoDup (map fst acc) ->
  JSON.parse_members f s acc = JSON.POk v r ->
  exists l, v = JObj l /\ NoDup (map fst l).
Proof.
  induction f as [|f IH]; intros s acc v r Hacc H; [discriminate|].
  cbn [JSON.parse_members] in H.
  destruct (JSON.next_is JSON.dquote s) as [r0|]; [|discriminate].
  destruct (JSON.parse_chars r0 []) as [[key r1]|]; [|discriminate].
  destruct (JSON.next_is ":" r1) as [r2|]; [|discriminate].
  destruct (JSON.parse_value f r2) as [v1 r3| |]; try discriminate.
  destruct (JSON.next_is "," r3).
  - apply IH in H; [exact H | now apply nodup_obj_set].
  - destruct (JSON.next_is "}" r3); [|discriminate].
    injection H as <- _. eexists. split; [reflexivity | now apply nodup_obj_set].
Qed.

Lemma parse_scalar_not_object s l r : JSON.parse_scalar s <> JSON.POk (JObj l) r.
Proof.
  unfold JSON.parse_scalar.
  destruct (JSON.strip_prefix _ s); [discriminate|].
  destruct (JSON.strip_prefix _ s); [discriminate|].
  destruct (JSON.strip_prefix _ s); [discriminate|].
  destruct (JSON.parse_number s) as [[n rest]|]; discriminate.
Qed.

Lemma parse_object_nodup (text : string) (l : list (string * value)) :
  JSON.parse text = Ok (JObj l) -> NoDup (map fst l).
Proof.
  unfold JSON.parse.
  destruct (JSON.parse_value _ _) as [v rest| |] eqn:V; try discriminate.
  destruct (JSON.skip_ws rest); [|discriminate]. intros [= ->].
  replace (2 * List.length (list_ascii_of_string text) + 2)%nat
    with (S (2 * List.length (list_ascii_of_string text) + 1)) in V by lia.
  cbn [JSON.parse_value] in V.
  destruct (JSON.skip_ws (list_ascii_of_string text)) as [|c r]; [discriminate|].
  destruct (Ascii.eqb c "[").
  { destruct (JSON.next_is "]" r); [discriminate|].
    apply parse_elements_array in V as [? ?]. discriminate. }
  destruct (Ascii.eqb c "{").
  { destruct (JSON.next_is "}" r).
    - injection V as <- _. constructor.
    - apply parse_members_nodup in V; [|constructor].
      destruct V as (l' & [= ->] & Hnd). exact Hnd. }
  destruct (Ascii.eqb c JSON.dquote).
  { destruct (JSON.parse_chars r []) as [[str rest']|]; discriminate. }
  now apply parse_scalar_not_object in V.
Qed.

(** *** Saving a title and reading it back *)

(** The world after the text [text] is written to [path]. *)
Lemma writeFile_spec path text w :
  write_error w path = None ->
  writeFile path text w
  = (Ok tt, mkWorld (fun p => if String.eqb p path then Text text else fs w p)
                    (write_error w) (gemini w) (calls w)).
Proof. unfold writeFile. now intros ->. Qed.

(** A write that fails throws and leaves every file as it was. *)
Lemma writeFile_fails path text w err :
  write_error w path = Some err -> writeFile path text w = (Throw err, w).
Proof. unfold writeFile. now intros ->. Qed.

Lemma Express_store_nodup w fields :
  fst (Express.readVideoDB w) = Ok (JObj fields) ->
  NoDup (map fst fields) /\
  Express.readVideoDB w = (Ok (JObj fields), w).
Proof.
  rewrite Express_readVideoDB_spec. cbn [fst]. intros H.
  split; [|now rewrite H].
  destruct (fs w Express.VIDEO_DB) as [| |content].
  - injection H as <-. constructor.
  - discriminate.
  - now apply parse_object_nodup in H.
Qed.

(** The store after [db[url] = title] is written and read again. *)
Lemma store_round_trip fields url title :
  title_store fields = true -> NoDup (map fst fields) ->
  exists text fields',
    JSON_stringify (JObj (obj_set fields url (JStr title))) "  " = JStr text /\
    JSON.parse text = Ok (JObj fields') /\
    title_store fields' = true /\
    forall k, lookup k fields'
              = if String.eqb url k then Some (JStr title) else lookup k fields.
Proof.
  intros Hflat Hnd.
  pose proof (title_store_obj_set url title fields Hflat) as Hflat'.
  pose proof (nodup_obj_set url (JStr title) fields Hnd) as Hnd'.
  destruct (Stringify.serialize "  " "" (JObj (obj_set fields url (JStr title))))
    as [text|] eqn:S; [|rewrite serialize_store in S by assumption; discriminate].
  exists text, (parsed_members (obj_set fields url (JStr title))).
  split; [unfold JSON_stringify; now rewrite S|].
  split; [now apply parse_store|].
  split; [now apply title_store_fold|].
  intros k. rewrite lookup_parsed_members by assumption. apply lookup_obj_set.
Qed.

Lemma Express_get_video_title_spec u w fields :
  u <> "" ->
  Express.readVideoDB w = (Ok (JObj fields), w) ->
  Express.get_video_title (JStr u) w
  = (Ok (Express.mkResponse 200
           (JObj [("url", JStr u);
                  ("title", js_or (match lookup u fields with
                                   | Some x => x
                                   | None => inherited u
                                   end) JNull)])), w).
Proof.
  intros Hu Hread. unfold Express.get_video_title. cbn [ToBoolean].
  apply String.eqb_neq in Hu. rewrite Hu. cbn [negb].
  unfold mtry, mbind. rewrite Hread. reflexivity.
Qed.

(** What [POST /api/video-title] does to a title store that can be read
    and written. *)
Lemma Express_post_saves
    (w : World) (body : value) (url title : string) (fields : list (string * value)) :
  fst (Express.readVideoDB w) = Ok (JObj fields) ->
  write_error w Express.VIDEO_DB = None ->
  title_store fields = true ->
  Get body "url" = Ok (JStr url) ->
  Get body "title" = Ok (JStr title) ->
  url <> "" -> title <> "" -> url <> "__proto__" ->
  exists w' fields',
    Express.post_video_title body w
    = (Ok (Express.mkResponse 200
             (JObj [("ok", JBool true); ("url", JStr url); ("title", JStr title)])), w') /\
    Express.readVideoDB w' = (Ok (JObj fields'), w') /\
    Express.readVideoDB w = (Ok (JObj fields), w) /\
    title_store fields' = true /\
    forall k, lookup k fields'
              = if String.eqb url k then Some (JStr title) else lookup k fields.
Proof.
  intros Hstore Hfile Hflat Hu Ht Nu Nt Nproto.
  destruct (Express_store_nodup w fields Hstore) as (Hnd & Hread).
  destruct (store_round_trip fields url title Hflat Hnd)
    as (text & fields' & Htext & Hparse & Hflat' & Hlookup).
  exists (mkWorld (fun p => if String.eqb p Express.VIDEO_DB then Text text else fs w p)
                  (write_error w) (gemini w) (calls w)), fields'.
  split; [|split; [|auto]].
  - unfold Express.post_video_title. rewrite Hu, Ht. run.
    cbn [ToBoolean]. apply String.eqb_neq in Nu, Nt. rewrite Nu, Nt. cbn [negb orb]. run.
    rewrite Hread. cbn [Set_computed ToString bind].
    apply String.eqb_neq in Nproto. rewrite Nproto.
    unfold Express.writeVideoDB. rewrite Htext.
    rewrite (writeFile_spec _ text w Hfile). reflexivity.
  - rewrite Express_readVideoDB_spec. cbn [fs]. rewrite String.eqb_refl.
    now rewrite Hparse.
Qed.

(** What it does when the store can be read and the write fails. *)
Lemma Express_post_fails
    (w : World) (body : value) (url title : string) (fields : list (string * value))
    (err : exn) :
  fst (Express.readVideoDB w) = Ok (JObj fields) ->
  write_error w Express.VIDEO_DB = Some err ->
  title_store fields = true ->
  Get body "url" = Ok (JStr url) ->
  Get body "title" = Ok (JStr title) ->
  url <> "" -> title <> "" -> url <> "__proto__" ->
  Express.post_video_title body w
  = (Ok (Express.mkResponse 500 (JObj [("error", JStr "Failed to write video DB")])), w).
Proof.
  intros Hstore Hfile Hflat Hu Ht Nu Nt Nproto.
  destruct (Express_store_nodup w fields Hstore) as (Hnd & Hread).
  destruct (store_round_trip fields url title Hflat Hnd)
    as (text & fields' & Htext & _).
  unfold Express.post_video_title. rewrite Hu, Ht. run.
  cbn [ToBoolean]. apply String.eqb_neq in Nu, Nt. rewrite Nu, Nt. cbn [negb orb]. run.
  rewrite Hread. cbn [Set_computed ToString bind].
  apply String.eqb_neq in Nproto. rewrite Nproto.
  unfold Express.writeVideoDB. rewrite Htext.
  rewrite (writeFile_fails _ text w err Hfile). reflexivity.
Qed.


Lemma file_json_nodup f fields : file_json f = Some (JObj fields) -> NoDup (map fst fields).
Proof.
  unfold file_json. destruct f as [| |content]; try discriminate.
  destruct (JSON.parse content) eqn:E; [|discriminate].
  intros [= ->]. now apply parse_object_nodup in E.
Qed.

Lemma Lambda_store_nodup w fields :
  fst (Lambda.readVideoDB w) = Ok (JObj fields) ->
  NoDup (map fst fields) /\ Lambda.readVideoDB w = (Ok (JObj fields), w).
Proof.
  rewrite Lambda_readVideoDB_spec. cbn [fst]. intros [= H].
  split; [|now rewrite H].
  destruct (file_json (fs w Lambda.VIDEO_DB_TMP)) as [v|] eqn:T.
  { subst v. now apply file_json_nodup in T. }
  destruct (file_json (fs w Lambda.VIDEO_DB_BUNDLED)) as [v|] eqn:B.
  { subst v. now apply file_json_nodup in B. }
  injection H as <-. constructor.
Qed.

Lemma route_of_path path method :
  route_of path method <> NotFound -> path <> "".
Proof. intros H ->. now apply H. Qed.

(** Property X15.  Round trip of the title store of the Lambda.  When the
    store read by [readVideoDB] holds text titles and the write to the
    file under [/tmp] succeeds, [POST /video-title] succeeds, a later
    [GET /video-title] for the same url returns the saved title, the
    bundled file is left as it was, and the store read afterwards is the
    one before with the new title set.  The url [__proto__] is excepted:
    assigning to it defines no entry. *)
Theorem handler_saved_title_is_fetched
    (w : World) (post get body query : value) (path path' url title : string)
    (fields : list (string * value)) :
  fst (Lambda.readVideoDB w) = Ok (JObj fields) ->
  title_store fields = true ->
  write_error w Lambda.VIDEO_DB_TMP = None ->
  Get post "path" = Ok (JStr path) -> Get post "httpMethod" = Ok (JStr "POST") ->
  route_of path "POST" = TitlePost ->
  Lambda.parse_body post = Ok body ->
  Get body "url" = Ok (JStr url) -> Get body "title" = Ok (JStr title) ->
  Get get "path" = Ok (JStr path') -> Get get "httpMethod" = Ok (JStr "GET") ->
  route_of path' "GET" = TitleGet ->
  Get get "queryStringParameters" = Ok query -> Get query "url" = Ok (JStr url) ->
  url <> "" -> title <> "" -> url <> "__proto__" ->
  let w1 := snd (Lambda.handler post w) in
  fst (Lambda.handler post w)
  = Ok (Lambda.buildResponse 200
          (JObj [("ok", JBool true); ("url", JStr url); ("title", JStr title)])) /\
  Lambda.handler get w1
  = (Ok (Lambda.buildResponse 200 (JObj [("url", JStr url); ("title", JStr title)])), w1) /\
  fs w1 Lambda.VIDEO_DB_BUNDLED = fs w Lambda.VIDEO_DB_BUNDLED /\
  (exists fields',
     fst (Lambda.readVideoDB w1) = Ok (JObj fields') /\
     title_store fields' = true /\
     forall k, lookup k fields'
               = if String.eqb url k then Some (JStr title) else lookup k fields).
Proof.
  intros Hstore Hflat Hfile Hp Hm Hroute Hbody Hu Ht Hp' Hm' Hroute' Hq Hqu Nu Nt Nproto.
  destruct (Lambda_store_nodup w fields Hstore) as (Hnd & Hread).
  destruct (store_round_trip fields url title Hflat Hnd)
    as (text & fields' & Htext & Hparse & Hflat' & Hlookup).
  set (w' := mkWorld (fun p => if String.eqb p Lambda.VIDEO_DB_TMP then Text text else fs w p)
                     (write_error w) (gemini w) (calls w)).
  assert (Npath : path <> "") by (apply (route_of_path path "POST"); congruence).
  assert (Npath' : path' <> "") by (apply (route_of_path path' "GET"); congruence).
  assert (Hpost : Lambda.handler post w
                  = (Ok (Lambda.buildResponse 200
                           (JObj [("ok", JBool true); ("url", JStr url);
                                  ("title", JStr title)])), w')).
  { rewrite (Lambda_handler_routes post path "POST" w Hp Npath Hm ltac:(discriminate)).
    rewrite Hroute. unfold mtry, Lambda.video_title_post. run.
    rewrite Hbody, Hu, Ht. run.
    cbn [ToBoolean]. apply String.eqb_neq in Nu, Nt. rewrite Nu, Nt. cbn [negb orb]. run.
    rewrite Hread. cbn [Set_computed ToString bind].
    apply String.eqb_neq in Nproto. rewrite Nproto.
    unfold Lambda.writeVideoDB. rewrite Htext.
    rewrite (writeFile_spec _ text w Hfile). reflexivity. }
  assert (Hread' : Lambda.readVideoDB w' = (Ok (JObj fields'), w')).
  { rewrite Lambda_readVideoDB_spec. cbn [fs w']. rewrite String.eqb_refl.
    unfold file_json at 1. now rewrite Hparse. }
  rewrite Hpost. cbn [fst snd].
  split; [reflexivity|]. split; [|split].
  - rewrite (Lambda_handler_routes get path' "GET" w' Hp' Npath' Hm' ltac:(discriminate)).
    rewrite Hroute'. unfold mtry, Lambda.video_title_get. run.
    rewrite Hq.
    assert (Hopt : Get_optional query "url" = Ok (JStr url)).
    { destruct query; try exact Hqu; discriminate. }
    rewrite Hopt. run. cbn [ToBoolean].
    pose proof Nu as Nu'. apply String.eqb_neq in Nu'. rewrite Nu'. cbn [negb]. run.
    rewrite Hread'. cbn [Get_computed ToString bind Get].
    rewrite Hlookup, String.eqb_refl. unfold js_or. cbn [ToBoolean].
    apply String.eqb_neq in Nt. rewrite Nt. reflexivity.
  - reflexivity.
  - exists fields'. rewrite Hread'. auto.
Qed.

(** *** The stored title in the prompt *)

Lemma constructPrompt_resolved_title url o vt p kc j g names :
  constructPrompt
    (JObj [("url", JStr url); ("videoType", optional vt); ("purpose", optional p);
           ("keyConcepts", optional kc); ("justifications", optional j);
           ("goal", optional g);
           ("title", js_or (optional o) (JStr "Unknown Title"))]) names
  = constructPrompt (details_of (mkRequest url o vt p kc j g)) names.
Proof.
  unfold constructPrompt, field, details_of. cbn [r_url r_title r_videoType r_purpose
    r_keyConcepts r_justifications r_goal].
  change (Get (JObj ?l) "title") with (Ok (match lookup "title" l with
                                           | Some x => x | None => inherited "title" end)).
  cbn [lookup String.eqb Ascii.eqb Bool.eqb].
  assert (E : js_or (js_or (optional o) (JStr "Unknown Title")) (JStr "Unknown Title")
              = js_or (optional o) (JStr "Unknown Title")).
  { destruct o as [s|]; [|reflexivity]. unfold js_or. cbn [optional ToBoolean].
    destruct (String.eqb s "") eqn:E; cbn [negb ToBoolean]; [reflexivity|].
    now rewrite E. }
  cbn [bind]. rewrite E. reflexivity.
Qed.

Lemma prompt_title_line (r : request) (names : list string) (p : string) :
  constructPrompt (details_of r) (map JStr names) = Ok p ->
  own_line ("Title: " ++ shown_title (r_title r)) p.
Proof.
  rewrite constructPrompt_request. intros E. apply Ok_inj in E. subst p.
  assert (Hin : In ("Title: " ++ shown_title (r_title r)) (labeled_lines r)).
  { unfold labeled_lines, labeled. cbn [In]. auto. }
  pose proof (join_own_line _ _ (header ++ LF)
    (LF ++ Str.join (LF ++ LF)
             ["Metrics to evaluate:"; Str.join LF (numbered 1 names); instruction])
    Hin) as (pre & post & E).
  exists pre, post. rewrite <- E. rewrite !join_cons. rewrite !append_assoc. reflexivity.
Qed.

(** Property X16.  The title in the prompt is the stored one: when the
    store holds text titles, for a request with a url that is not the
    name of a built-in member of objects, the all-metrics route sends
    exactly one prompt, the prompt of the request with the title the
    store holds for its url (or with no title when it holds none), so the
    prompt has the line [Title: ...] with the stored title, or with
    [Unknown Title].  A title in the request body plays no part. *)
Theorem stored_title_is_sent (w : World) (r : request) (fields : list (string * value)) :
  fst (Express.readVideoDB w) = Ok (JObj fields) ->
  title_store fields = true ->
  r_url r <> "" ->
  inherited (r_url r) = JUndefined ->
  let stored := match lookup (r_url r) fields with
                | Some (JStr title) => Some title
                | _ => None
                end in
  let asked := mkRequest (r_url r) stored (r_videoType r) (r_purpose r)
                 (r_keyConcepts r) (r_justifications r) (r_goal r) in
  exists prompt,
    constructPrompt (details_of asked) (map JStr METRICS) = Ok prompt /\
    calls (snd (Express.evaluate_all (details_of r) w)) = (calls w ++ [prompt])%list /\
    own_line ("Title: " ++ shown_title stored) prompt.
Proof.
  intros Hstore Hflat Nu Hinh stored asked.
  destruct (Express_store_nodup w fields Hstore) as (_ & Hread).
  destruct (constructPrompt (details_of asked) (map JStr METRICS)) as [prompt|e] eqn:P.
  2:{ rewrite constructPrompt_request in P. discriminate. }
  exists prompt. split; [reflexivity|]. split.
  2:{ apply (prompt_title_line asked METRICS prompt P). }
  assert (Ht : Get_computed (JObj fields) (JStr (r_url r)) = Ok (optional stored)).
  { cbn [Get_computed ToString bind Get]. subst stored.
    destruct (lookup (r_url r) fields) as [v|] eqn:L.
    - assert (Hv : exists t, v = JStr t).
      { apply (proj1 (title_store_spec fields) Hflat (r_url r)).
        clear - L. induction fields as [|[k x] l IH]; [discriminate|].
        cbn [lookup] in L. destruct (String.eqb_spec k (r_url r)) as [->|N].
        - injection L as ->. now left.
        - right. auto. }
      destruct Hv as [t ->]. reflexivity.
    - now rewrite Hinh. }
  unfold Express.evaluate_all, details_of.
  change (Get (JObj ?l) ?k) with (Ok (match lookup k l with
                                      | Some x => x | None => inherited k end)).
  cbn [lookup String.eqb Ascii.eqb Bool.eqb]. run.
  cbn [ToBoolean]. apply String.eqb_neq in Nu. rewrite Nu. cbn [negb]. run.
  rewrite Hread. rewrite Ht.
  rewrite constructPrompt_resolved_title.
  fold asked. rewrite P. unfold callGemini.
  destruct (gemini w prompt) as [raw|e]; [|reflexivity].
  rewrite Express_relay_spec.
  destruct (tryParseJSON_any raw); reflexivity.
Qed.

(* ===================================================================== *)
(** ** The views of the page *)
(* ===================================================================== *)

(** *** Where the two views look for the entries *)

Lemma Get_object fields key :
  Get (JObj fields) key
  = Ok (match lookup key fields with Some x => x | None => inherited key end).
Proof. reflexivity. Qed.

(** Property X17.  The two views read different lists.  For a reply object
    with entries under both [results] and [metrics] (and no [metric] of
    its own), [renderMetricResult] looks for the requested metric among
    the entries under [results] only, while [renderAllResults] shows the
    entries under [metrics] only. *)
Theorem views_read_different_lists
    (fields : list (string * value)) (under_results under_metrics : list entry)
    (requested : string) :
  lookup "metric" fields = None ->
  lookup "results" fields = Some (JArr (map entry_value under_results)) ->
  lookup "metrics" fields = Some (JArr (map entry_value under_metrics)) ->
  Client.find_metric requested (JObj fields)
  = Ok (match List.find (names_metric requested) under_results with
        | Some e => entry_value e
        | None => JUndefined
        end) /\
  Client.metricsArr (JObj fields) = Ok (JArr (map entry_value under_metrics)).
Proof.
  intros Hm Hr Hms. split.
  - unfold Client.find_metric, Client.matches. cbn [isArray].
    rewrite !Get_object, Hm, Hr. cbn [inherited existsb String.eqb Ascii.eqb Bool.eqb
      object_prototype_names orb bind ToBoolean Client.call_find].
    apply find_entries.
  - unfold Client.metricsArr. cbn [isArray]. rewrite Get_object, Hms. reflexivity.
Qed.

(** Property X18.  [renderMetricResult] requires [results] to be a list: for
    a reply object without a [metric] of its own whose [results] is truthy
    but not an array, it throws a [TypeError] instead of showing the raw
    text. *)
Theorem results_must_be_a_list
    (payload results : value) (fields : list (string * value)) (requested : string) :
  ToBoolean payload = true ->
  Get payload "parsed" = Ok (JObj fields) ->
  lookup "metric" fields = None ->
  lookup "results" fields = Some results ->
  ToBoolean results = true ->
  isArray results = false ->
  exists message,
    Client.renderMetricResult requested payload = Throw (TypeError message).
Proof.
  intros Hp Hparsed Hm Hr Tr Ar.
  unfold Client.renderMetricResult. rewrite Hp, Hparsed. cbn [negb bind ToBoolean].
  unfold Client.find_metric, Client.matches. cbn [isArray].
  rewrite !Get_object, Hm, Hr. cbn [inherited existsb String.eqb Ascii.eqb Bool.eqb
    object_prototype_names orb bind ToBoolean]. rewrite Tr.
  destruct results; try discriminate; eexists; reflexivity.
Qed.

Lemma metric_like_kept e :
  exists b, Client.metric_like (entry_value e) = Ok b /\ ToBoolean b = kept e.
Proof.
  unfold Client.metric_like, kept, entry_value. cbn [ToBoolean negb].
  rewrite !Get_object. cbn [lookup String.eqb Ascii.eqb Bool.eqb bind ToBoolean].
  destruct (String.eqb (e_metric e) "") eqn:E; cbn [negb andb].
  - eexists. split; [reflexivity|]. cbn [ToBoolean]. now rewrite E.
  - eexists. split; reflexivity.
Qed.

Lemma filter_kept es :
  Client.filter Client.metric_like (map entry_value es)
  = Ok (map entry_value (List.filter kept es)).
Proof.
  induction es as [|e es IH]; cbn [map Client.filter List.filter]; [reflexivity|].
  destruct (metric_like_kept e) as (b & -> & Hb). cbn [bind]. rewrite IH. cbn [bind].
  rewrite Hb. destruct (kept e); reflexivity.
Qed.

(** Property X19.  For a reply object with one entry per key (no key being
    [metrics] or [results]), the entries [renderAllResults] shows are those
    with a non-empty name and a score that is not zero, in the order of
    the keys; the others are dropped. *)
Theorem keyed_entries_need_name_and_score (keys : list string) (es : list entry) :
  List.length keys = List.length es ->
  Forall (fun k => k <> "metrics" /\ k <> "results") keys ->
  Client.metricsArr (JObj (combine keys (map entry_value es)))
  = Ok (JArr (map entry_value (List.filter kept es))).
Proof.
  intros Hlen Hkeys.
  assert (Hnone : forall name, name = "metrics" \/ name = "results" ->
            lookup name (combine keys (map entry_value es)) = None).
  { intros name Hname. apply lookup_combine_other.
    eapply Forall_impl; [|exact Hkeys]. intros k [H1 H2]. cbv beta.
    apply String.eqb_neq. destruct Hname as [-> | ->]; assumption. }
  unfold Client.metricsArr. cbn [isArray].
  rewrite !Get_object, !Hnone by auto.
  cbn [inherited existsb String.eqb Ascii.eqb Bool.eqb object_prototype_names orb
       bind ToBoolean Object_values].
  rewrite map_snd_combine by (now rewrite length_map).
  rewrite filter_kept. reflexivity.
Qed.

(* ===================================================================== *)
(** ** The page and its server *)
(* ===================================================================== *)

(** *** The text of a request body is read back *)

Lemma serialize_texts (fields : list (string * value)) :
  plain fields = true ->
  Stringify.serialize "" "" (JObj fields)
  = Some (Stringify.wrap "" "" "" "{" "}" (map text_member fields)).
Proof.
  intros H. cbn [Stringify.serialize]. f_equal. f_equal.
  induction fields as [|[k v] fields IH]; [reflexivity|].
  cbn [plain forallb snd] in H. apply andb_prop in H as [Hv H].
  destruct v as [| |[|]| | | | |]; try discriminate;
    cbn [Stringify.serialize map]; rewrite (IH H); reflexivity.
Qed.

Lemma texts_members (kv : string * value) (rest : list (string * value)) tail :
  (JSON.chars (Str.join "," (map text_member (kv :: rest)) ++ "}") ++ tail)%list
  = (JSON.chars (text_member kv)
     ++ match rest with
        | [] => "}" :: tail
        | _ => "," :: JSON.chars (Str.join "," (map text_member rest) ++ "}") ++ tail
        end)%list%char.
Proof.
  destruct rest as [|kv' rest].
  - cbn [map Str.join String.concat]. rewrite !chars_app, <- !List.app_assoc. reflexivity.
  - cbn [map]. rewrite join_cons.
    replace ((text_member kv ++ "," ++ Str.join "," (text_member kv' :: map text_member rest))
             ++ "}")
      with (text_member kv ++ ","
            ++ (Str.join "," (text_member kv' :: map text_member rest) ++ "}"))
      by (rewrite !append_assoc; reflexivity).
    rewrite (chars_app (text_member kv)), (chars_app ",").
    rewrite <- !List.app_assoc. reflexivity.
Qed.

(** A member, read from the opening quote of its key to the end of its
    value. *)
Lemma parse_text_member (f : nat) k v rest :
  plain [(k, v)] = true ->
  exists r2,
    (JSON.chars (text_member (k, v)) ++ rest)%list
    = (JSON.dquote :: JSON.chars (Stringify.quote_chars k) ++ JSON.dquote :: ":" :: r2)%list%char /\
    JSON.parse_value (S f) r2 = JSON.POk v rest.
Proof.
  intros Hv. cbn [plain forallb snd] in Hv.
  unfold text_member. cbn [fst snd].
  rewrite chars_app, <- List.app_assoc, parse_quote.
  rewrite chars_app, <- List.app_assoc.
  change (JSON.chars ":") with [":"]%char. cbn [app].
  eexists. split; [reflexivity|].
  destruct v as [| |[|]| |t| | |]; try discriminate; try reflexivity.
  rewrite parse_quote.
  cbn [JSON.parse_value].
  change (JSON.skip_ws (JSON.dquote :: ?x)%list) with (JSON.dquote :: x)%list.
  cbv beta iota.
  change (Ascii.eqb JSON.dquote "[") with false.
  change (Ascii.eqb JSON.dquote "{") with false.
  change (Ascii.eqb JSON.dquote JSON.dquote) with true.
  cbv beta iota. rewrite parse_chars_quote. reflexivity.
Qed.

Lemma parse_texts_members : forall (f : nat) (fields : list (string * value)) acc tail,
  fields <> [] ->
  plain fields = true ->
  let r := JSON.parse_members f
             (JSON.chars (Str.join "," (map text_member fields) ++ "}") ++ tail)%list acc in
  r = JSON.PFuel \/
  r = JSON.POk (JObj (fold_left (fun a kv => obj_set a (fst kv) (snd kv)) fields acc)) tail.
Proof.
  induction f as [|f IH]; intros fields acc tail Hne Hflat r; [now left|].
  destruct fields as [|[k v] rest]; [congruence|].
  cbn [plain forallb snd] in Hflat. apply andb_prop in Hflat as [Hv Hflat].
  subst r. rewrite texts_members.
  destruct f as [|f'].
  { destruct (parse_text_member 0 k v
                (match rest with
                 | [] => "}" :: tail
                 | _ => "," :: JSON.chars (Str.join "," (map text_member rest) ++ "}") ++ tail
                 end)%list%char) as (r2 & -> & _).
    { cbn [plain forallb snd]. now rewrite Hv. }
    cbn [JSON.parse_members].
    change (JSON.next_is JSON.dquote (JSON.dquote :: ?x)%list) with (Some x).
    cbv beta iota.
    rewrite parse_chars_quote. cbn [rev string_of_list_ascii String.append].
    change (JSON.next_is ":" (":" :: ?x)%list%char) with (JSON.next_is ":" (":" :: x)%list%char).
    left. unfold JSON.next_is. cbn [JSON.skip_ws]. change (JSON.is_ws ":") with false.
    cbv iota. change (Ascii.eqb ":" ":") with true. cbv iota. reflexivity. }
  destruct (parse_text_member f' k v
              (match rest with
               | [] => "}" :: tail
               | _ => "," :: JSON.chars (Str.join "," (map text_member rest) ++ "}") ++ tail
               end)%list%char) as (r2 & -> & Hval).
  { cbn [plain forallb snd]. now rewrite Hv. }
  cbn [JSON.parse_members].
  change (JSON.next_is JSON.dquote (JSON.dquote :: ?x)%list) with (Some x).
  cbv beta iota.
  rewrite parse_chars_quote. cbn [rev string_of_list_ascii String.append].
  assert (Hcolon : JSON.next_is ":" (":" :: r2)%list%char = Some r2) by reflexivity.
  rewrite Hcolon, Hval.
  destruct rest as [|kv' rest'].
  - right. reflexivity.
  - change (JSON.next_is "," ("," :: ?x)%list%char) with (Some x).
    cbv beta iota.
    apply (IH (kv' :: rest') (obj_set acc k v) tail); [discriminate | exact Hflat].
Qed.

Lemma parse_texts (fields : list (string * value)) (text : string) :
  plain fields = true ->
  Stringify.serialize "" "" (JObj fields) = Some text ->
  JSON.parse text = Ok (JObj (parsed_members fields)).
Proof.
  intros Hflat. rewrite (serialize_texts fields Hflat). intros [= <-].
  destruct fields as [|kv rest]; [reflexivity|].
  unfold Stringify.wrap. cbn [map]. change (String.eqb "" "") with true. cbv iota.
  set (body := Str.join "," (map text_member (kv :: rest)) ++ "}").
  assert (E : "{" ++ Str.join "," (text_member kv :: map text_member rest) ++ "}"
              = String "{" body) by reflexivity.
  rewrite E. unfold JSON.parse.
  change (list_ascii_of_string (String "{" body)) with ("{"%char :: JSON.chars body).
  set (n := List.length ("{"%char :: JSON.chars body)).
  replace (2 * n + 2)%nat with (S (2 * n + 1)) by lia.
  cbn [JSON.parse_value].
  change (JSON.skip_ws ("{"%char :: JSON.chars body)) with ("{"%char :: JSON.chars body).
  cbv beta iota.
  change (Ascii.eqb "{" "[") with false. change (Ascii.eqb "{" "{") with true. cbv iota.
  pose proof (parse_texts_members (2 * n + 1) (kv :: rest) [] [] ltac:(discriminate) Hflat) as H.
  cbv zeta in H. fold body in H. rewrite List.app_nil_r in H.
  assert (Hnext : JSON.next_is "}" (JSON.chars body) = None).
  { subst body. pose proof (texts_members kv rest []) as T.
    rewrite List.app_nil_r in T. rewrite T.
    destruct kv as [k v].
    destruct (parse_text_member 0 k v
                (match rest with
                 | [] => ["}"]
                 | _ => "," :: JSON.chars (Str.join "," (map text_member rest) ++ "}") ++ []
                 end)%list%char) as (r2 & -> & _); [|reflexivity].
    cbn [plain forallb snd] in Hflat |- *. apply andb_prop in Hflat as [Hv _].
    now rewrite Hv. }
  rewrite Hnext.
  destruct H as [H | H].
  - exfalso. revert H. apply JSONFacts.parse_fuel. subst n. simpl. lia.
  - rewrite H. reflexivity.
Qed.

(** *** The handlers of the page *)

Lemma trimStart_blank (l : list ascii) :
  forallb Page.is_ws1 l = true -> Page.trimStart l = [].
Proof.
  induction l as [|c l IH]; cbn [forallb Page.trimStart]; [reflexivity|].
  intros H. apply andb_prop in H as [Hc Hl]. rewrite Hc. auto.
Qed.

Lemma trim_blank (s : string) :
  forallb Page.is_ws1 (list_ascii_of_string s) = true -> Page.trim s = "".
Proof. intros H. unfold Page.trim. now rewrite (trimStart_blank _ H). Qed.

(** Property X20.  With a url made only of spaces, tabs and line breaks the
    four handlers of the page show an alert and do nothing else: no
    request is sent, the result area, the buttons and the title input are
    left as they were. *)
Theorem blank_url_only_alerts (srv : Page.server) (pg : Page.page) (metric btn : string) :
  forallb Page.is_ws1 (list_ascii_of_string (Page.url pg)) = true ->
  Page.evaluateMetric srv metric btn pg = Page.alert "Please enter a YouTube URL" pg /\
  Page.evaluateAll srv pg = Page.alert "Please enter a YouTube URL" pg /\
  Page.fetchStoredTitle srv pg = Page.alert "Enter URL first" pg /\
  Page.saveTitle srv pg = Page.alert "URL and title required" pg /\
  forall message,
    Page.sent (Page.alert message pg) = Page.sent pg /\
    Page.resultsContent (Page.alert message pg) = Page.resultsContent pg /\
    Page.disabled (Page.alert message pg) = Page.disabled pg /\
    Page.titleInput (Page.alert message pg) = Page.titleInput pg.
Proof.
  intros H. apply trim_blank in H.
  unfold Page.evaluateMetric, Page.evaluateAll, Page.fetchStoredTitle, Page.saveTitle.
  rewrite H. cbn [String.eqb orb]. repeat split.
Qed.

Lemma request_frame srv c render pg :
  (forall json update, render json = Ok update -> exists s, update = Page.show s) ->
  let pg' := Page.request srv c render pg in
  Page.sent pg' = (Page.sent pg ++ [c])%list /\
  Page.alerts pg' = Page.alerts pg /\
  Page.disabled pg' = Page.disabled pg /\
  Page.titleInput pg' = Page.titleInput pg.
Proof.
  intros Hrender. unfold Page.request.
  destruct (srv c) as [json|e]; cbn [bind]; [|repeat split].
  destruct (render json) as [update|e] eqn:R; [|repeat split].
  destruct (Hrender json update R) as [s ->]. repeat split.
Qed.

Lemma render_shows {A} (r : completion A) (f : A -> Client.shown) update :
  bind r (fun x => Ok (Page.show (f x))) = Ok update -> exists s, update = Page.show s.
Proof. destruct r; cbn [bind]; [intros [= <-]; eauto | discriminate]. Qed.

(** Property X21.  With a url that is not blank, [evaluateMetric] and
    [evaluateAll] send exactly one POST request with a body, show no
    alert, leave the other buttons as they were and end with their own
    button enabled, whatever the server does. *)
Theorem evaluation_releases_its_button
    (srv : Page.server) (pg : Page.page) (metric btn : string) :
  Page.trim (Page.url pg) <> "" ->
  let released (b : string) (path : string) (pg' : Page.page) :=
    Page.disabled pg' b = false /\
    (forall other, other <> b -> Page.disabled pg' other = Page.disabled pg other) /\
    Page.alerts pg' = Page.alerts pg /\
    exists body,
      Page.sent pg' = (Page.sent pg ++ [Page.mkCall "POST" path (Some body)])%list in
  released btn "/api/evaluate-metric" (Page.evaluateMetric srv metric btn pg) /\
  released "evaluateAllBtn" "/api/evaluate-all" (Page.evaluateAll srv pg).
Proof.
  intros Hurl released. apply String.eqb_neq in Hurl.
  split.
  - unfold Page.evaluateMetric. rewrite Hurl.
    match goal with
    | |- released _ _ (Page.set_disabled _ _ (Page.request _ ?c ?render ?p)) =>
        destruct (request_frame srv c render p) as (Hs & Ha & Hd & _)
    end.
    { intros json update. apply (render_shows _ (fun s => s)). }
    unfold released. cbn [Page.disabled Page.set_disabled Page.alerts Page.sent].
    rewrite String.eqb_refl. split; [reflexivity|]. split; [|split].
    + intros other Hother. apply String.eqb_neq in Hother. rewrite Hother.
      rewrite Hd. cbn. now rewrite Hother.
    + rewrite Ha. reflexivity.
    + rewrite Hs. eexists. reflexivity.
  - unfold Page.evaluateAll. rewrite Hurl.
    match goal with
    | |- released _ _ (Page.set_disabled _ _ (Page.request _ ?c ?render ?p)) =>
        destruct (request_frame srv c render p) as (Hs & Ha & Hd & _)
    end.
    { intros json update. apply (render_shows _ (fun s => s)). }
    unfold released. cbn [Page.disabled Page.set_disabled Page.alerts Page.sent].
    rewrite String.eqb_refl. split; [reflexivity|]. split; [|split].
    + intros other Hother. apply String.eqb_neq in Hother. rewrite Hother.
      rewrite Hd. cbn. now rewrite Hother.
    + rewrite Ha. reflexivity.
    + rewrite Hs. eexists. reflexivity.
Qed.


(** *** The page and the Express server *)

Ltac not_400 :=
  match goal with
  | |- forall r w', (Ok _, _) = (Ok r, w') -> _ =>
      let r := fresh in let w' := fresh in let H := fresh in
      intros r w' H; injection H as <- <-; cbn; discriminate
  end.

Lemma Express_evaluate_all_validated body u w :
  Get body "url" = Ok u -> ToBoolean u = true ->
  forall r w', Express.evaluate_all body w = (Ok r, w') -> Express.status r <> 400%Z.
Proof.
  intros Hu Tu. unfold Express.evaluate_all, Express.evaluation_failed, Express.relay.
  rewrite Hu. run.
  read_field body "videoType" Hu. read_field body "purpose" Hu.
  read_field body "keyConcepts" Hu. read_field body "justifications" Hu.
  read_field body "goal" Hu.
  rewrite Tu. cbn [negb]. unfold callGemini.
  rewrite Express_readVideoDB_spec.
  repeat (step; try not_400).
Qed.

Lemma Express_evaluate_metric_validated body u m w :
  Get body "url" = Ok u -> ToBoolean u = true ->
  Get body "metric" = Ok m -> ToBoolean m = true ->
  forall r w', Express.evaluate_metric body w = (Ok r, w') -> Express.status r <> 400%Z.
Proof.
  intros Hu Tu Hm Tm. unfold Express.evaluate_metric, Express.evaluation_failed, Express.relay.
  rewrite Hu. run.
  read_field body "videoType" Hu. read_field body "purpose" Hu.
  read_field body "keyConcepts" Hu. read_field body "justifications" Hu.
  read_field body "goal" Hu. rewrite Hm. run.
  rewrite Tu, Tm. cbn [negb orb]. unfold callGemini.
  rewrite Express_readVideoDB_spec.
  repeat (step; try not_400).
Qed.

(** Property X23.  The requests of the page pass the validation of the
    Express routes.  With a url that is not blank, the body [evaluateAll]
    sends is a JSON text that parses back to the form as [readForm] read
    it, and the all-metrics route never answers it with 400; the same
    holds for the body the button of a metric sends, the form with the
    metric added, and the single-metric route. *)
Theorem page_requests_pass_validation
    (srv : Page.server) (pg : Page.page) (metric btn : string) :
  Page.trim (Page.url pg) <> "" ->
  (exists text,
     Page.sent (Page.evaluateAll srv pg)
     = (Page.sent pg ++ [Page.mkCall "POST" "/api/evaluate-all" (Some text)])%list /\
     JSON.parse text = Ok (JObj (Page.readForm pg)) /\
     forall w r w',
       Express.evaluate_all (JObj (Page.readForm pg)) w = (Ok r, w') ->
       Express.status r <> 400%Z) /\
  (In (btn, metric) Page.createMetricButtons ->
   exists text,
     Page.sent (Page.evaluateMetric srv metric btn pg)
     = (Page.sent pg
        ++ [Page.mkCall "POST" "/api/evaluate-metric" (Some text)])%list /\
     JSON.parse text = Ok (JObj (Page.readForm pg ++ [("metric", JStr metric)])) /\
     forall w r w',
       Express.evaluate_metric (JObj (Page.readForm pg ++ [("metric", JStr metric)])) w
       = (Ok r, w') ->
       Express.status r <> 400%Z).
Proof.
  intros Hurl.
  assert (Tu : ToBoolean (JStr (Page.trim (Page.url pg))) = true).
  { cbn [ToBoolean]. apply String.eqb_neq in Hurl. now rewrite Hurl. }
  split.
  - destruct (Stringify.serialize "" "" (JObj (Page.readForm pg))) as [text|] eqn:S;
      [|discriminate].
    exists text. split; [|split].
    + unfold Page.evaluateAll. apply String.eqb_neq in Hurl. rewrite Hurl.
      match goal with
      | |- Page.sent (Page.set_disabled _ _ (Page.request _ ?c ?render ?p)) = _ =>
          destruct (request_frame srv c render p) as (Hs & _)
      end.
      { intros json update. apply (render_shows _ (fun s => s)). }
      cbn [Page.sent Page.set_disabled]. rewrite Hs.
      unfold Page.body_text, JSON_stringify. rewrite S. reflexivity.
    + apply (parse_texts (Page.readForm pg) text); [reflexivity | exact S].
    + intros w. apply (Express_evaluate_all_validated _ (JStr (Page.trim (Page.url pg))));
        [reflexivity | exact Tu].
  - intros Hbutton.
    assert (Hmetric : metric <> "").
    { cbv in Hbutton.
      repeat (destruct Hbutton as [Hbutton | Hbutton];
              [injection Hbutton as _ <-; discriminate|]).
      destruct Hbutton. }
    destruct (Stringify.serialize "" "" (JObj (Page.readForm pg ++ [("metric", JStr metric)])))
      as [text|] eqn:S; [|discriminate].
    exists text. split; [|split].
    + unfold Page.evaluateMetric. apply String.eqb_neq in Hurl. rewrite Hurl.
      match goal with
      | |- Page.sent (Page.set_disabled _ _ (Page.request _ ?c ?render ?p)) = _ =>
          destruct (request_frame srv c render p) as (Hs & _)
      end.
      { intros json update. apply (render_shows _ (fun s => s)). }
      cbn [Page.sent Page.set_disabled]. rewrite Hs.
      unfold Page.body_text, JSON_stringify. rewrite S. reflexivity.
    + apply (parse_texts (Page.readForm pg ++ [("metric", JStr metric)]) text);
        [reflexivity | exact S].
    + intros w.
      apply (Express_evaluate_metric_validated _ (JStr (Page.trim (Page.url pg)))
               (JStr metric)); [reflexivity | exact Tu | reflexivity |].
      cbn [ToBoolean]. apply String.eqb_neq in Hmetric. now rewrite Hmetric.
Qed.

(** *** The title request *)

Lemma decode_encoded_char (c : ascii) (rest : string) :
  decodeURIComponent
    ((if Page.unreserved c then String c ""
      else String "%" (String (Page.HEX (nat_of_ascii c / 16))
                         (String (Page.HEX (nat_of_ascii c mod 16)) ""))) ++ rest)
  = String c (decodeURIComponent rest).
Proof. destruct c as [[] [] [] [] [] [] [] []]; reflexivity. Qed.

Lemma decode_encode (s : string) : decodeURIComponent (Page.encodeURIComponent s) = s.
Proof.
  induction s as [|c s IH]; [reflexivity|].
  cbn [Page.encodeURIComponent]. rewrite decode_encoded_char. now rewrite IH.
Qed.

Lemma lacks_app c (a b : string) : lacks c (a ++ b) = lacks c a && lacks c b.
Proof.
  induction a as [|x a IH]; cbn [lacks String.append]; [reflexivity|].
  rewrite IH. now rewrite andb_assoc.
Qed.

Lemma encoded_char_safe (c ch : ascii) :
  Page.unreserved ch = false -> ch <> "%"%char ->
  lacks ch (if Page.unreserved c then String c ""
            else String "%" (String (Page.HEX (nat_of_ascii c / 16))
                               (String (Page.HEX (nat_of_ascii c mod 16)) ""))) = true.
Proof.
  intros Hch Hpct.
  assert (Hneq : forall a, Page.unreserved a = true -> Ascii.eqb a ch = false).
  { intros a Ha. apply Ascii.eqb_neq. intros ->. congruence. }
  assert (Hp : Ascii.eqb "%" ch = false) by (apply Ascii.eqb_neq; congruence).
  destruct (Page.unreserved c) eqn:U.
  - cbn [lacks]. now rewrite (Hneq c U).
  - cbn [lacks]. rewrite Hp.
    rewrite !Hneq; [reflexivity| |].
    + clear. destruct c as [[] [] [] [] [] [] [] []]; reflexivity.
    + clear. destruct c as [[] [] [] [] [] [] [] []]; reflexivity.
Qed.

Lemma encode_safe (s : string) (ch : ascii) :
  Page.unreserved ch = false -> ch <> "%"%char ->
  lacks ch (Page.encodeURIComponent s) = true.
Proof.
  intros Hch Hpct. induction s as [|c s IH]; [reflexivity|].
  cbn [Page.encodeURIComponent]. rewrite lacks_app, IH.
  now rewrite (encoded_char_safe c ch Hch Hpct).
Qed.

Lemma request_sent srv c render pg :
  (forall json update, render json = Ok update ->
                       forall p, Page.sent (update p) = Page.sent p) ->
  Page.sent (Page.request srv c render pg) = (Page.sent pg ++ [c])%list.
Proof.
  intros Hrender. unfold Page.request.
  destruct (srv c) as [json|e]; cbn [bind]; [|reflexivity].
  destruct (render json) as [update|e] eqn:R; [|reflexivity].
  now rewrite (Hrender json update R).
Qed.

(** Property X24.  With a url that is not blank, [fetchStoredTitle] sends
    one GET request to [/api/video-title?url=] followed by the encoded
    url; the encoded url contains none of the characters that would end
    or split the query parameter, and no other url has the same
    encoding. *)
Theorem title_request_carries_the_url (srv : Page.server) (pg : Page.page) :
  Page.trim (Page.url pg) <> "" ->
  let query := Page.encodeURIComponent (Page.trim (Page.url pg)) in
  Page.sent (Page.fetchStoredTitle srv pg)
  = (Page.sent pg ++ [Page.mkCall "GET" ("/api/video-title?url=" ++ query) None])%list /\
  (forall ch, In ch ["&"; "="; "#"; "?"; "+"; " "; "/"]%char -> lacks ch query = true) /\
  (forall other,
     Page.encodeURIComponent other = query -> other = Page.trim (Page.url pg)).
Proof.
  intros Hurl query. split; [|split].
  - unfold Page.fetchStoredTitle. apply String.eqb_neq in Hurl. rewrite Hurl.
    rewrite request_sent; [reflexivity|].
    intros json update. destruct (Get json "title") as [t|]; cbn [bind]; [|discriminate].
    destruct (ToBoolean t).
    + destruct (ToString t); cbn [bind]; [|discriminate]. now intros [= <-].
    + now intros [= <-].
  - intros ch Hin. cbn [In] in Hin.
    repeat (destruct Hin as [<- | Hin]; [apply encode_safe; [reflexivity|discriminate]|]).
    destruct Hin.
  - intros other H. apply (f_equal decodeURIComponent) in H.
    subst query. now rewrite !decode_encode in H.
Qed.

(** *** The page and the title routes *)

Lemma transported_plain (fields : list (string * value)) :
  plain fields = true ->
  transported (JObj fields) = Ok (JObj (parsed_members fields)).
Proof.
  intros H. unfold transported, JSON_stringify.
  destruct (Stringify.serialize "" "" (JObj fields)) as [text|] eqn:S.
  - now apply parse_texts.
  - rewrite serialize_texts in S by assumption. discriminate.
Qed.

Lemma body_text_plain (fields : list (string * value)) :
  plain fields = true ->
  exists text, Page.body_text (JObj fields) = Some text /\
               JSON.parse text = Ok (JObj (parsed_members fields)).
Proof.
  intros H. unfold Page.body_text, JSON_stringify.
  destruct (Stringify.serialize "" "" (JObj fields)) as [text|] eqn:S.
  - exists text. split; [reflexivity | now apply parse_texts].
  - rewrite serialize_texts in S by assumption. discriminate.
Qed.

(** Property X25.  The page and the Express title routes, end to end.  When
    the store holds text titles, and the server answers the requests of
    the page with the replies of the routes: if the write succeeds,
    saving the title of the title input for the url of the form shows
    [Saved title for] and the url, and fetching the stored title
    afterwards shows [Found title: ] and the saved title and puts it into
    the title input; if the write fails, the page shows [Save failed: ]
    and the error reply of the route.  The url [__proto__] is
    excepted. *)
Theorem page_title_round_trip
    (pg : Page.page) (w : World) (fields : list (string * value))
    (srv srv' : Page.server) :
  let u := Page.trim (Page.url pg) in
  let t := Page.trim (Page.titleInput pg) in
  u <> "" -> t <> "" -> u <> "__proto__" ->
  fst (Express.readVideoDB w) = Ok (JObj fields) ->
  title_store fields = true ->
  (forall text body,
     JSON.parse text = Ok body ->
     srv (Page.mkCall "POST" "/api/video-title" (Some text))
     = answered (Express.post_video_title body) w) ->
  srv' (Page.mkCall "GET" ("/api/video-title?url=" ++ Page.encodeURIComponent u) None)
  = answered (Express.get_video_title (JStr u))
             (snd (Express.post_video_title (JObj [("url", JStr u); ("title", JStr t)]) w)) ->
  let pg1 := Page.saveTitle srv pg in
  let pg2 := Page.fetchStoredTitle srv' pg1 in
  match write_error w Express.VIDEO_DB with
  | None =>
      Page.resultsContent pg1 = Client.TextContent (JStr ("Saved title for " ++ u)) /\
      Page.resultsContent pg2 = Client.TextContent (JStr ("Found title: " ++ t)) /\
      Page.titleInput pg2 = t
  | Some _ =>
      Page.resultsContent pg1
      = Client.TextContent
          (JStr ("Save failed: " ++ dq "{'error':'Failed to write video DB'}"))
  end.
Proof.
  intros u t Nu Nt Nproto Hstore Hflat Hsrv Hsrv' pg1 pg2.
  set (body := JObj [("url", JStr u); ("title", JStr t)]) in *.
  destruct (body_text_plain [("url", JStr u); ("title", JStr t)] eq_refl)
    as (text & Htext & Hparse).
  change (parsed_members [("url", JStr u); ("title", JStr t)])
    with [("url", JStr u); ("title", JStr t)] in Hparse. fold body in Hparse.
  assert (Eu : String.eqb u "" = false) by now apply String.eqb_neq.
  assert (Et : String.eqb t "" = false) by now apply String.eqb_neq.
  destruct (write_error w Express.VIDEO_DB) as [err|] eqn:Hfile.
  { pose proof (Express_post_fails w body u t fields err
                  Hstore Hfile Hflat eq_refl eq_refl Nu Nt Nproto) as Hpost.
    assert (Hsave : srv (Page.mkCall "POST" "/api/video-title" (Some text))
                    = Ok (JObj [("error", JStr "Failed to write video DB")])).
    { rewrite (Hsrv text body Hparse). unfold answered. rewrite Hpost.
      cbn [fst Express.json]. now rewrite transported_plain. }
    subst pg1. unfold Page.saveTitle. fold u t. rewrite Eu, Et. cbn [orb].
    unfold Page.request. rewrite Htext, Hsave. reflexivity. }
  destruct (Express_post_saves w body u t fields Hstore Hfile Hflat eq_refl eq_refl Nu Nt Nproto)
    as (w' & fields' & Hpost & Hread' & _ & _ & Hlookup).
  assert (Hsave : srv (Page.mkCall "POST" "/api/video-title" (Some text))
                  = Ok (JObj [("ok", JBool true); ("url", JStr u); ("title", JStr t)])).
  { rewrite (Hsrv text body Hparse). unfold answered. rewrite Hpost. cbn [fst Express.json].
    now rewrite transported_plain. }
  assert (Hfetch : srv' (Page.mkCall "GET"
                           ("/api/video-title?url=" ++ Page.encodeURIComponent u) None)
                   = Ok (JObj [("url", JStr u); ("title", JStr t)])).
  { rewrite Hsrv'. unfold answered. rewrite Hpost. cbn [snd].
    rewrite (Express_get_video_title_spec u w' fields' Nu Hread').
    rewrite Hlookup, String.eqb_refl. unfold js_or. cbn [ToBoolean fst Express.json].
    pose proof Nt as Nt'. apply String.eqb_neq in Nt'. rewrite Nt'. cbn [negb].
    now rewrite transported_plain. }
  assert (Hpg1 : pg1 = Page.show (Client.TextContent (JStr ("Saved title for " ++ u)))
                         (Page.fetch (Page.mkCall "POST" "/api/video-title" (Some text))
                            (Page.setLoading true "Saving title..." pg))).
  { subst pg1. unfold Page.saveTitle. fold u t. rewrite Eu, Et. cbn [orb].
    unfold Page.request. rewrite Htext, Hsave. reflexivity. }
  split; [now rewrite Hpg1|].
  assert (Hurl1 : Page.trim (Page.url pg1) = u) by now rewrite Hpg1.
  subst pg2. unfold Page.fetchStoredTitle. rewrite Hurl1, Eu.
  unfold Page.request. rewrite Hfetch.
  cbn [bind Get lookup String.eqb Ascii.eqb Bool.eqb ToBoolean ToString].
  rewrite Et. cbn [negb]. split; reflexivity.
Qed.

(* ===================================================================== *)
(** ** The adapters of the backend *)
(* ===================================================================== *)

(** *** The Gemini adapters *)

Lemma use_failing name class call prompt :
  (exists err, call prompt = Throw err) ->
  fst (Gemini.use name class call prompt) = None.
Proof. intros [err H]. unfold Gemini.use. now rewrite H. Qed.

Lemma attempts_failing name m prompt :
  failing m prompt ->
  fst (Gemini.server_attempt name m prompt) = None /\
  fst (Gemini.lambda_attempt name m prompt) = None.
Proof.
  intros (H1 & H2 & H3).
  unfold Gemini.server_attempt, Gemini.lambda_attempt.
  destruct (Gemini.TextServiceClient m) as [c1|].
  { split; apply use_failing; auto. }
  destruct (Gemini.TextsClient m) as [c2|];
    destruct (Gemini.Generative m) as [[| | |c3]|]; cbn [fst snd];
    repeat split; try reflexivity; apply use_failing; auto.
Qed.

Lemma try_sdks_failing try_module e names prompt :
  (forall name m, Gemini.import e name = Some m -> fst (try_module name m prompt) = None) ->
  fst (Gemini.try_sdks try_module e names prompt) = None.
Proof.
  intros H. induction names as [|name rest IH]; cbn [Gemini.try_sdks]; [reflexivity|].
  destruct (Gemini.import e name) as [m|] eqn:I.
  - specialize (H name m I). destruct (try_module name m prompt) as [found log].
    cbn [fst] in H. subst found.
    destruct (Gemini.try_sdks try_module e rest prompt) as [later log']. exact IH.
  - destruct (Gemini.try_sdks try_module e rest prompt) as [later log']. exact IH.
Qed.

Lemma adapter_rest missing try_module e prompt key :
  Gemini.apiKey e = Some key -> key <> "" ->
  fst (Gemini.try_sdks try_module e Gemini.sdkCandidates prompt) = None ->
  fst (Gemini.adapter missing try_module e prompt) = fst (Gemini.rest e key prompt).
Proof.
  intros Hkey Nkey Hnone. unfold Gemini.adapter. rewrite Hkey.
  apply String.eqb_neq in Nkey. rewrite Nkey.
  destruct (Gemini.try_sdks try_module e Gemini.sdkCandidates prompt) as [found log].
  cbn [fst] in Hnone. subst found.
  destruct (Gemini.rest e key prompt) as [result log']. reflexivity.
Qed.

(** Property X26.  Both adapters check the API key first: without a key
    they throw their error and neither import an SDK nor send a request.
    With a key, when every call of every SDK that can be imported throws,
    the result is the result of the REST request. *)
Theorem adapters_fall_back_to_rest (e : Gemini.env) (prompt : string) :
  match Gemini.apiKey e with
  | None | Some EmptyString =>
      Gemini.callGemini e prompt
      = (Throw (Error "GEMINI_API_KEY not set in environment"), []) /\
      Gemini.callGemini_lambda e prompt
      = (Throw (Error "GEMINI_API_KEY not set in environment variables"), [])
  | Some key =>
      (forall name m, Gemini.import e name = Some m -> failing m prompt) ->
      fst (Gemini.callGemini e prompt) = fst (Gemini.rest e key prompt) /\
      fst (Gemini.callGemini_lambda e prompt) = fst (Gemini.rest e key prompt)
  end.
Proof.
  destruct (Gemini.apiKey e) as [key|] eqn:K.
  2:{ unfold Gemini.callGemini, Gemini.callGemini_lambda, Gemini.adapter.
      rewrite K. split; reflexivity. }
  destruct key as [|c key].
  { unfold Gemini.callGemini, Gemini.callGemini_lambda, Gemini.adapter.
    rewrite K. split; reflexivity. }
  intros Hfail.
  split; apply adapter_rest; try assumption; try discriminate;
    apply try_sdks_failing; intros name m I;
    apply (attempts_failing name m prompt (Hfail name m I)).
Qed.

(** Property X27.  With a key and no SDK installed, when the endpoint
    answers with a status that is not OK, both adapters throw the error
    [Gemini API error <status>: <body>]; the server adapter has then tried
    to import the three SDKs, in order, and sent one request with the key
    as bearer token. *)
Theorem rest_error_status_is_thrown
    (e : Gemini.env) (prompt key : string) (resp : Gemini.response) (body : string) :
  Gemini.apiKey e = Some key -> key <> "" ->
  (forall name, Gemini.import e name = None) ->
  (forall content, Gemini.endpoint e ("Bearer " ++ key) content = Ok resp) ->
  Gemini.ok resp = false ->
  Gemini.text resp = Ok body ->
  let failure :=
    Throw (Error ("Gemini API error " ++ Num.toString (num_of_Z (Gemini.status resp))
                  ++ ": " ++ body)) in
  fst (Gemini.callGemini e prompt) = failure /\
  fst (Gemini.callGemini_lambda e prompt) = failure /\
  exists content,
    snd (Gemini.callGemini e prompt)
    = (map Gemini.Imported Gemini.sdkCandidates
       ++ [Gemini.Fetched ("Bearer " ++ key) content])%list.
Proof.
  intros Hkey Nkey Himport Hend Hok Htext failure.
  assert (Hrest : fst (Gemini.rest e key prompt) = failure).
  { unfold Gemini.rest. cbn [fst]. rewrite Hend, Hok, Htext. reflexivity. }
  split; [|split].
  - rewrite <- Hrest. apply adapter_rest; try assumption.
    apply try_sdks_failing. intros name m I. rewrite Himport in I. discriminate.
  - rewrite <- Hrest. apply adapter_rest; try assumption.
    apply try_sdks_failing. intros name m I. rewrite Himport in I. discriminate.
  - unfold Gemini.callGemini, Gemini.adapter. rewrite Hkey.
    apply String.eqb_neq in Nkey. rewrite Nkey.
    unfold Gemini.sdkCandidates. cbn [Gemini.try_sdks]. rewrite !Himport.
    cbn [app map snd Gemini.rest]. eexists. reflexivity.
Qed.

Lemma stringify_object_truthy fields :
  ToBoolean (JSON_stringify (JObj fields) "") = true.
Proof.
  unfold JSON_stringify. cbn [Stringify.serialize]. unfold Stringify.wrap.
  match goal with
  | |- context [match ?parts with [] => _ | _ => _ end] => destruct parts
  end; reflexivity.
Qed.

Lemma output_content_total output :
  exists c, Gemini.output_content output = Ok c /\
            (isArray output = false -> ToBoolean c = false).
Proof.
  unfold Gemini.output_content.
  destruct (ToBoolean output) eqn:T; cbn [andb]; [|eexists; split; reflexivity].
  destruct (isArray output) eqn:A; [|eexists; split; reflexivity].
  destruct (Get_defined output "0") as [first ->]; try (intros ->; discriminate).
  cbn [bind]. destruct (Get_optional_total first "content") as [c ->].
  exists c. split; [reflexivity | discriminate].
Qed.

Lemma choice_content_total choices :
  exists c, Gemini.choice_content choices = Ok c /\
            (ToBoolean choices = false -> ToBoolean c = false).
Proof.
  unfold Gemini.choice_content.
  destruct (ToBoolean choices) eqn:T; [|exists choices; split; [reflexivity | now intros _]].
  destruct (Get_defined choices "0") as [first ->]; try (intros ->; discriminate).
  cbn [bind]. destruct (Get_optional_total first "message") as [message ->]. cbn [bind].
  destruct (Get_optional_total message "content") as [c ->].
  exists c. split; [reflexivity | discriminate].
Qed.

(** Property X28.  The text the adapters take from a reply object is never
    empty: it is a truthy value.  A non-empty text under [output] is
    returned as it is, before anything else is looked at, and a reply
    with neither [output] nor [choices] is returned as its JSON text. *)
Theorem reply_text_is_never_empty (fields : list (string * value)) :
  exists v,
    Gemini.reply_text (JObj fields) = Ok v /\
    ToBoolean v = true /\
    (forall s, lookup "output" fields = Some (JStr s) -> s <> "" -> v = JStr s) /\
    (lookup "output" fields = None -> lookup "choices" fields = None ->
     v = JSON_stringify (JObj fields) "").
Proof.
  unfold Gemini.reply_text. rewrite !Get_object.
  set (output := match lookup "output" fields with
                 | Some x => x | None => inherited "output" end).
  set (choices := match lookup "choices" fields with
                  | Some x => x | None => inherited "choices" end).
  cbn [bind].
  destruct (output_content_total output) as (c1 & E1 & F1).
  destruct (choice_content_total choices) as (c2 & E2 & F2).
  destruct (ToBoolean output && match output with JStr _ => true | _ => false end) eqn:S.
  { apply andb_prop in S as [To Hs]. exists output.
    split; [reflexivity|]. split; [exact To|]. split.
    - intros s L _. subst output. now rewrite L.
    - intros L. subst output. rewrite L in To. cbv in To. discriminate. }
  rewrite E1. cbn [bind].
  assert (Hout : forall s, lookup "output" fields = Some (JStr s) -> s <> "" -> False).
  { intros s L N. subst output. rewrite L in S. cbn [ToBoolean] in S.
    apply String.eqb_neq in N. rewrite N in S. discriminate. }
  destruct (ToBoolean c1) eqn:T1.
  { exists c1. split; [reflexivity|]. split; [exact T1|]. split.
    - intros s L N. destruct (Hout s L N).
    - intros L. subst output. rewrite L in F1. specialize (F1 eq_refl).
      discriminate. }
  rewrite E2. cbn [bind].
  destruct (ToBoolean c2) eqn:T2.
  { exists c2. split; [reflexivity|]. split; [exact T2|]. split.
    - intros s L N. destruct (Hout s L N).
    - intros _ L. subst choices. rewrite L in F2. specialize (F2 eq_refl).
      discriminate. }
  eexists. split; [reflexivity|]. split; [apply stringify_object_truthy|]. split.
  - intros s L N. destruct (Hout s L N).
  - reflexivity.
Qed.

Lemma attempts_agree name m prompt :
  same_order m ->
  fst (Gemini.server_attempt name m prompt) = fst (Gemini.lambda_attempt name m prompt).
Proof.
  unfold same_order, Gemini.server_attempt, Gemini.lambda_attempt.
  destruct (Gemini.TextServiceClient m) as [c1|]; [reflexivity|].
  intros [H | [H | H]]; [congruence | |]; rewrite H.
  - destruct (Gemini.Generative m) as [[| | |c3]|]; reflexivity.
  - destruct (Gemini.TextsClient m) as [c2|]; reflexivity.
Qed.

Lemma try_sdks_agree tm1 tm2 e names prompt :
  (forall name m, Gemini.import e name = Some m ->
                  fst (tm1 name m prompt) = fst (tm2 name m prompt)) ->
  fst (Gemini.try_sdks tm1 e names prompt) = fst (Gemini.try_sdks tm2 e names prompt).
Proof.
  intros H. induction names as [|name rest IH]; cbn [Gemini.try_sdks]; [reflexivity|].
  destruct (Gemini.import e name) as [m|] eqn:I.
  - specialize (H name m I).
    destruct (tm1 name m prompt) as [f1 l1], (tm2 name m prompt) as [f2 l2].
    cbn [fst] in H. subst f2.
    destruct (Gemini.try_sdks tm1 e rest prompt) as [r1 k1],
             (Gemini.try_sdks tm2 e rest prompt) as [r2 k2].
    cbn [fst] in IH. subst r2. destruct f1; reflexivity.
  - destruct (Gemini.try_sdks tm1 e rest prompt) as [r1 k1],
             (Gemini.try_sdks tm2 e rest prompt) as [r2 k2].
    exact IH.
Qed.

(** Property X29.  The two adapters differ only in the order in which they
    try the classes of an SDK: with a key, when no module that can be
    imported exports both [TextsClient] and [Generative] without
    [TextServiceClient], they return the same result; for the module
    [two_classes], which exports both, the server adapter returns the
    result of [Generative] and the Lambda adapter that of
    [TextsClient]. *)
Theorem adapters_agree_up_to_class_order (e : Gemini.env) (prompt key : string) :
  (Gemini.apiKey e = Some key -> key <> "" ->
   (forall name m, Gemini.import e name = Some m -> same_order m) ->
   fst (Gemini.callGemini e prompt) = fst (Gemini.callGemini_lambda e prompt)) /\
  fst (Gemini.callGemini two_classes prompt) = Ok (JStr (dq "'Generative'")) /\
  fst (Gemini.callGemini_lambda two_classes prompt) = Ok (JStr (dq "'TextsClient'")).
Proof.
  split; [|split; reflexivity].
  intros Hkey Nkey Horder.
  unfold Gemini.callGemini, Gemini.callGemini_lambda, Gemini.adapter. rewrite Hkey.
  apply String.eqb_neq in Nkey. rewrite Nkey.
  pose proof (try_sdks_agree Gemini.server_attempt Gemini.lambda_attempt e
                Gemini.sdkCandidates prompt) as H.
  destruct (Gemini.try_sdks Gemini.server_attempt e Gemini.sdkCandidates prompt) as [f1 l1],
           (Gemini.try_sdks Gemini.lambda_attempt e Gemini.sdkCandidates prompt) as [f2 l2].
  cbn [fst] in H. rewrite <- H.
  - destruct f1; [reflexivity|]. destruct (Gemini.rest e key prompt). reflexivity.
  - intros name m I. apply attempts_agree. eauto.
Qed.

(* ===================================================================== *)
(** ** Worked instances of the further properties *)
(* ===================================================================== *)

Lemma backend_failure_answers_500_witness :
  fst (Express.evaluate_metric example_body (backend_failing (Error "quota exceeded")))
  = Ok (Express.mkResponse 500 (JObj [("error", JStr "quota exceeded")])).
Proof.
  eapply (backend_failure_answers_500 example_body (backend_failing (Error "quota exceeded"))
            _ (Error "quota exceeded") Express.evaluate_metric).
  - left. reflexivity.
  - vm_compute. reflexivity.
  - reflexivity.
Defined.

Lemma backend_reply_is_relayed_witness :
  (exists payload,
     fst (Express.evaluate_all example_body (backend_replying "not json"))
     = Ok (Express.mkResponse 200 payload) /\
     Get payload "ok" = Ok (JBool true) /\
     Get payload "raw" = Ok (JStr "not json") /\
     Get payload "parsed" = Ok JUndefined) /\
  fst (Express.evaluate_all example_body (backend_returning JUndefined))
  = Ok (Express.mkResponse 500
          (JObj [("error",
                  JStr "Cannot read properties of undefined (reading 'indexOf')")])).
Proof.
  split.
  - destruct (backend_reply_is_relayed example_body (backend_replying "not json")
                (last (calls (snd (Express.evaluate_all example_body
                                     (backend_replying "not json")))) "")
                (JStr "not json") Express.evaluate_all) as [H _].
    + right. reflexivity.
    + vm_compute. reflexivity.
    + reflexivity.
    + exact H.
  - destruct (backend_reply_is_relayed example_body (backend_returning JUndefined)
                (last (calls (snd (Express.evaluate_all example_body
                                     (backend_returning JUndefined)))) "")
                JUndefined Express.evaluate_all) as [H _].
    + right. reflexivity.
    + vm_compute. reflexivity.
    + reflexivity.
    + exact H.
Defined.

Lemma unreadable_store_answers_500_witness :
  Express.get_video_title (JStr "v1") locked_files
  = (Ok (Express.mkResponse 500 (JObj [("error", JStr "Failed to read video DB")])),
     locked_files).
Proof.
  apply (proj1 (unreadable_store_answers_500 locked_files
                  (SystemError "EACCES" "permission denied") eq_refl)).
  reflexivity.
Defined.

Lemma title_is_saved_only_with_url_and_title_witness :
  Express.post_video_title (JObj [("url", JStr "v1")]) (backend_replying "")
  = (Ok (Express.mkResponse 400 (JObj [("error", JStr "url and title required")])),
     backend_replying "").
Proof.
  apply title_is_saved_only_with_url_and_title.
  right. exists JUndefined. split; reflexivity.
Defined.

Lemma handler_backend_failure_answers_500_witness :
  fst (Lambda.handler (gateway_event "/evaluate-all" "POST" (JStr (dq "{'url':'v1'}")))
         (backend_failing (Error "")))
  = Ok (Lambda.buildResponse 500 (JObj [("error", JStr "Internal error")])).
Proof.
  eapply (handler_backend_failure_answers_500 _ (backend_failing (Error "")) _ (Error "")).
  - vm_compute. reflexivity.
  - reflexivity.
Defined.

Lemma handler_relays_reply_with_parsed_witness :
  fst (Lambda.handler (gateway_event "/evaluate-all" "POST" (JStr (dq "{'url':'v1'}")))
         (backend_replying "not json"))
  = Ok (Lambda.buildResponse 200
          (JObj [("ok", JBool true); ("raw", JStr "not json"); ("parsed", JNull)])) /\
  fst (Lambda.handler (gateway_event "/evaluate-all" "POST" (JStr (dq "{'url':'v1'}")))
         (backend_returning (JObj [("candidates", JArr [])])))
  = Ok (Lambda.buildResponse 500 (JObj [("error", JStr "text.indexOf is not a function")])).
Proof.
  split.
  - destruct (handler_relays_reply_with_parsed
                (gateway_event "/evaluate-all" "POST" (JStr (dq "{'url':'v1'}")))
                (backend_replying "not json")
                (last (calls (snd (Lambda.handler
                                     (gateway_event "/evaluate-all" "POST"
                                        (JStr (dq "{'url':'v1'}")))
                                     (backend_replying "not json")))) "")
                (JStr "not json")) as [H _].
    + vm_compute. reflexivity.
    + reflexivity.
    + now rewrite H.
  - destruct (handler_relays_reply_with_parsed
                (gateway_event "/evaluate-all" "POST" (JStr (dq "{'url':'v1'}")))
                (backend_returning (JObj [("candidates", JArr [])]))
                (last (calls (snd (Lambda.handler
                                     (gateway_event "/evaluate-all" "POST"
                                        (JStr (dq "{'url':'v1'}")))
                                     (backend_returning (JObj [("candidates", JArr [])]))))) "")
                (JObj [("candidates", JArr [])])) as [H _].
    + vm_compute. reflexivity.
    + reflexivity.
    + now rewrite H.
Defined.

Lemma handler_answers_404_exactly_off_route_witness :
  exists code body w',
    Lambda.handler (gateway_event "/health" "GET" JNull) (backend_replying "")
    = (Ok (Lambda.buildResponse code body), w') /\
    (code = 404%Z <-> route_of "/health" "GET" = NotFound) /\
    (route_of "/health" "GET" = NotFound ->
     body = JObj [("error", JStr "Not found")] /\ w' = backend_replying "").
Proof.
  apply (handler_answers_404_exactly_off_route (gateway_event "/health" "GET" JNull)
           "/health" "GET" (backend_replying ""));
    try reflexivity; discriminate.
Defined.

Lemma handler_rejects_malformed_body_witness :
  Lambda.handler (gateway_event "/evaluate-all" "POST" (JStr "{oops")) (backend_replying "")
  = (Ok (Lambda.buildResponse 500
           (JObj [("error", message_or JSON.syntax_error "Internal error")])),
     backend_replying "").
Proof.
  apply (handler_rejects_malformed_body (gateway_event "/evaluate-all" "POST" (JStr "{oops"))
           "/evaluate-all" (backend_replying "") JSON.syntax_error);
    try reflexivity; discriminate.
Defined.

Lemma handler_validates_posted_fields_witness :
  Lambda.handler (gateway_event "/evaluate-metric" "POST" JNull) (backend_replying "")
  = (Ok (Lambda.buildResponse 400 (JObj [("error", JStr "Missing url or metric")])),
     backend_replying "").
Proof.
  apply (handler_validates_posted_fields (gateway_event "/evaluate-metric" "POST" JNull)
           "/evaluate-metric" (JObj []) (backend_replying ""));
    try reflexivity; try discriminate.
  left. exists JUndefined. split; reflexivity.
Defined.


Lemma handler_saved_title_is_fetched_witness :
  let w1 := snd (Lambda.handler
                   (gateway_event "/video-title" "POST"
                      (JStr (dq "{'url':'v1','title':'Intro to X'}")))
                   (backend_replying "")) in
  Lambda.handler (title_query "v1") w1
  = (Ok (Lambda.buildResponse 200 (JObj [("url", JStr "v1"); ("title", JStr "Intro to X")])),
     w1).
Proof.
  apply (handler_saved_title_is_fetched (backend_replying "")
           (gateway_event "/video-title" "POST"
              (JStr (dq "{'url':'v1','title':'Intro to X'}")))
           (title_query "v1") title_body (JObj [("url", JStr "v1")])
           "/video-title" "/video-title" "v1" "Intro to X" []);
    try reflexivity; discriminate.
Defined.

Lemma stored_title_is_sent_witness :
  exists prompt,
    constructPrompt
      (details_of (mkRequest "v1" (Some "Intro to X") (Some "tutorial") (Some "teach X")
                     None None None))
      (map JStr METRICS) = Ok prompt /\
    calls (snd (Express.evaluate_all (details_of example_request) titled_world)) = [prompt] /\
    own_line "Title: Intro to X" prompt.
Proof.
  apply (stored_title_is_sent titled_world example_request [("v1", JStr "Intro to X")]);
    try reflexivity; discriminate.
Defined.

Lemma views_read_different_lists_witness :
  Client.find_metric "Reasoning"
    (JObj [("results", JArr (map entry_value [example_entry]));
           ("metrics", JArr (map entry_value (d_entries sample_document)))])
  = Ok JUndefined /\
  Client.metricsArr
    (JObj [("results", JArr (map entry_value [example_entry]));
           ("metrics", JArr (map entry_value (d_entries sample_document)))])
  = Ok (JArr (map entry_value (d_entries sample_document))).
Proof.
  apply (views_read_different_lists
           [("results", JArr (map entry_value [example_entry]));
            ("metrics", JArr (map entry_value (d_entries sample_document)))]
           [example_entry] (d_entries sample_document) "Reasoning");
    reflexivity.
Defined.

Lemma results_must_be_a_list_witness :
  exists message,
    Client.renderMetricResult "Reasoning transparency"
      (payload_of "{}" (JObj [("results", JStr "none")]))
    = Throw (TypeError message).
Proof.
  apply (results_must_be_a_list (payload_of "{}" (JObj [("results", JStr "none")]))
           (JStr "none") [("results", JStr "none")] "Reasoning transparency");
    reflexivity.
Defined.

Lemma keyed_entries_need_name_and_score_witness :
  Client.metricsArr
    (JObj (combine ["first"; "second"]
             (map entry_value [example_entry; mkEntry "Pacing" (mkNum 0 0) "No score."])))
  = Ok (JArr [entry_value example_entry]).
Proof.
  apply (keyed_entries_need_name_and_score ["first"; "second"]
           [example_entry; mkEntry "Pacing" (mkNum 0 0) "No score."]).
  - reflexivity.
  - repeat constructor; discriminate.
Defined.

Lemma blank_url_only_alerts_witness :
  Page.evaluateAll offline blank_page = Page.alert "Please enter a YouTube URL" blank_page.
Proof.
  apply (blank_url_only_alerts offline blank_page "" "").
  reflexivity.
Defined.

Lemma evaluation_releases_its_button_witness :
  Page.disabled (Page.evaluateAll offline filled_page) "evaluateAllBtn" = false.
Proof.
  exact (proj1 (proj2 (evaluation_releases_its_button offline filled_page "" ""
                         ltac:(discriminate)))).
Defined.


Lemma page_requests_pass_validation_witness :
  exists text,
    Page.sent (Page.evaluateAll offline filled_page)
    = [Page.mkCall "POST" "/api/evaluate-all" (Some text)] /\
    JSON.parse text = Ok (JObj (Page.readForm filled_page)) /\
    forall w r w',
      Express.evaluate_all (JObj (Page.readForm filled_page)) w = (Ok r, w') ->
      Express.status r <> 400%Z.
Proof.
  apply (proj1 (page_requests_pass_validation offline filled_page "" "" ltac:(discriminate))).
Defined.

Lemma title_request_carries_the_url_witness :
  Page.sent (Page.fetchStoredTitle offline filled_page)
  = [Page.mkCall "GET" "/api/video-title?url=v1" None].
Proof.
  apply (proj1 (title_request_carries_the_url offline filled_page ltac:(discriminate))).
Defined.

Lemma page_title_round_trip_witness :
  (let saved := snd (Express.post_video_title title_body (backend_replying "")) in
   let pg1 := Page.saveTitle (title_server (backend_replying "")) filled_page in
   let pg2 := Page.fetchStoredTitle (title_server saved) pg1 in
   Page.resultsContent pg1 = Client.TextContent (JStr "Saved title for v1") /\
   Page.resultsContent pg2 = Client.TextContent (JStr "Found title: Intro to X") /\
   Page.titleInput pg2 = "Intro to X") /\
  Page.resultsContent
    (Page.saveTitle (title_server (write_protected titled_world)) filled_page)
  = Client.TextContent
      (JStr ("Save failed: " ++ dq "{'error':'Failed to write video DB'}")).
Proof.
  split.
  - apply (page_title_round_trip filled_page (backend_replying "") []
             (title_server (backend_replying ""))
             (title_server (snd (Express.post_video_title title_body (backend_replying "")))));
      try reflexivity; try discriminate.
    intros text body H. unfold title_server. cbn [Page.c_body]. now rewrite H.
  - apply (page_title_round_trip filled_page (write_protected titled_world)
             [("v1", JStr "Intro to X")]
             (title_server (write_protected titled_world))
             (title_server (snd (Express.post_video_title title_body
                                   (write_protected titled_world)))));
      try reflexivity; try discriminate.
    intros text body H. unfold title_server. cbn [Page.c_body]. now rewrite H.
Defined.

Lemma adapters_fall_back_to_rest_witness :
  fst (Gemini.callGemini (rest_only "k" over_quota) "Evaluate")
  = fst (Gemini.rest (rest_only "k" over_quota) "k" "Evaluate").
Proof.
  apply (proj1 (adapters_fall_back_to_rest (rest_only "k" over_quota) "Evaluate"
                  ltac:(discriminate))).
Defined.

Lemma rest_error_status_is_thrown_witness :
  fst (Gemini.callGemini (rest_only "k" over_quota) "Evaluate")
  = Throw (Error "Gemini API error 429: quota exceeded").
Proof.
  apply (proj1 (rest_error_status_is_thrown (rest_only "k" over_quota) "Evaluate" "k"
                  over_quota "quota exceeded" eq_refl ltac:(discriminate)
                  ltac:(reflexivity) ltac:(reflexivity) eq_refl eq_refl)).
Defined.

Lemma reply_text_is_never_empty_witness :
  Gemini.reply_text (JObj [("output", JStr "Score: 7"); ("choices", JArr [])])
  = Ok (JStr "Score: 7").
Proof.
  destruct (reply_text_is_never_empty [("output", JStr "Score: 7"); ("choices", JArr [])])
    as (v & E & _ & Hs & _).
  rewrite E. f_equal. apply Hs; [reflexivity | discriminate].
Defined.

Lemma adapters_agree_up_to_class_order_witness :
  fst (Gemini.callGemini (rest_only "k" over_quota) "Evaluate")
  = fst (Gemini.callGemini_lambda (rest_only "k" over_quota) "Evaluate").
Proof.
  apply (proj1 (adapters_agree_up_to_class_order (rest_only "k" over_quota) "Evaluate" "k"));
    [reflexivity | discriminate | discriminate].
Defined.
